(** * NetProbe: a shallow embedding of the scan engine and the two monitors

    The development follows the three Python programs of the repository:

    - [net_probe.py]      (module [NetProbe]):  CIDR expansion, pre-flight
      check, retrying ping / TCP probers, the ping pool, the port list,
      the TCP phase and the summary;
    - [tcping_monitor.py] (module [TcpingMonitor]): the endless TCP loop
      with its [try / except / finally] frame;
    - [ping_monitor.py]   (module [PingMonitor]): the endless ping loop.

    Python integers are [Z]; durations, latencies and rates are exact
    rationals [Q] (rounding of binary floating point is not modelled);
    Python exceptions are values of [exn] carried by [Raise].  What the
    programs do to the outside (probes, pauses, console and log lines) is
    recorded as a list of events, and what the outside answers is a
    parameter of the model.

    The embedding comes first, then the vocabulary the properties are
    stated in ([NetProbeSpec], [MonitorSpec]), then the properties
    ([IpaddressFacts], [NetProbeProofs], [MonitorProofs]). *)

From Stdlib Require Import ZArith QArith Lia List Ascii String.
From stdpp Require Import gmap strings list pretty.

Local Open Scope string_scope.
Local Open Scope list_scope.
Local Open Scope Z_scope.

(** ** Python-level helpers shared by the three programs *)

Module Py.

(** [range(a, b)] as a list. *)
Definition range (a b : Z) : list Z :=
  List.map (fun i => a + Z.of_nat i) (seq 0 (Z.to_nat (b - a))).

(** [s.split(c)] for a one-character separator: never returns [[]]. *)
Fixpoint split_char (c : ascii) (s : string) : list string :=
  match s with
  | EmptyString => [EmptyString]
  | String a rest =>
      if decide (a = c) then EmptyString :: split_char c rest
      else match split_char c rest with
           | w :: ws => String a w :: ws
           | [] => [String a EmptyString]
           end
  end.

(** [sep.join(ws)]. *)
Fixpoint join (sep : string) (ws : list string) : string :=
  match ws with
  | [] => ""
  | [w] => w
  | w :: ws' => (w ++ sep ++ join sep ws')%string
  end.

(** The value of an ASCII decimal digit. *)
Definition digit_val (a : ascii) : option Z :=
  let n := Z.of_N (N_of_ascii a) in
  if (48 <=? n) && (n <=? 57) then Some (n - 48) else None.

Fixpoint int_from_digits (acc : Z) (s : string) : option Z :=
  match s with
  | EmptyString => Some acc
  | String a rest => d ← digit_val a; int_from_digits (10 * acc + d) rest
  end.

(** [int(s)] guarded by [s.isascii() and s.isdigit()]. *)
Definition int_of_digit_string (s : string) : option Z :=
  match s with
  | EmptyString => None
  | _ => int_from_digits 0 s
  end.

(** [n.bit_length()] for a non-negative integer. *)
Definition bit_length (n : Z) : Z := if n =? 0 then 0 else Z.log2 n + 1.

(** [str(n)] for a non-negative integer. *)
Definition str_int (n : Z) : string := pretty n.

End Py.

(** ** The part of the [ipaddress] library that [net_probe.py] calls

    [ipaddress.ip_network(cidr, strict=False)] and [.hosts()] for IPv4, with
    the library's bit-level arithmetic.  IPv6 literals, which the library
    would also accept, are out of scope here and are treated as invalid. *)

Module Ipaddress.

Definition ALL_ONES : Z := 2 ^ 32 - 1.
Definition max_prefixlen : Z := 32.

Record IPv4Network := {
  network_address : Z;
  prefixlen : Z
}.

(** [_parse_octet]: one to three ASCII digits, no leading zero, at most 255. *)
Definition parse_octet (s : string) : option Z :=
  n ← Py.int_of_digit_string s;
  if (3 <? Z.of_nat (String.length s))%Z then None
  else if negb (String.eqb s "0") && String.prefix "0" s then None
  else if (255 <? n)%Z then None
  else Some n.

(** [_ip_int_from_string]: four octets, big endian. *)
Definition ip_int_from_string (s : string) : option Z :=
  match s with
  | EmptyString => None
  | _ =>
      match Py.split_char "." s with
      | [a; b; c; d] =>
          a ← parse_octet a; b ← parse_octet b;
          c ← parse_octet c; d ← parse_octet d;
          Some (((a * 256 + b) * 256 + c) * 256 + d)
      | _ => None
      end
  end.

(** [_prefix_from_prefix_string]. *)
Definition prefix_from_prefix_string (s : string) : option Z :=
  n ← Py.int_of_digit_string s;
  if (0 <=? n) && (n <=? max_prefixlen) then Some n else None.

(** [_count_righthand_zero_bits]. *)
Definition count_righthand_zero_bits (number bits : Z) : Z :=
  if number =? 0 then bits
  else Z.min bits (Py.bit_length (Z.land (Z.lnot number) (number - 1))).

(** [_prefix_from_ip_int]: [None] is the library's [ValueError]. *)
Definition prefix_from_ip_int (ip_int : Z) : option Z :=
  let trailing_zeroes := count_righthand_zero_bits ip_int max_prefixlen in
  let prefixlen := max_prefixlen - trailing_zeroes in
  let leading_ones := Z.shiftr ip_int trailing_zeroes in
  let all_ones := Z.shiftl 1 prefixlen - 1 in
  if leading_ones =? all_ones then Some prefixlen else None.

(** [_prefix_from_ip_string]: a netmask, else a hostmask. *)
Definition prefix_from_ip_string (s : string) : option Z :=
  ip_int ← ip_int_from_string s;
  match prefix_from_ip_int ip_int with
  | Some p => Some p
  | None => prefix_from_ip_int (Z.lxor ip_int ALL_ONES)
  end.

(** [_make_netmask] on a string argument, returning the prefix length. *)
Definition make_netmask (arg : string) : option Z :=
  match prefix_from_prefix_string arg with
  | Some p => Some p
  | None => prefix_from_ip_string arg
  end.

(** [_ip_int_from_prefix]. *)
Definition ip_int_from_prefix (p : Z) : Z :=
  Z.lxor ALL_ONES (Z.shiftr ALL_ONES p).

Definition netmask (n : IPv4Network) : Z := ip_int_from_prefix (prefixlen n).
Definition hostmask (n : IPv4Network) : Z := Z.lxor (netmask n) ALL_ONES.
Definition broadcast_address (n : IPv4Network) : Z :=
  Z.lor (network_address n) (hostmask n).

(** [_split_addr_prefix] followed by the parsing of both halves: the
    address as an integer and the prefix length. *)
Definition split_addr_prefix (cidr : string) : option (Z * Z) :=
  match Py.split_char "/" cidr with
  | [a] => addr ← ip_int_from_string a; Some (addr, max_prefixlen)
  | [a; m] => addr ← ip_int_from_string a; p ← make_netmask m; Some (addr, p)
  | _ => None
  end.

(** [IPv4Network(cidr, strict=False)]: host bits are masked away. *)
Definition ip_network (cidr : string) : option IPv4Network :=
  '(addr, p) ← split_addr_prefix cidr;
  Some {| network_address := Z.land addr (ip_int_from_prefix p);
          prefixlen := p |}.

(** [IPv4Network.hosts()], with its special cases for /31 and /32. *)
Definition hosts (n : IPv4Network) : list Z :=
  if prefixlen n =? max_prefixlen - 1 then
    Py.range (network_address n) (broadcast_address n + 1)
  else if prefixlen n =? max_prefixlen then [network_address n]
  else Py.range (network_address n + 1) (broadcast_address n).

(** [str(IPv4Address(x))]. *)
Definition ip_str (x : Z) : string :=
  Py.join "." (List.map (fun k => Py.str_int (Z.land (Z.shiftr x k) 255))
                        [24; 16; 8; 0]).

End Ipaddress.


(** ** Exceptions, results and the effect monad *)

(** The exceptions the programs can meet.  [HostLimitError] is the
    [RuntimeError] of [precheck_networks], kept with the three values its
    message is formatted from.  [KeyboardInterrupt] and [SystemExit] derive
    from [BaseException] only; the others are subclasses of [Exception]. *)
Inductive exn :=
| ValueError (msg : string)
| KeyError (key : string)
| ZeroDivisionError
| HostLimitError (cidr : string) (count max_hosts : Z)
| OSError (msg : string)
| KeyboardInterrupt
| SystemExit.

(** [isinstance(e, Exception)]. *)
Definition is_Exception (e : exn) : bool :=
  match e with
  | KeyboardInterrupt | SystemExit => false
  | _ => true
  end.

Inductive result (A : Type) :=
| Ok (a : A)
| Raise (e : exn).
Arguments Ok {A} a.
Arguments Raise {A} e.

(** A computation reads the events that happened so far (what the outside
    world may react to) and returns its result together with the events it
    adds, oldest first.  An exception stops the computation; the events
    issued before it stay. *)
Section Effects.
Context {E : Type}.

Definition M (A : Type) : Type := list E -> result A * list E.

Definition ret {A} (a : A) : M A := fun _ => (Ok a, []).
Definition raise {A} (e : exn) : M A := fun _ => (Raise e, []).
Definition emit (ev : E) : M unit := fun _ => (Ok tt, [ev]).
Definition history : M (list E) := fun h => (Ok h, []).

Definition bind {A B} (m : M A) (k : A -> M B) : M B :=
  fun h =>
    match m h with
    | (Ok a, t1) => let '(r, t2) := k a (h ++ t1) in (r, t1 ++ t2)
    | (Raise e, t1) => (Raise e, t1)
    end.

Definition lift {A} (r : result A) : M A := fun _ => (r, []).

(** [for x in l: s = body x s]. *)
Fixpoint for_each {A S} (l : list A) (body : A -> S -> M S) (s : S) : M S :=
  match l with
  | [] => ret s
  | x :: l' => bind (body x s) (for_each l' body)
  end.
End Effects.
Arguments M E A : clear implicits.

(** The monad is used through stdpp's [x ← m; k] and [m;; k] notations. *)
#[global] Instance M_ret {E} : MRet (M E) := @ret E.
#[global] Instance M_bind {E} : MBind (M E) := fun A B k m => bind m k.

(** Python's insertion-ordered [dict] with integer keys: the key order is
    kept next to the finite map. *)
Module Dict.
Section Dict.
Context {V : Type}.

Record t := mk { keys : list Z; store : gmap Z V }.

Definition empty : t := {| keys := []; store := ∅ |}.

(** [d[k] = v]: a new key goes to the end, an old one keeps its place. *)
Definition setitem (k : Z) (v : V) (d : t) : t :=
  {| keys := if decide (k ∈ keys d) then keys d else keys d ++ [k];
     store := <[k := v]> (store d) |}.

(** [d[k]]: [KeyError] when the key is absent. *)
Definition getitem (k : Z) (d : t) : result V :=
  match store d !! k with
  | Some v => Ok v
  | None => Raise (KeyError (pretty k))
  end.

(** [d.items()], in insertion order. *)
Definition items (d : t) : list (Z * V) :=
  omap (fun k => (fun v => (k, v)) <$> store d !! k) (keys d).

(** [{k: f(k) for k in ks}]. *)
Definition comprehension (f : Z -> V) (ks : list Z) : t :=
  fold_left (fun d k => setitem k (f k) d) ks empty.
End Dict.
Arguments t V : clear implicits.
End Dict.

(** ** The outside world

    What the operating system answers to one [ping] subprocess run to its
    end, and to one socket connection: creating the socket may raise,
    and so may [connect]. *)
Inductive ping_outcome :=
| PingExit (returncode : Z) (elapsed_ms : Q)
| PingRaises (e : exn).

Inductive connect_outcome :=
| SocketRaises (e : exn)
| Connected (elapsed_ms : Q)
| ConnectRaises (e : exn).

(** ** [net_probe.py] *)

Module NetProbe.

(** Console lines, log lines and the observable events of a run.  The
    formatted text of a line is not modelled, only what it reports. *)
Inductive print_line :=
| PrEstimate (total_hosts nports total_tasks : Z) (est_time : Q)
| PrPingStart (cidr : string)
| PrNewline
| PrAlive (n : Z)
| PrTcpStart
| PrTcpOk (ip : string) (port : Z) (cost : Q)
| PrDone.

Inductive log_line :=
| LgPingScan (cidr : string)
| LgPing (ts ip : string) (cost : Q)
| LgEndPing (cidr : string)
| LgSummary (ts : string)
| LgAliveHosts (n : Z)
| LgPort (p success total : Z) (rate : Q).

Inductive event :=
| EvPing (ip : string) (timeout : Q)
| EvConnect (host : string) (port : Z) (timeout : Q)
| EvSleep (d : Q)
| EvProgress (current total : Z)
| EvPrint (l : print_line)
| EvWrite (file : string) (l : log_line).

(** The configuration mappings read from [config.yaml].  A key read with
    [cfg[key]] is a field; a key read with [cfg.get(key, default)] is an
    optional field. *)
Module PingCfg.
Record t := {
  networks : list string;
  timeout : Q;
  retry : Z;
  rate_limit : Q;
  threads : Z
}.
End PingCfg.

Module TcpCfg.
Record range_t := { start : option Z; end_ : option Z }.
Record t := {
  enable : bool;
  mode : option string;
  ports : option (list Z);
  port_range : option range_t;
  timeout : Q;
  retry : Z;
  rate_limit : Q
}.
End TcpCfg.

Record target_cfg := { log_dir : option string; timezone : option string }.
Record scan_cfg := { max_hosts : option Z; estimate_time : option bool }.
Record config := {
  target : target_cfg;
  ping_scan : PingCfg.t;
  tcp_scan : TcpCfg.t;
  scan : option scan_cfg
}.

(** One entry of [port_stats]. *)
Record stat := { total : Z; success : Z }.

Definition len {A} (l : list A) : Z := Z.of_nat (length l).

(** [a / b] on integers: true division, [ZeroDivisionError] on [b = 0]. *)
Definition truediv (a b : Z) : result Q :=
  if b =? 0 then Raise ZeroDivisionError else Ok (inject_Z a / inject_Z b)%Q.

(** [max(a, b)] on numbers: the first argument unless the second is larger. *)
Definition py_max (a b : Q) : Q := if Qle_bool b a then a else b.

(** [s.replace(a, b)] for one-character [a] and [b]. *)
Fixpoint replace_char (a b : ascii) (s : string) : string :=
  match s with
  | EmptyString => EmptyString
  | String c rest =>
      String (if decide (c = a) then b else c) (replace_char a b rest)
  end.

(** [ipaddress.ip_network(cidr, strict=False)] with its [ValueError], and
    [expand_network] (net_probe.py, l. 36-38). *)
Definition parse_network (cidr : string) : result Ipaddress.IPv4Network :=
  match Ipaddress.ip_network cidr with
  | Some net => Ok net
  | None => Raise (ValueError cidr)
  end.

Definition expand_network (cidr : string) : result (list string) :=
  match parse_network cidr with
  | Ok net => Ok (List.map Ipaddress.ip_str (Ipaddress.hosts net))
  | Raise e => Raise e
  end.

(** [build_port_list] (l. 157-172): the port list and the configuration as
    the call leaves it (the mapping is updated in place in ["full"] mode,
    and [main] reads it afterwards). *)
Definition build_port_list (cfg : TcpCfg.t) : result (list Z * TcpCfg.t) :=
  let mode := default "list" (TcpCfg.mode cfg) in
  if String.eqb mode "list" then Ok (default [] (TcpCfg.ports cfg), cfg)
  else if String.eqb mode "range" then
    let r := default {| TcpCfg.start := None; TcpCfg.end_ := None |}
                     (TcpCfg.port_range cfg) in
    match TcpCfg.start r, TcpCfg.end_ r with
    | None, _ => Raise (KeyError "start")
    | Some _, None => Raise (KeyError "end")
    | Some s, Some e => Ok (Py.range s (e + 1), cfg)
    end
  else if String.eqb mode "full" then
    let cfg1 := {| TcpCfg.enable := TcpCfg.enable cfg;
                   TcpCfg.mode := TcpCfg.mode cfg;
                   TcpCfg.ports := TcpCfg.ports cfg;
                   TcpCfg.port_range := TcpCfg.port_range cfg;
                   TcpCfg.timeout := TcpCfg.timeout cfg;
                   TcpCfg.retry := 0;
                   TcpCfg.rate_limit := py_max (TcpCfg.rate_limit cfg) (1 # 10) |} in
    Ok (Py.range 1 65536, cfg1)
  else Raise (ValueError mode).

Section World.
(** The outside world: the answers to probes, the clock, the order in
    which the pool's futures complete, and [os.path.join]. *)
Variable ping_reply : list event -> string -> Q -> ping_outcome.
Variable connect_reply : list event -> string -> Z -> Q -> connect_outcome.
Variable now_str : string -> list event -> string.
Variable as_completed :
  list (result (option (string * Q))) -> list (result (option (string * Q))).
Variable path_join : string -> string -> string.

Definition get_network_log (log_dir cidr : string) : string :=
  let safe := replace_char "/" "_" cidr in
  path_join log_dir ("net_" ++ safe ++ ".log")%string.

Definition now (tz : string) : M event string :=
  h ← history; ret (now_str tz h).

(** [precheck_networks] (l. 59-78). *)
Definition precheck_networks (networks : list string) (ports : list Z)
    (rate_limit : Q) (max_hosts : Z) (estimate : bool) : M event unit :=
  total_hosts ← for_each networks (fun cidr total_hosts =>
      net ← lift (parse_network cidr);
      let count := len (Ipaddress.hosts net) in
      if max_hosts <? count
      then raise (HostLimitError cidr count max_hosts)
      else ret (total_hosts + count)) 0;
  if estimate then
    let total_tasks := total_hosts * len ports in
    let est_time := (inject_Z total_tasks * rate_limit)%Q in
    emit (EvPrint (PrEstimate total_hosts (len ports) total_tasks est_time))
  else ret tt.

(** [ping_once] (l. 85-91): [Some ms] is [(True, ms)], [None] is
    [(False, None)]. *)
Definition ping_once (ip : string) (timeout : Q) : M event (option Q) :=
  h ← history;
  emit (EvPing ip timeout);;
  match ping_reply h ip timeout with
  | PingRaises e => raise e
  | PingExit rc ms => if rc =? 0 then ret (Some ms) else ret None
  end.

(** The [for _ in range(n)] loop of [ping_worker] (l. 94-100). *)
Fixpoint ping_attempts (n : nat) (ip : string) (cfg : PingCfg.t)
    : M event (option (string * Q)) :=
  match n with
  | O => ret None
  | S n' =>
      r ← ping_once ip (PingCfg.timeout cfg);
      emit (EvSleep (PingCfg.rate_limit cfg));;
      match r with
      | Some cost => ret (Some (ip, cost))
      | None => ping_attempts n' ip cfg
      end
  end.

Definition ping_worker (ip : string) (cfg : PingCfg.t)
    : M event (option (string * Q)) :=
  ping_attempts (Z.to_nat (PingCfg.retry cfg + 1)) ip cfg.

(** [ping_scan_network] (l. 103-128).  Every submitted worker runs on its own thread
    from the history at submission; the events of the workers are
    recorded worker after worker (how the threads interleave is not
    modelled), and the executor lets all of them finish even when the
    result loop is left by an exception. *)
Definition ping_scan_network (cidr : string) (cfg : PingCfg.t)
    (log_dir timezone : string) : M event (list string) :=
  hosts ← lift (expand_network cidr);
  let log_file := get_network_log log_dir cidr in
  emit (EvWrite log_file (LgPingScan cidr));;
  h0 ← history;
  let futures := List.map (fun ip => ping_worker ip cfg h0) hosts in
  for_each (concat (List.map snd futures)) (fun ev _ => emit ev) tt;;
  '(_, alive) ← for_each (as_completed (List.map fst futures))
    (fun fu '(done, alive) =>
       let done := done + 1 in
       emit (EvProgress done (len hosts));;
       res ← lift fu;
       match res with
       | Some (ip, cost) =>
           ts ← now timezone;
           emit (EvWrite log_file (LgPing ts ip cost));;
           ret (done, alive ++ [ip])
       | None => ret (done, alive)
       end) (0, []);
  emit (EvWrite log_file (LgEndPing cidr));;
  emit (EvPrint PrNewline);;
  ret alive.

(** [tcp_connect_once] (l. 135-145): the socket is created outside the
    [try]; inside it every [Exception] becomes [(False, None)]. *)
Definition tcp_connect_once (host : string) (port : Z) (timeout : Q)
    : M event (option Q) :=
  h ← history;
  emit (EvConnect host port timeout);;
  match connect_reply h host port timeout with
  | SocketRaises e => raise e
  | Connected ms => ret (Some ms)
  | ConnectRaises e => if is_Exception e then ret None else raise e
  end.

(** The [for _ in range(n)] loop of [tcp_with_retry] (l. 148-154). *)
Fixpoint tcp_attempts (n : nat) (host : string) (port : Z) (cfg : TcpCfg.t)
    : M event (option Q) :=
  match n with
  | O => ret None
  | S n' =>
      r ← tcp_connect_once host port (TcpCfg.timeout cfg);
      emit (EvSleep (TcpCfg.rate_limit cfg));;
      match r with
      | Some cost => ret (Some cost)
      | None => tcp_attempts n' host port cfg
      end
  end.

Definition tcp_with_retry (host : string) (port : Z) (cfg : TcpCfg.t)
    : M event (option Q) :=
  tcp_attempts (Z.to_nat (TcpCfg.retry cfg + 1)) host port cfg.

(** The body of the two nested loops of the TCP phase of [main]
    (l. 215-219). *)
Definition tcp_probe_pair (cfg : TcpCfg.t) (ip : string) (port : Z)
    (port_stats : Dict.t stat) : M event (Dict.t stat) :=
  s ← lift (Dict.getitem port port_stats);
  let port_stats :=
    Dict.setitem port {| total := total s + 1; success := success s |}
                 port_stats in
  r ← tcp_with_retry ip port cfg;
  match r with
  | Some cost =>
      s ← lift (Dict.getitem port port_stats);
      let port_stats :=
        Dict.setitem port {| total := total s; success := success s + 1 |}
                     port_stats in
      emit (EvPrint (PrTcpOk ip port cost));;
      ret port_stats
  | None => ret port_stats
  end.

(** The two nested loops of the TCP phase of [main] (l. 213-219). *)
Definition tcp_phase (alive_ips : list string) (ports : list Z)
    (cfg : TcpCfg.t) (port_stats : Dict.t stat) : M event (Dict.t stat) :=
  for_each alive_ips (fun ip port_stats =>
    for_each ports (tcp_probe_pair cfg ip) port_stats) port_stats.

(** One line of the summary block at the end of [main] (l. 227-228), and
    the block (l. 222-228). *)
Definition summary_line (p : Z) (s : stat) : result log_line :=
  match (if total s =? 0 then Ok 0%Q
         else match truediv (success s) (total s) with
              | Ok q => Ok (q * 100)%Q
              | Raise e => Raise e
              end) with
  | Ok rate => Ok (LgPort p (success s) (total s) rate)
  | Raise e => Raise e
  end.

Definition summarize (log_dir timezone : string) (alive_ips : list string)
    (port_stats : Dict.t stat) : M event unit :=
  let summary := path_join log_dir "summary.log" in
  ts ← now timezone;
  emit (EvWrite summary (LgSummary ts));;
  emit (EvWrite summary (LgAliveHosts (len alive_ips)));;
  for_each (Dict.items port_stats) (fun '(p, s) _ =>
    l ← lift (summary_line p s);
    emit (EvWrite summary l)) tt.

(** The ping loop of [main] over the configured networks (l. 203-206). *)
Definition ping_phase (ping_cfg : PingCfg.t) (log_dir timezone : string)
    : M event (list string) :=
  for_each (PingCfg.networks ping_cfg) (fun cidr alive_ips =>
      emit (EvPrint (PrPingStart cidr));;
      alive ← ping_scan_network cidr ping_cfg log_dir timezone;
      ret (alive_ips ++ alive)) [].

(** [main] (l. 179-230), from the loaded configuration on. *)
Definition main (cfg : config) : M event unit :=
  let log_dir := default "./logs" (log_dir (target cfg)) in
  let timezone := default "Asia/Bangkok" (timezone (target cfg)) in
  let ping_cfg := ping_scan cfg in
  let scan_cfg := default {| max_hosts := None; estimate_time := None |}
                          (scan cfg) in
  '(ports, tcp_cfg) ← lift (build_port_list (tcp_scan cfg));
  let port_stats :=
    Dict.comprehension (fun _ => {| total := 0; success := 0 |}) ports in
  precheck_networks (PingCfg.networks ping_cfg) ports
    (TcpCfg.rate_limit tcp_cfg)
    (default 1024 (max_hosts scan_cfg))
    (default true (estimate_time scan_cfg));;
  alive_ips ← ping_phase ping_cfg log_dir timezone;
  emit (EvPrint (PrAlive (len alive_ips)));;
  port_stats ←
    (if TcpCfg.enable tcp_cfg then
       emit (EvPrint PrTcpStart);;
       tcp_phase alive_ips ports tcp_cfg port_stats
     else ret port_stats);
  summarize log_dir timezone alive_ips port_stats;;
  emit (EvPrint PrDone).
End World.

End NetProbe.

(** ** What the two monitors share

    Both monitors run [while True] inside [try / except KeyboardInterrupt /
    except Exception / finally].  The loop never ends by itself, so a run
    is described by a script: what the world does in each pass of the body,
    including the point at which it makes an exception surface. *)

Module Monitor.

(** The statements of a pass at which an exception can surface: the
    statement at the point has no effect, those before it have theirs. *)
Inductive point :=
| AtCount | AtProbe | AtAppend | AtTally | AtFormat
| AtPrint | AtWrite | AtFlush | AtSleep.

#[global] Instance point_eq_dec : EqDecision point.
Proof. solve_decision. Defined.

Inductive line :=
| LnBlank
| LnStart (ts tz : string)
| LnConnectOk (ts host : string) (port : Z) (cost : Q)
| LnConnectFail (ts host : string) (port : Z) (err : string)
| LnPing (ts merged : string)
| LnError (ts : string) (e : exn)
| LnSummary
| LnTotal (n : Z)
| LnSuccess (n : Z)
| LnFail (n : Z)
| LnAvg (q : Q)
| LnMin (q : Q)
| LnMax (q : Q)
| LnEnd (ts tz : string)
| LnBanner
| LnDisabled
| LnInterrupted
| LnSaved.

Inductive event :=
| EvProbe
| EvPrint (l : line)
| EvWrite (file : string) (l : line)
| EvFlush
| EvSleep (seconds : Z).

(** The local variables of [main] that outlive a pass, and what the
    program has done so far. *)
Record state := {
  total_count : Z;
  success_count : Z;
  fail_count : Z;
  cost_list : list Q;
  out : list event
}.

Definition init : state :=
  {| total_count := 0; success_count := 0; fail_count := 0;
     cost_list := []; out := [] |}.

Definition do (ev : event) (s : state) : state :=
  {| total_count := total_count s; success_count := success_count s;
     fail_count := fail_count s; cost_list := cost_list s;
     out := out s ++ [ev] |}.

Definition incr_total (s : state) : state :=
  {| total_count := total_count s + 1; success_count := success_count s;
     fail_count := fail_count s; cost_list := cost_list s; out := out s |}.

Definition incr_success (s : state) : state :=
  {| total_count := total_count s; success_count := success_count s + 1;
     fail_count := fail_count s; cost_list := cost_list s; out := out s |}.

Definition incr_fail (s : state) : state :=
  {| total_count := total_count s; success_count := success_count s;
     fail_count := fail_count s + 1; cost_list := cost_list s; out := out s |}.

Definition append_cost (c : Q) (s : state) : state :=
  {| total_count := total_count s; success_count := success_count s;
     fail_count := fail_count s; cost_list := cost_list s ++ [c];
     out := out s |}.

(** A statement of the body: it fails without effect when the script puts
    the exception at its point. *)
Definition St (A : Type) : Type := state -> result A * state.

#[global] Instance St_ret : MRet St := fun A a s => (Ok a, s).
#[global] Instance St_bind : MBind St := fun A B k m s =>
  match m s with
  | (Ok a, s') => k a s'
  | (Raise e, s') => (Raise e, s')
  end.

Definition at_point {A} (fault : option (point * exn)) (pt : point)
    (m : St A) : St A :=
  fun s =>
    match fault with
    | Some (p, e) => if decide (p = pt) then (Raise e, s) else m s
    | None => m s
    end.

Definition update (f : state -> state) : St unit := fun s => (Ok tt, f s).
Definition lift {A} (r : result A) : St A := fun s => (r, s).

(** How a run stands when the script is used up: the loop still turns, or
    [main] has returned or let an exception out. *)
Inductive run :=
| Running (s : state)
| Exited (r : result unit) (s : state).

(** [sum(l)], [min(l)] and [max(l)] on a list of latencies. *)
Definition sum (l : list Q) : Q := fold_left Qplus l 0%Q.
Definition min_list (l : list Q) : Q :=
  match l with
  | [] => 0%Q
  | x :: l' => fold_left (fun m y => if Qle_bool m y then m else y) l' x
  end.
Definition max_list (l : list Q) : Q :=
  match l with
  | [] => 0%Q
  | x :: l' => fold_left (fun m y => if Qle_bool y m then m else y) l' x
  end.

(** The lines the [finally] block writes, in order. *)
Definition summary_lines (s : state) (ts tz : string) : list line :=
  let avg_cost := match cost_list s with
                  | [] => 0%Q
                  | _ => (sum (cost_list s)
                          / inject_Z (Z.of_nat (length (cost_list s))))%Q
                  end in
  let min_cost := match cost_list s with [] => 0%Q | _ => min_list (cost_list s) end in
  let max_cost := match cost_list s with [] => 0%Q | _ => max_list (cost_list s) end in
  [LnSummary; LnTotal (total_count s); LnSuccess (success_count s);
   LnFail (fail_count s); LnAvg avg_cost; LnMin min_cost; LnMax max_cost;
   LnEnd ts tz].

Section Frame.
Variable now_str : string -> list event -> string.
Variable log_file : string.
Variable timezone : string.

(** The two [except] clauses (tcping_monitor.py, l. 122-127;
    ping_monitor.py, l. 140-145): [Ok] when the exception is caught. *)
Definition on_exception (e : exn) (s : state) : result unit * state :=
  match e with
  | KeyboardInterrupt => (Ok tt, do (EvPrint LnInterrupted) s)
  | _ =>
      if is_Exception e
      then (Ok tt, do (EvWrite log_file (LnError (now_str timezone (out s)) e)) s)
      else (Raise e, s)
  end.

(** The [finally] block (tcping_monitor.py, l. 129-144; ping_monitor.py,
    l. 147-162). *)
Definition finally (s : state) : state :=
  let ls := summary_lines s (now_str timezone (out s)) timezone in
  do (EvPrint LnSaved) (fold_left (fun s l => do (EvWrite log_file l) s) ls s).

(** [while True: body], driven by the script. *)
Fixpoint loop {IO : Type} (body : IO -> St unit) (script : list IO)
    (s : state) : option exn * state :=
  match script with
  | [] => (None, s)
  | io :: rest =>
      match body io s with
      | (Ok _, s') => loop body rest s'
      | (Raise e, s') => (Some e, s')
      end
  end.

(** The three statements between [with open(...)] and the loop. *)
Definition open_log (s : state) : state :=
  let s := do (EvWrite log_file LnBlank) s in
  let s := do (EvWrite log_file (LnStart (now_str timezone (out s)) timezone)) s in
  do EvFlush s.

(** The [try] statement around the opening of the log and the loop. *)
Definition guarded_loop {IO : Type} (body : IO -> St unit)
    (script : list IO) (s : state) : run :=
  match loop body script (open_log s) with
  | (None, s) => Running s
  | (Some e, s) =>
      let '(r, s) := on_exception e s in
      Exited r (finally s)
  end.
End Frame.

End Monitor.

(** ** [tcping_monitor.py] *)

Module TcpingMonitor.
Import Monitor.

Record target_cfg := {
  host : option string;
  log_dir : option string;
  timezone : option string
}.
Record tcp_cfg := {
  enable : option bool;
  port : option Z;
  timeout : option Z;
  interval : option Z
}.
Record config := { target : option target_cfg; tcp : option tcp_cfg }.

(** One pass of the loop as the world drives it. *)
Record pass_io := {
  answer : connect_outcome;
  fault : option (point * exn)
}.

(** [str(e)]. *)
Definition exn_str (e : exn) : string :=
  match e with
  | ValueError m | KeyError m | OSError m => m
  | ZeroDivisionError => "division by zero"
  | HostLimitError c _ _ => c
  | KeyboardInterrupt | SystemExit => ""
  end.

(** [tcp_connect_test] (l. 31-55): [(ok, cost, err)]. *)
Definition tcp_connect_test (answer : connect_outcome)
    : result (bool * option Q * string) :=
  match answer with
  | SocketRaises e => Raise e
  | Connected elapsed => Ok (true, Some elapsed, "")
  | ConnectRaises e =>
      if is_Exception e then Ok (false, None, exn_str e) else Raise e
  end.

Section Main.
Variable now_str : string -> list event -> string.
Variable path_join : string -> string -> string.

(** The body of [while True] in [main] (l. 105-120); [ok] is [True]
    exactly when [cost] is a number. *)
Definition body (log_file tz host : string) (port interval : Z)
    (io : pass_io) : St unit :=
  let fault := fault io in
  at_point fault AtCount (update incr_total);;
  r ← at_point fault AtProbe
        (update (do EvProbe);; lift (tcp_connect_test (answer io)));
  log_line ←
    match r with
    | (true, Some cost, _) =>
        at_point fault AtTally (update incr_success);;
        at_point fault AtAppend (update (append_cost cost));;
        at_point fault AtFormat
          (fun s => (Ok (LnConnectOk (now_str tz (out s)) host port cost), s))
    | (_, _, err) =>
        at_point fault AtTally (update incr_fail);;
        at_point fault AtFormat
          (fun s => (Ok (LnConnectFail (now_str tz (out s)) host port err), s))
    end;
  at_point fault AtPrint (update (do (EvPrint log_line)));;
  at_point fault AtWrite (update (do (EvWrite log_file log_line)));;
  at_point fault AtFlush (update (do EvFlush));;
  at_point fault AtSleep (update (do (EvSleep interval))).

(** [main], from the loaded configuration on. *)
Definition main (config : config) (script : list pass_io) : run :=
  let target_cfg :=
    default {| host := None; log_dir := None; timezone := None |}
            (target config) in
  let host := host target_cfg in
  let log_dir := default "./logs" (log_dir target_cfg) in
  let timezone := default "Asia/Bangkok" (timezone target_cfg) in
  let tcp_cfg :=
    default {| enable := None; port := None; timeout := None; interval := None |}
            (tcp config) in
  if negb (default false (enable tcp_cfg))
  then Exited (Ok tt) (do (EvPrint LnDisabled) init)
  else
    let port := default 80 (port tcp_cfg) in
    let interval := default 2 (interval tcp_cfg) in
    match host with
    | None | Some EmptyString =>
        Exited (Raise (ValueError "target.host")) init
    | Some host =>
        let log_file :=
          path_join log_dir ("tcp_" ++ host ++ "_" ++ pretty port ++ ".log")%string in
        let s := do (EvPrint LnBanner) init in
        guarded_loop now_str log_file timezone
          (body log_file timezone host port interval) script s
    end.
End Main.

End TcpingMonitor.

(** ** [ping_monitor.py] *)

Module PingMonitor.
Import Monitor.

Record target_cfg := {
  host : option string;
  log_dir : option string;
  timezone : option string
}.
Record ping_cfg := { enable : option bool; interval : option Z }.
Record config := { target : option target_cfg; ping : option ping_cfg }.

(** One pass of the loop as the world drives it: the lines the [ping]
    process prints, and the exception, if any. *)
Record pass_io := {
  stdout : list string;
  fault : option (point * exn)
}.

(** [s.lower()], on the ASCII letters. *)
Definition lower_ascii (a : ascii) : ascii :=
  let n := N_of_ascii a in
  if (65 <=? n)%N && (n <=? 90)%N then ascii_of_N (n + 32) else a.

Fixpoint lower (s : string) : string :=
  match s with
  | EmptyString => EmptyString
  | String a rest => String (lower_ascii a) (lower rest)
  end.

(** [s.strip()]. *)
Definition is_space (a : ascii) : bool :=
  let n := N_of_ascii a in
  ((9 <=? n)%N && (n <=? 13)%N) || ((28 <=? n)%N && (n <=? 32)%N).

Fixpoint lstrip (s : string) : string :=
  match s with
  | EmptyString => EmptyString
  | String a rest => if is_space a then lstrip rest else s
  end.

Fixpoint rstrip (s : string) : string :=
  match s with
  | EmptyString => EmptyString
  | String a rest =>
      match rstrip rest with
      | EmptyString => if is_space a then EmptyString else String a EmptyString
      | r => String a r
      end
  end.

Definition strip (s : string) : string := rstrip (lstrip s).

(** [pat in s]. *)
Definition contains (pat s : string) : bool :=
  match String.index 0 pat s with Some _ => true | None => false end.

(** [s.split(pat)[0]] and [s.split(pat)[1]], the latter for [pat in s]. *)
Definition split_0 (pat s : string) : string :=
  match String.index 0 pat s with
  | Some i => String.substring 0 i s
  | None => s
  end.

Definition split_1 (pat s : string) : string :=
  match String.index 0 pat s with
  | Some i =>
      let k := (i + String.length pat)%nat in
      split_0 pat (String.substring k (String.length s - k) s)
  | None => EmptyString
  end.

Section Main.
(** [float(s)]: [None] is its [ValueError]. *)
Variable float : string -> option Q.
Variable now_str : string -> list event -> string.
Variable path_join : string -> string -> string.

(** [parse_rtt] (l. 30-49). *)
Definition parse_rtt (line : string) : option Q :=
  let line_l := lower line in
  if contains "time=" line_l then float (split_0 "ms" (split_1 "time=" line_l))
  else if contains "时间=" line
       then float (split_0 "ms" (split_1 "时间=" line))
       else None.

(** The [for line in proc.stdout] loop (l. 101-121):
    [(lines, rtt, failed)]. *)
Definition read_output (stdout : list string)
    : list string * option Q * bool :=
  fold_left (fun '(lines, rtt, failed) line =>
    let line := strip line in
    if String.eqb line "" then (lines, rtt, failed)
    else if String.prefix "pinging" (lower line) then (lines, rtt, failed)
    else
      let lines := lines ++ [line] in
      let failed :=
        if contains "timed out" (lower line) || contains "超时" line
        then true else failed in
      let rtt := match parse_rtt line with Some v => Some v | None => rtt end in
      (lines, rtt, failed)) stdout ([], None, false).

(** The body of [while True] in [main] (l. 92-138). *)
Definition body (log_file tz : string) (interval : Z) (io : pass_io)
    : St unit :=
  let fault := fault io in
  at_point fault AtCount (update incr_total);;
  '(lines, rtt, failed) ← at_point fault AtProbe
        (update (do EvProbe);; mret (read_output (stdout io)));
  match rtt with
  | Some v => at_point fault AtAppend (update (append_cost v))
  | None => mret tt
  end;;
  (if failed || (if rtt is None then true else false)
   then at_point fault AtTally (update incr_fail)
   else at_point fault AtTally (update incr_success));;
  match lines with
  | [] => mret tt
  | _ =>
      log_line ← at_point fault AtFormat
        (fun s => (Ok (LnPing (now_str tz (out s)) (Py.join " | " lines)), s));
      at_point fault AtPrint (update (do (EvPrint log_line)));;
      at_point fault AtWrite (update (do (EvWrite log_file log_line)))
  end;;
  at_point fault AtFlush (update (do EvFlush));;
  at_point fault AtSleep (update (do (EvSleep interval))).

(** [main], from the loaded configuration on. *)
Definition main (config : config) (script : list pass_io) : run :=
  let target_cfg :=
    default {| host := None; log_dir := None; timezone := None |}
            (target config) in
  let host := default "8.8.8.8" (host target_cfg) in
  let timezone := default "UTC" (timezone target_cfg) in
  let log_dir := default "./logs" (log_dir target_cfg) in
  let log_file := path_join log_dir ("ping_" ++ host ++ ".log")%string in
  let ping_cfg := default {| enable := None; interval := None |} (ping config) in
  if negb (default false (enable ping_cfg))
  then Exited (Ok tt) (do (EvPrint LnDisabled) init)
  else
    let interval := default 1 (interval ping_cfg) in
    let s := do (EvPrint LnBanner) init in
    guarded_loop now_str log_file timezone
      (body log_file timezone interval) script s.
End Main.

End PingMonitor.

(** * Vocabulary of the properties *)

(** ** For [net_probe.py] *)

Module NetProbeSpec.
Import Ipaddress NetProbe.

(** [k] rounds of a block of events. *)
Fixpoint rounds (k : nat) (block : list event) : list event :=
  match k with
  | O => []
  | S k' => block ++ rounds k' block
  end.

(** The number of probe attempts in a trace. *)
Definition is_attempt (ev : event) : bool :=
  match ev with
  | EvPing _ _ | EvConnect _ _ _ => true
  | _ => false
  end.

Definition attempts (t : list event) : Z := len (List.filter is_attempt t).

(** The shape of a run of a retrying prober with a budget of attempts:
    [fails j], [hits j c] and [faults j e] say what attempt number [j]
    (from 0) met; every attempt that came back is followed by the pause. *)
Inductive retry_run {A : Type} (probe pause : event) (mk : Q -> A)
    (fails : nat -> Prop) (hits : nat -> Q -> Prop)
    (faults : nat -> exn -> Prop) (budget : nat)
    : result (option A) -> list event -> Prop :=
| RunExhausted :
    (forall j, (j < budget)%nat -> fails j) ->
    retry_run probe pause mk fails hits faults budget
      (Ok None) (rounds budget [probe; pause])
| RunHit k c :
    (k < budget)%nat -> (forall j, (j < k)%nat -> fails j) -> hits k c ->
    retry_run probe pause mk fails hits faults budget
      (Ok (Some (mk c))) (rounds (S k) [probe; pause])
| RunFault k e :
    (k < budget)%nat -> (forall j, (j < k)%nat -> fails j) -> faults k e ->
    retry_run probe pause mk fails hits faults budget
      (Raise e) (rounds k [probe; pause] ++ [probe]).

(** One round of a ping worker and of the TCP retry wrapper. *)
Definition ping_block (ip : string) (cfg : PingCfg.t) : list event :=
  [EvPing ip (PingCfg.timeout cfg); EvSleep (PingCfg.rate_limit cfg)].

Definition tcp_block (host : string) (port : Z) (cfg : TcpCfg.t) : list event :=
  [EvConnect host port (TcpCfg.timeout cfg); EvSleep (TcpCfg.rate_limit cfg)].

Definition tcp_fails (o : connect_outcome) : Prop :=
  exists e, o = ConnectRaises e /\ is_Exception e = true.

Definition tcp_faults (o : connect_outcome) (e : exn) : Prop :=
  o = SocketRaises e \/ (o = ConnectRaises e /\ is_Exception e = false).

Section Answers.
Variable ping_reply : list event -> string -> Q -> ping_outcome.
Variable connect_reply : list event -> string -> Z -> Q -> connect_outcome.
Variable now_str : string -> list event -> string.

(** What attempt [j] of a prober started at history [h] met. *)
Definition ping_answer ip cfg (h : list event) (j : nat) : ping_outcome :=
  ping_reply (h ++ rounds j (ping_block ip cfg)) ip (PingCfg.timeout cfg).

Definition tcp_answer host port cfg (h : list event) (j : nat) : connect_outcome :=
  connect_reply (h ++ rounds j (tcp_block host port cfg)) host port
                (TcpCfg.timeout cfg).

(** What the result loop of the pool does with results collected without
    an exception: a progress report for each, and a log line for each
    address that answered. *)
Fixpoint collected (log_file timezone : string) (n : Z) (h : list event)
    (done : Z) (rs : list (option (string * Q))) : list event :=
  match rs with
  | [] => []
  | r :: rs' =>
      let progress := EvProgress (done + 1) n in
      let evs :=
        match r with
        | Some (ip, cost) =>
            [progress;
             EvWrite log_file
               (LgPing (now_str timezone (h ++ [progress])) ip cost)]
        | None => [progress]
        end in
      evs ++ collected log_file timezone n (h ++ evs) (done + 1) rs'
  end.

(** The body of the result loop of [ping_scan_network]. *)
Definition collect_one (log_file timezone : string) (n : Z)
    (fu : result (option (string * Q))) (st : Z * list string)
    : M event (Z * list string) :=
  let '(done, alive) := st in
  let done := done + 1 in
  emit (EvProgress done n);;
  res ← lift fu;
  match res with
  | Some (ip, cost) =>
      ts ← now now_str timezone;
      emit (EvWrite log_file (LgPing ts ip cost));;
      ret (done, alive ++ [ip])
  | None => ret (done, alive)
  end.
End Answers.

(** The addresses among the collected results, in order. *)
Definition alive_of (rs : list (option (string * Q))) : list string :=
  omap (fun r => fst <$> r) rs.

(** Adding to both counters of an entry. *)
Definition bump (a b : Z) (s : stat) : stat :=
  {| total := total s + a; success := success s + b |}.

(** The [[TCP OK]] lines printed for a port, and how often a port is
    listed in the configured ports. *)
Definition is_ok_for (p : Z) (ev : event) : bool :=
  match ev with
  | EvPrint (PrTcpOk _ q _) => q =? p
  | _ => false
  end.

Definition oks (p : Z) (t : list event) : Z := len (List.filter (is_ok_for p) t).

Definition occurrences (p : Z) (ports : list Z) : Z :=
  len (List.filter (Z.eqb p) ports).

Definition is_port (p port : Z) : Z := if p =? port then 1 else 0.

(** [port_stats] as [main] builds it before any probe. *)
Definition zeroed (ports : list Z) : Dict.t stat :=
  Dict.comprehension (fun _ => {| total := 0; success := 0 |}) ports.

(** The [port_stats] a run returned. *)
Definition stats_of (r : result (Dict.t stat) * list event) : Dict.t stat :=
  match fst r with
  | Ok d => d
  | Raise _ => Dict.empty
  end.

(** The usable-host count the check computes for a network. *)
Definition host_count (cidr : string) : option Z :=
  (fun net => len (hosts net)) <$> ip_network cidr.

(** The ceiling [main] passes to the check. *)
Definition ceiling (cfg : config) : Z :=
  default 1024
    (max_hosts (default {| max_hosts := None; estimate_time := None |} (scan cfg))).

(** What a rejection says: the error names a listed network, its count and
    the ceiling it exceeds, or it is the [ValueError] of a listed string
    that is no network. *)
Definition rejection (networks : list string) (max_hosts : Z) (e : exn) : Prop :=
  match e with
  | HostLimitError c n m =>
      c ∈ networks /\ host_count c = Some n /\ m = max_hosts /\ max_hosts < n
  | ValueError c => c ∈ networks /\ ip_network c = None
  | _ => False
  end.

(** The body of the loop of [precheck_networks], named. *)
Definition check_one (max_hosts : Z) (cidr : string) (total_hosts : Z)
    : M event Z :=
  net ← lift (parse_network cidr);
  let count := len (hosts net) in
  if max_hosts <? count
  then raise (HostLimitError cidr count max_hosts)
  else ret (total_hosts + count).

(** The percentage the summary reports for an entry. *)
Definition port_rate (s : stat) : Q :=
  if total s =? 0 then 0%Q
  else (inject_Z (success s) / inject_Z (total s) * 100)%Q.

(** The summary line of an item of [port_stats]. *)
Definition port_line (file : string) (item : Z * stat) : event :=
  EvWrite file (LgPort (fst item) (success (snd item)) (total (snd item))
                       (port_rate (snd item))).

(** The body of the loop of [summarize], named. *)
Definition write_port_line (file : string) : Z * stat -> unit -> M event unit :=
  fun '(p, s) _ => l ← lift (summary_line p s); emit (EvWrite file l).

(** An event of the TCP phase that carries a timeout or a pause carries
    the one of the configuration the phase was started with. *)
Definition uses_config (cfg : TcpCfg.t) (ev : event) : Prop :=
  match ev with
  | EvSleep d => d = TcpCfg.rate_limit cfg
  | EvConnect _ _ timeout => timeout = TcpCfg.timeout cfg
  | EvPing _ _ => False
  | _ => True
  end.

(** Concrete worlds and configurations for the examples. *)
Definition refuses : list event -> string -> Z -> Q -> connect_outcome :=
  fun _ _ _ _ => ConnectRaises (OSError "refused").

Definition second_try : list event -> string -> Z -> Q -> connect_outcome :=
  fun h _ _ _ =>
    match h with
    | [] => ConnectRaises (OSError "refused")
    | _ => Connected 3
    end.

Definition tcp_list (ports : list Z) (retry : Z) : TcpCfg.t :=
  {| TcpCfg.enable := true; TcpCfg.mode := Some "list";
     TcpCfg.ports := Some ports; TcpCfg.port_range := None;
     TcpCfg.timeout := 1; TcpCfg.retry := retry;
     TcpCfg.rate_limit := 1 # 5 |}.

Definition never_replies : list event -> string -> Q -> ping_outcome :=
  fun _ _ _ => PingExit 1 0.

(** The first host cannot be probed at all (the [ping] process cannot be
    started); every other host answers in 5 ms. *)
Definition first_host_faults : list event -> string -> Q -> ping_outcome :=
  fun _ ip _ =>
    if String.eqb ip "10.0.0.1" then PingRaises (OSError "Too many open files")
    else PingExit 0 5.

Definition frozen_clock : string -> list event -> string :=
  fun _ _ => "2024-01-01 00:00:00".

Definition in_order :
    list (result (option (string * Q))) -> list (result (option (string * Q))) :=
  fun futures => futures.

Definition slash_join : string -> string -> string :=
  fun a b => (a ++ "/" ++ b)%string.

Definition ping_once_cfg (networks : list string) (retry : Z) : PingCfg.t :=
  {| PingCfg.networks := networks; PingCfg.timeout := 1;
     PingCfg.retry := retry; PingCfg.rate_limit := 1 # 2;
     PingCfg.threads := 1 |}.

Definition small_scan (networks : list string) (max_hosts : option Z)
    (enable : bool) : config :=
  {| target := {| log_dir := None; timezone := None |};
     ping_scan := ping_once_cfg networks 0;
     tcp_scan := {| TcpCfg.enable := enable; TcpCfg.mode := Some "list";
                    TcpCfg.ports := Some [22; 80]; TcpCfg.port_range := None;
                    TcpCfg.timeout := 1; TcpCfg.retry := 0;
                    TcpCfg.rate_limit := 1 # 5 |};
     scan := Some {| max_hosts := max_hosts; estimate_time := Some false |} |}.

Definition full_sweep (rate_limit : Q) : TcpCfg.t :=
  {| TcpCfg.enable := true; TcpCfg.mode := Some "full";
     TcpCfg.ports := None; TcpCfg.port_range := None;
     TcpCfg.timeout := 1; TcpCfg.retry := 3;
     TcpCfg.rate_limit := rate_limit |}.

End NetProbeSpec.

(** ** For the two monitors *)

Module MonitorSpec.
Import Monitor.

(** The passes whose outcome has been counted. *)
Definition tallied (s : state) : Z := success_count s + fail_count s.

(** A completed pass: one more in [total_count] and one more in exactly
    one of [success_count] and [fail_count]. *)
Definition pass_counted (s s' : state) : Prop :=
  total_count s' = total_count s + 1
  /\ ((success_count s' = success_count s + 1 /\ fail_count s' = fail_count s)
      \/ (success_count s' = success_count s /\ fail_count s' = fail_count s + 1)).

(** A pass left by an exception: it stopped before the increment of
    [total_count], between that increment and the count of the outcome, or
    after both. *)
Definition pass_cut (s s' : state) : Prop :=
  (total_count s' = total_count s /\ tallied s' = tallied s)
  \/ (total_count s' = total_count s + 1 /\ tallied s' = tallied s)
  \/ (total_count s' = total_count s + 1 /\ tallied s' = tallied s + 1).

(** The counters are the same in both states. *)
Definition same_counters (s s' : state) : Prop :=
  total_count s' = total_count s /\ success_count s' = success_count s
  /\ fail_count s' = fail_count s /\ cost_list s' = cost_list s.

Definition caught (e : exn) : bool :=
  match e with
  | KeyboardInterrupt => true
  | _ => is_Exception e
  end.

(** An enabled configuration of each monitor, field by field. *)
Definition tcping_config (host : string) (log_dir timezone : option string)
    (port timeout interval : option Z) : TcpingMonitor.config :=
  {| TcpingMonitor.target :=
       Some {| TcpingMonitor.host := Some host;
               TcpingMonitor.log_dir := log_dir;
               TcpingMonitor.timezone := timezone |};
     TcpingMonitor.tcp :=
       Some {| TcpingMonitor.enable := Some true;
               TcpingMonitor.port := port;
               TcpingMonitor.timeout := timeout;
               TcpingMonitor.interval := interval |} |}.

Definition ping_config (target : option PingMonitor.target_cfg)
    (interval : option Z) : PingMonitor.config :=
  {| PingMonitor.target := target;
     PingMonitor.ping :=
       Some {| PingMonitor.enable := Some true;
               PingMonitor.interval := interval |} |}.

Definition ping_target (target : option PingMonitor.target_cfg)
    : PingMonitor.target_cfg :=
  default {| PingMonitor.host := None; PingMonitor.log_dir := None;
             PingMonitor.timezone := None |} target.

Definition ping_tz (target : option PingMonitor.target_cfg) : string :=
  default "UTC" (PingMonitor.timezone (ping_target target)).

Definition started : state := do (EvPrint LnBanner) init.

Section Frame.
Variable now_str : string -> list event -> string.
Variable log_file : string.
Variable timezone : string.

(** What the [except] clauses add to the output. *)
Definition handler_events (e : exn) (s : state) : list event :=
  match e with
  | KeyboardInterrupt => [EvPrint LnInterrupted]
  | _ =>
      if is_Exception e
      then [EvWrite log_file (LnError (now_str timezone (out s)) e)]
      else []
  end.
End Frame.

Section Mains.
Variable float : string -> option Q.
Variable now_str : string -> list event -> string.
Variable path_join : string -> string -> string.

(** The log file, the time zone and the loop body [main] works with. *)
Definition tcping_log (host : string) (log_dir : option string)
    (port : option Z) : string :=
  path_join (default "./logs" log_dir)
            ("tcp_" ++ host ++ "_" ++ pretty (default 80 port) ++ ".log")%string.

Definition tcping_body (host : string) (log_dir timezone : option string)
    (port interval : option Z) : TcpingMonitor.pass_io -> St unit :=
  TcpingMonitor.body now_str (tcping_log host log_dir port)
    (default "Asia/Bangkok" timezone) host (default 80 port)
    (default 2 interval).

Definition ping_log (target : option PingMonitor.target_cfg) : string :=
  path_join (default "./logs" (PingMonitor.log_dir (ping_target target)))
            ("ping_" ++ default "8.8.8.8" (PingMonitor.host (ping_target target))
             ++ ".log")%string.

Definition ping_body (target : option PingMonitor.target_cfg)
    (interval : option Z) : PingMonitor.pass_io -> St unit :=
  PingMonitor.body float now_str (ping_log target) (ping_tz target)
    (default 1 interval).
End Mains.

(** Concrete worlds for the examples. *)
Definition fixed_clock : string -> list event -> string :=
  fun _ _ => "2024-01-01 00:00:00".

Definition join_slash : string -> string -> string :=
  fun a b => (a ++ "/" ++ b)%string.

Definition no_float : string -> option Q := fun _ => None.

(** Ctrl+C while the second connection attempt is under way. *)
Definition interrupted_while_connecting : list TcpingMonitor.pass_io :=
  [ {| TcpingMonitor.answer := Connected 5; TcpingMonitor.fault := None |};
    {| TcpingMonitor.answer := ConnectRaises KeyboardInterrupt;
       TcpingMonitor.fault := None |} ].

End MonitorSpec.

(** * Further code of [net_probe.py], and further vocabulary *)

From Stdlib Require Import Sorted Lqa.

Module NetProbeMore.
Import Ipaddress NetProbe NetProbeSpec.

(** [c in s] for a character. *)
Fixpoint has_char (c : ascii) (s : string) : bool :=
  match s with
  | EmptyString => false
  | String a rest => if decide (a = c) then true else has_char c rest
  end.

(** The octet [o] prints as a string without a dot that parses back. *)
Definition octet_round_trip (o : Z) : bool :=
  match parse_octet (Py.str_int o) with
  | Some o' => (o' =? o) && negb (has_char "." (Py.str_int o))
  | None => false
  end.

(** The size of the block of addresses of a network of prefix length [p],
    and the first address of the block that holds address [a]. *)
Definition block_size (p : Z) : Z := 2 ^ (32 - p).
Definition block_start (a p : Z) : Z := a - a mod block_size p.

(** The sum of the usable-host counts of the configured networks. *)
Definition total_hosts (networks : list string) : Z :=
  fold_right (fun cidr acc => default 0 (host_count cidr) + acc) 0 networks.

(** A configured network the pre-flight check lets through. *)
Definition within (max_hosts : Z) (cidr : string) : Prop :=
  exists n, host_count cidr = Some n /\ n <= max_hosts.

(** What the check prints when it lets the run through. *)
Definition estimate_events (networks : list string) (ports : list Z)
    (rate_limit : Q) (estimate : bool) : list event :=
  if estimate then
    [EvPrint (PrEstimate (total_hosts networks) (len ports)
                (total_hosts networks * len ports)
                (inject_Z (total_hosts networks * len ports) * rate_limit)%Q)]
  else [].

(** The mode and the range mapping [build_port_list] reads, defaults
    applied. *)
Definition mode_of (cfg : TcpCfg.t) : string := default "list" (TcpCfg.mode cfg).
Definition range_of (cfg : TcpCfg.t) : TcpCfg.range_t :=
  default {| TcpCfg.start := None; TcpCfg.end_ := None |} (TcpCfg.port_range cfg).

(** The progress reports of a trace, and the addresses it logs as
    answering, each with the file it is written to. *)
Definition progress_of (t : list event) : list (Z * Z) :=
  omap (fun ev => match ev with
                  | EvProgress current total => Some (current, total)
                  | _ => None
                  end) t.

Definition ping_lines (t : list event) : list (string * string) :=
  omap (fun ev => match ev with
                  | EvWrite file (LgPing _ ip _) => Some (file, ip)
                  | _ => None
                  end) t.

(** The worker of an address, started at history [h0], comes back with an
    answer. *)
Definition answered (ping_reply : list event -> string -> Q -> ping_outcome)
    (cfg : PingCfg.t) (h0 : list event) (ip : string) : bool :=
  match fst (ping_worker ping_reply ip cfg h0) with
  | Ok (Some _) => true
  | _ => false
  end.

(** The reports [1/n, 2/n, ..., k/n]. *)
Definition reports (k n : Z) : list (Z * Z) :=
  List.map (fun i => (i, n)) (Py.range 1 (k + 1)).

(** [show_progress] (l. 41-46): the percentage and the bar it prints.  A
    string is the list of its code points here, the bar being made of
    U+2588 and of dashes; [s * n] is empty for [n <= 0], and [//] on
    integers is floor division. *)
Definition full_block : Z := 9608.
Definition dash : Z := 45.

Definition str_mul (c : Z) (n : Z) : list Z := repeat c (Z.to_nat n).

Definition floordiv (a b : Z) : result Z :=
  if b =? 0 then Raise ZeroDivisionError else Ok (a / b).

Definition show_progress (current total : Z) : result (list Z * Q) :=
  match truediv current total with
  | Raise e => Raise e
  | Ok q =>
      let percent := (q * 100)%Q in
      let bar_len := 30 in
      match floordiv (bar_len * current) total with
      | Raise e => Raise e
      | Ok filled =>
          Ok (str_mul full_block filled ++ str_mul dash (bar_len - filled),
              percent)
      end
  end.

(** Worlds for the examples: of the two addresses of 10.0.0.0/30 only the
    second answers; the pool hands the results back last first. *)
Definition only_second_answers : list event -> string -> Q -> ping_outcome :=
  fun _ ip _ => if String.eqb ip "10.0.0.2" then PingExit 0 5 else PingExit 1 0.

Definition last_first :
    list (result (option (string * Q))) -> list (result (option (string * Q))) :=
  fun futures => rev futures.

Definition example_scan : result (list string) * list event :=
  ping_scan_network only_second_answers frozen_clock last_first slash_join
    "10.0.0.0/30" (ping_once_cfg ["10.0.0.0/30"] 1) "./logs" "UTC" [].

(** A ["range"] configuration for the examples. *)
Definition port_sweep (s e : Z) : TcpCfg.t :=
  {| TcpCfg.enable := true; TcpCfg.mode := Some "range";
     TcpCfg.ports := None;
     TcpCfg.port_range :=
       Some {| TcpCfg.start := Some s; TcpCfg.end_ := Some e |};
     TcpCfg.timeout := 1; TcpCfg.retry := 0;
     TcpCfg.rate_limit := 1 # 5 |}.

(** The pauses of a trace. *)
Definition is_sleep (ev : event) : bool :=
  match ev with
  | EvSleep _ => true
  | _ => false
  end.

Definition sleeps (t : list event) : Z := len (List.filter is_sleep t).

(** An event of the TCP phase over the addresses [alive_ips] and the ports
    [ports]: a connection to, or a reported success of, one of the
    addresses on one of the ports, or a pause. *)
Definition on_targets (alive_ips : list string) (ports : list Z) (ev : event)
    : Prop :=
  match ev with
  | EvConnect host port _ => In host alive_ips /\ In port ports
  | EvPrint (PrTcpOk ip port _) => In ip alive_ips /\ In port ports
  | EvSleep _ => True
  | _ => False
  end.

(** A world in which a connection attempt only fails the expected way:
    the socket can be created, and [connect] raises nothing but an
    [Exception]. *)
Definition fails_normally
    (connect_reply : list event -> string -> Z -> Q -> connect_outcome) : Prop :=
  forall h host port timeout,
    match connect_reply h host port timeout with
    | SocketRaises _ => False
    | Connected _ => True
    | ConnectRaises e => is_Exception e = true
    end.

Definition example_tcp_phase : result (Dict.t stat) * list event :=
  tcp_phase second_try ["10.0.0.1"; "10.0.0.2"] [80; 443] (tcp_list [80; 443] 1)
    (zeroed [80; 443]) [].

(** The (address, port) pairs a trace connects to. *)
Definition connect_of (ev : event) : option (string * Z) :=
  match ev with
  | EvConnect host port _ => Some (host, port)
  | _ => None
  end.

Definition connects (t : list event) : list (string * Z) := omap connect_of t.

(** The addresses a trace pings. *)
Definition ping_of (ev : event) : option string :=
  match ev with
  | EvPing ip _ => Some ip
  | _ => None
  end.

Definition pings (t : list event) : list string := omap ping_of t.

(** The body of the ping loop of [main], named. *)
Definition scan_one (ping_reply : list event -> string -> Q -> ping_outcome)
    (now_str : string -> list event -> string)
    (as_completed :
       list (result (option (string * Q))) -> list (result (option (string * Q))))
    (path_join : string -> string -> string)
    (ping_cfg : PingCfg.t) (log_dir timezone : string)
    : string -> list string -> M event (list string) :=
  fun cidr alive_ips =>
    emit (EvPrint (PrPingStart cidr));;
    alive ← ping_scan_network ping_reply now_str as_completed path_join
              cidr ping_cfg log_dir timezone;
    ret (alive_ips ++ alive).

(** The distinct ports of a list, in the order in which they are first
    listed. *)
Fixpoint first_listed (ports : list Z) : list Z :=
  match ports with
  | [] => []
  | p :: ports' => p :: base.filter (fun q => q <> p) (first_listed ports')
  end.

(** The entry of a port after a completed TCP phase over [alive_ips] and
    [ports] with trace [t]. *)
Definition final_stat (alive_ips : list string) (ports : list Z)
    (t : list event) (p : Z) : stat :=
  {| total := len alive_ips * occurrences p ports; success := oks p t |}.

(** A dictionary whose stored keys all have their place in the key
    order. *)
Definition keys_cover {V} (d : Dict.t V) : Prop :=
  forall k, is_Some (Dict.store d !! k) -> k ∈ Dict.keys d.

Definition example_main : result unit * list event :=
  main only_second_answers refuses frozen_clock in_order slash_join
    (small_scan ["10.0.0.0/30"] None true) [].

(** The number of pings a trace sends to an address. *)
Definition pings_to (ip : string) (ev : event) : bool :=
  match ev with
  | EvPing ip' _ => String.eqb ip' ip
  | _ => false
  end.

Definition ping_count (ip : string) (t : list event) : Z :=
  len (List.filter (pings_to ip) t).

End NetProbeMore.

(** * Further vocabulary for the two monitors *)

Module MonitorMore.
Import Monitor MonitorSpec.

(** A pass of the TCP monitor that nothing disturbs: no exception surfaces
    in the body, the socket can be created, and [connect] succeeds or
    raises an [Exception]. *)
Definition calm (io : TcpingMonitor.pass_io) : Prop :=
  TcpingMonitor.fault io = None
  /\ match TcpingMonitor.answer io with
     | SocketRaises _ => False
     | Connected _ => True
     | ConnectRaises e => is_Exception e = true
     end.

(** The latency of a pass that connected, and those of a script. *)
Definition latency (io : TcpingMonitor.pass_io) : option Q :=
  match TcpingMonitor.answer io with
  | Connected elapsed => Some elapsed
  | _ => None
  end.

Definition latencies (script : list TcpingMonitor.pass_io) : list Q :=
  omap latency script.

(** The number of entries of a list, as an integer. *)
Definition count {A} (l : list A) : Z := Z.of_nat (length l).

(** The statistics the summary reports. *)
Definition reported (s : state) (ts tz : string) (avg mn mx : Q) : Prop :=
  summary_lines s ts tz
  = [LnSummary; LnTotal (total_count s); LnSuccess (success_count s);
     LnFail (fail_count s); LnAvg avg; LnMin mn; LnMax mx; LnEnd ts tz].

(** The lines of the output of [ping] the monitor keeps, and the ones
    that report a timeout. *)
Definition kept_line (line : string) : bool :=
  negb (String.eqb line "")
  && negb (String.prefix "pinging" (PingMonitor.lower line)).

Definition kept (stdout : list string) : list string :=
  List.filter kept_line (List.map PingMonitor.strip stdout).

Definition timed_out (line : string) : bool :=
  PingMonitor.contains "timed out" (PingMonitor.lower line)
  || PingMonitor.contains "超时" line.

(** One step of the loop over the output of [ping], named. *)
Definition read_line (float : string -> option Q)
    : list string * option Q * bool -> string -> list string * option Q * bool :=
  fun '(lines, rtt, failed) line =>
    let line := PingMonitor.strip line in
    if String.eqb line "" then (lines, rtt, failed)
    else if String.prefix "pinging" (PingMonitor.lower line)
         then (lines, rtt, failed)
    else
      let lines := lines ++ [line] in
      let failed := if timed_out line then true else failed in
      let rtt := match PingMonitor.parse_rtt float line with
                 | Some v => Some v
                 | None => rtt
                 end in
      (lines, rtt, failed).

(** What a pass of the ping monitor logs. *)
Definition ping_log_events (now_str : string -> list event -> string)
    (log_file tz : string) (o : list event) (lines : list string)
    : list event :=
  match lines with
  | [] => []
  | _ => [EvPrint (LnPing (now_str tz o) (Py.join " | " lines));
          EvWrite log_file (LnPing (now_str tz o) (Py.join " | " lines))]
  end.

(** Example scripts. *)
Definition refused_then_connected : list TcpingMonitor.pass_io :=
  [ {| TcpingMonitor.answer := ConnectRaises (OSError "refused");
       TcpingMonitor.fault := None |};
    {| TcpingMonitor.answer := Connected 5; TcpingMonitor.fault := None |} ].

Definition exit_while_sleeping : list TcpingMonitor.pass_io :=
  [ {| TcpingMonitor.answer := Connected 5;
       TcpingMonitor.fault := Some (AtSleep, SystemExit) |} ].

(** The last round-trip time that can be read off the kept lines. *)
Definition last_rtt (float : string -> option Q) (lines : list string)
    : option Q :=
  list.last (omap (PingMonitor.parse_rtt float) lines).

(** A pass of the ping monitor counts as a success. *)
Definition ping_ok (float : string -> option Q) (lines : list string) : bool :=
  negb (existsb timed_out lines)
  && (if last_rtt float lines is Some _ then true else false).

(** A float parser and two outputs of [ping] for the examples: a reply,
    and a reply after a timeout report. *)
Definition float_12 : string -> option Q :=
  fun s => if String.eqb s "12" then Some 12%Q else None.

Definition reply_output : list string :=
  ["Pinging 8.8.8.8 with 32 bytes of data:"; "";
   "  Reply from 8.8.8.8: bytes=32 time=12ms TTL=117  "].

Definition mixed_output : list string :=
  ["Request timed out."; "Reply from 8.8.8.8: bytes=32 TIME=12ms TTL=117"].

(** The state a run has reached, and an event that, if it writes, writes
    to [file]. *)
Definition final (r : run) : state :=
  match r with
  | Running s | Exited _ s => s
  end.

Definition writes_to (file : string) (ev : event) : Prop :=
  match ev with
  | EvWrite f _ => f = file
  | _ => True
  end.

(** The output of a monitor up to its loop. *)
Definition prologue (now_str : string -> list event -> string)
    (log_file tz : string) : list event :=
  [EvPrint LnBanner; EvWrite log_file LnBlank;
   EvWrite log_file
     (LnStart (now_str tz [EvPrint LnBanner; EvWrite log_file LnBlank]) tz);
   EvFlush].

(** [s'] has put out what [s] had, and then events that write to [file]
    only. *)
Definition extends (file : string) (s s' : state) : Prop :=
  exists t, out s' = out s ++ t /\ Forall (writes_to file) t.

End MonitorMore.

(** * Properties *)

(** ** Facts about the [ipaddress] model: masks as arithmetic *)

Module IpaddressFacts.
Import Ipaddress.

Lemma ones32 : ALL_ONES = Z.ones 32.
Proof. reflexivity. Qed.

Lemma shiftr_all_ones p : 0 <= p <= 32 -> Z.shiftr ALL_ONES p = Z.ones (32 - p).
Proof.
  intros Hp. rewrite ones32, Z.shiftr_div_pow2 by lia.
  apply Z.ones_div_pow2. lia.
Qed.

Lemma testbit_small a k : 0 <= a < 2 ^ 32 -> 32 <= k -> Z.testbit a k = false.
Proof.
  intros Ha Hk. destruct (Z.eq_dec a 0) as [->|Hne]; [apply Z.testbit_0_l|].
  apply Z.bits_above_log2; [lia|].
  assert (Z.log2 a < 32) by (apply Z.log2_lt_pow2; lia). lia.
Qed.

Lemma land_netmask a p :
  0 <= a < 2 ^ 32 -> 0 <= p <= 32 ->
  Z.land a (ip_int_from_prefix p) = a - a mod 2 ^ (32 - p).
Proof.
  intros Ha Hp. unfold ip_int_from_prefix.
  rewrite shiftr_all_ones, ones32 by lia.
  assert (Hdm : a - a mod 2 ^ (32 - p) = Z.shiftl (Z.shiftr a (32 - p)) (32 - p)).
  { rewrite Z.shiftl_mul_pow2, Z.shiftr_div_pow2 by lia.
    pose proof (Z.div_mod a (2 ^ (32 - p))) as H.
    assert (2 ^ (32 - p) <> 0) by (apply Z.pow_nonzero; lia). lia. }
  rewrite Hdm. apply Z.bits_inj'. intros k Hk.
  rewrite Z.land_spec, Z.lxor_spec, !Z.testbit_ones_nonneg by lia.
  destruct (Z.ltb_spec k (32 - p)).
  - rewrite Z.shiftl_spec_low by lia.
    replace (k <? 32) with true by (symmetry; apply Z.ltb_lt; lia).
    simpl. apply andb_false_r.
  - rewrite Z.shiftl_spec by lia. rewrite Z.shiftr_spec by lia.
    replace (k - (32 - p) + (32 - p)) with k by lia.
    destruct (Z.ltb_spec k 32); simpl.
    + apply andb_true_r.
    + rewrite testbit_small by lia. reflexivity.
Qed.

Lemma hostmask_ones p :
  0 <= p <= 32 -> Z.lxor (ip_int_from_prefix p) ALL_ONES = Z.ones (32 - p).
Proof.
  intros Hp. unfold ip_int_from_prefix.
  rewrite (Z.lxor_comm ALL_ONES (Z.shiftr ALL_ONES p)).
  rewrite Z.lxor_assoc, Z.lxor_nilpotent, Z.lxor_0_r.
  apply shiftr_all_ones; lia.
Qed.

Lemma broadcast_of_aligned net p :
  0 <= p <= 32 -> 0 <= net -> net mod 2 ^ (32 - p) = 0 ->
  Z.lor net (Z.lxor (ip_int_from_prefix p) ALL_ONES) = net + 2 ^ (32 - p) - 1.
Proof.
  intros Hp Hn Hal. rewrite hostmask_ones by lia.
  assert (Hd : Z.land net (Z.ones (32 - p)) = 0).
  { rewrite Z.land_ones by lia. exact Hal. }
  rewrite <- Z.lxor_lor by exact Hd.
  rewrite <- Z.add_nocarry_lxor by exact Hd.
  rewrite Z.ones_equiv. lia.
Qed.

Lemma range_length a b : length (Py.range a b) = Z.to_nat (b - a).
Proof. unfold Py.range. now rewrite length_map, length_seq. Qed.

Lemma range_In a b x : In x (Py.range a b) <-> a <= x < b.
Proof.
  unfold Py.range. rewrite in_map_iff. split.
  - intros (i & <- & Hi). apply in_seq in Hi. lia.
  - intros Hx. exists (Z.to_nat (x - a)). split; [lia|].
    apply in_seq. lia.
Qed.

Lemma range_cons a b : a < b -> Py.range a b = a :: Py.range (a + 1) b.
Proof.
  intros Hab. unfold Py.range.
  replace (Z.to_nat (b - a)) with (S (Z.to_nat (b - (a + 1)))) by lia.
  cbn [seq List.map]. f_equal; [lia|].
  rewrite <- seq_shift, map_map. apply map_ext. intros; lia.
Qed.

Lemma range_nil a b : b <= a -> Py.range a b = [].
Proof. intros H. unfold Py.range. now replace (Z.to_nat (b - a)) with O by lia. Qed.

Lemma digit_val_bounds a d : Py.digit_val a = Some d -> 0 <= d <= 9.
Proof.
  unfold Py.digit_val. intros H.
  destruct (_ && _) eqn:Hb; [|discriminate]. injection H as <-.
  apply andb_true_iff in Hb as [H1 H2]. lia.
Qed.

Lemma int_from_digits_nonneg s : forall acc n,
  0 <= acc -> Py.int_from_digits acc s = Some n -> 0 <= n.
Proof.
  induction s as [|a s IH]; intros acc n Hacc H; simpl in H.
  - injection H as <-. exact Hacc.
  - destruct (Py.digit_val a) as [d|] eqn:Hd; [|discriminate]. simpl in H.
    apply digit_val_bounds in Hd. apply (IH (10 * acc + d)); [lia|exact H].
Qed.

Lemma int_of_digit_string_nonneg s n :
  Py.int_of_digit_string s = Some n -> 0 <= n.
Proof.
  destruct s; [discriminate|]. unfold Py.int_of_digit_string.
  apply int_from_digits_nonneg. lia.
Qed.

Lemma parse_octet_bounds s n : parse_octet s = Some n -> 0 <= n <= 255.
Proof.
  unfold parse_octet. intros H.
  destruct (Py.int_of_digit_string s) as [m|] eqn:Hm; [|discriminate].
  simpl in H. apply int_of_digit_string_nonneg in Hm.
  repeat match type of H with
         | (if ?c then _ else _) = _ => destruct c eqn:?; [discriminate|]
         end.
  injection H as <-. lia.
Qed.

Lemma ip_int_from_string_bounds s a :
  ip_int_from_string s = Some a -> 0 <= a < 2 ^ 32.
Proof.
  unfold ip_int_from_string. intros H. destruct s; [discriminate|].
  destruct (Py.split_char _ _) as [|o1 [|o2 [|o3 [|o4 [|? ?]]]]]; try discriminate.
  destruct (parse_octet o1) as [a1|] eqn:H1; [|discriminate].
  destruct (parse_octet o2) as [a2|] eqn:H2; [|discriminate].
  destruct (parse_octet o3) as [a3|] eqn:H3; [|discriminate].
  destruct (parse_octet o4) as [a4|] eqn:H4; [|discriminate].
  simpl in H. injection H as <-.
  apply parse_octet_bounds in H1, H2, H3, H4.
  change (2 ^ 32) with 4294967296. lia.
Qed.

Lemma prefix_from_ip_int_bounds x p :
  prefix_from_ip_int x = Some p -> 0 <= p <= 32.
Proof.
  unfold prefix_from_ip_int, count_righthand_zero_bits, max_prefixlen.
  intros H. destruct (_ =? _) eqn:E in H; [|discriminate]. injection H as <-.
  destruct (x =? 0); [lia|].
  assert (0 <= Py.bit_length (Z.land (Z.lnot x) (x - 1))).
  { unfold Py.bit_length. destruct (_ =? 0); [lia|].
    pose proof (Z.log2_nonneg (Z.land (Z.lnot x) (x - 1))). lia. }
  lia.
Qed.

Lemma make_netmask_bounds s p : make_netmask s = Some p -> 0 <= p <= 32.
Proof.
  unfold make_netmask, prefix_from_prefix_string, prefix_from_ip_string.
  intros H.
  destruct (Py.int_of_digit_string s) as [n|] eqn:Hn; simpl in H.
  - destruct ((0 <=? n) && (n <=? max_prefixlen)) eqn:Hb.
    + injection H as <-. apply andb_true_iff in Hb as [H1 H2].
      unfold max_prefixlen in *. lia.
    + destruct (ip_int_from_string s); [|discriminate]. simpl in H.
      destruct (prefix_from_ip_int z) eqn:E1.
      * injection H as <-. eapply prefix_from_ip_int_bounds; eauto.
      * eapply prefix_from_ip_int_bounds; eauto.
  - destruct (ip_int_from_string s); [|discriminate]. simpl in H.
    destruct (prefix_from_ip_int z) eqn:E1.
    + injection H as <-. eapply prefix_from_ip_int_bounds; eauto.
    + eapply prefix_from_ip_int_bounds; eauto.
Qed.

Lemma split_addr_prefix_bounds cidr a p :
  split_addr_prefix cidr = Some (a, p) -> 0 <= a < 2 ^ 32 /\ 0 <= p <= 32.
Proof.
  unfold split_addr_prefix. intros H.
  destruct (Py.split_char _ _) as [|s1 [|s2 [|? ?]]]; try discriminate.
  - destruct (ip_int_from_string s1) as [x|] eqn:Hx; [|discriminate].
    simpl in H. injection H as <- <-.
    apply ip_int_from_string_bounds in Hx. unfold max_prefixlen. lia.
  - destruct (ip_int_from_string s1) as [x|] eqn:Hx; [|discriminate].
    simpl in H. destruct (make_netmask s2) as [q|] eqn:Hq; [|discriminate].
    simpl in H. injection H as <- <-.
    apply ip_int_from_string_bounds in Hx. apply make_netmask_bounds in Hq.
    lia.
Qed.

Lemma hosts_of_network a p :
  0 <= a < 2 ^ 32 -> 0 <= p <= 32 ->
  let size := 2 ^ (32 - p) in
  let net := a - a mod size in
  hosts {| network_address := Z.land a (ip_int_from_prefix p); prefixlen := p |}
  = if p <=? 30 then Py.range (net + 1) (net + size - 1)
    else if p =? 31 then [net; net + 1] else [a].
Proof.
  intros Ha Hp size net. unfold hosts, broadcast_address, hostmask, netmask.
  cbn [network_address prefixlen]. rewrite land_netmask by lia.
  fold size. fold net.
  assert (Hsz : 0 < size) by (apply Z.pow_pos_nonneg; lia).
  assert (Hnet : 0 <= net /\ net mod size = 0).
  { unfold net. pose proof (Z.mod_pos_bound a size Hsz).
    pose proof (Z.mod_le a size ltac:(lia) Hsz).
    split; [lia|]. rewrite Zminus_mod, Zmod_mod, Z.sub_diag. apply Zmod_0_l. }
  destruct Hnet as [Hn0 Hnal].
  rewrite broadcast_of_aligned by (fold size; lia || assumption). fold size.
  unfold max_prefixlen.
  destruct (Z.eqb_spec p (32 - 1)) as [->|H31].
  - simpl (31 <=? 30). simpl (31 =? 31). subst size. simpl (2 ^ (32 - 31)) in *.
    rewrite range_cons by lia. rewrite range_cons by lia.
    rewrite range_nil by lia. reflexivity.
  - destruct (Z.eqb_spec p 32) as [->|H32].
    + simpl (32 <=? 30). simpl (32 =? 31).
      subst net size. simpl (2 ^ (32 - 32)). rewrite Z.mod_1_r. f_equal. lia.
    + replace (p <=? 30) with true by (symmetry; apply Z.leb_le; lia).
      reflexivity.
Qed.

End IpaddressFacts.

(** ** Properties of [net_probe.py] *)

Module NetProbeProofs.
Import Ipaddress IpaddressFacts NetProbe NetProbeSpec.

Lemma rounds_snoc k (b : list event) : rounds (S k) b = rounds k b ++ b.
Proof.
  induction k as [|k IH].
  - simpl. now rewrite app_nil_r.
  - change (rounds (S (S k)) b) with (b ++ rounds (S k) b).
    rewrite IH at 1. cbn [rounds]. now rewrite app_assoc.
Qed.

Lemma attempts_app t1 t2 : attempts (t1 ++ t2) = attempts t1 + attempts t2.
Proof. unfold attempts, len. rewrite List.filter_app, length_app. lia. Qed.

Lemma attempts_rounds k probe pause :
  is_attempt probe = true -> is_attempt pause = false ->
  attempts (rounds k [probe; pause]) = Z.of_nat k.
Proof.
  intros Hp Hs. induction k as [|k IH]; [reflexivity|].
  cbn [rounds]. rewrite attempts_app, IH. unfold attempts, len. simpl.
  rewrite Hp, Hs. simpl. lia.
Qed.

Lemma retry_run_attempts {A} probe pause (mk : Q -> A) fails hits faults
    budget r t :
  is_attempt probe = true -> is_attempt pause = false ->
  retry_run probe pause mk fails hits faults budget r t ->
  attempts t <= Z.of_nat budget.
Proof.
  intros Hp Hs [Hall | k c Hk _ _ | k e Hk _ _].
  - rewrite attempts_rounds by assumption. lia.
  - rewrite attempts_rounds by assumption. lia.
  - rewrite attempts_app, attempts_rounds by assumption.
    unfold attempts, len. simpl. rewrite Hp. simpl. lia.
Qed.

(** Shifting the attempt numbers by one, to pass from the tail of a run
    to the whole of it. *)
Lemma retry_run_step {A} probe pause (mk : Q -> A) fails hits faults
    fails' hits' faults' budget r t :
  fails O ->
  (forall j, fails' j -> fails (S j)) ->
  (forall j c, hits' j c -> hits (S j) c) ->
  (forall j e, faults' j e -> faults (S j) e) ->
  retry_run probe pause mk fails' hits' faults' budget r t ->
  retry_run probe pause mk fails hits faults (S budget) r
            ([probe; pause] ++ t).
Proof.
  intros H0 Hfs Hhs Hxs [Hall | k c Hk Hf Hh | k e Hk Hf Hh].
  - apply (RunExhausted probe pause mk fails hits faults (S budget)).
    intros [|j] Hj; [exact H0 | apply Hfs, Hall; lia].
  - apply (RunHit probe pause mk fails hits faults (S budget) (S k) c);
      [lia | | apply Hhs, Hh].
    intros [|j] Hj; [exact H0 | apply Hfs, Hf; lia].
  - rewrite app_assoc.
    apply (RunFault probe pause mk fails hits faults (S budget) (S k) e);
      [lia | | apply Hxs, Hh].
    intros [|j] Hj; [exact H0 | apply Hfs, Hf; lia].
Qed.

Ltac run_monad :=
  unfold mbind, M_bind, bind, history, emit, raise, lift, mret, M_ret, ret.

Section Retry.
Variable ping_reply : list event -> string -> Q -> ping_outcome.
Variable connect_reply : list event -> string -> Z -> Q -> connect_outcome.

Local Abbreviation ping_answer := (NetProbeSpec.ping_answer ping_reply).
Local Abbreviation tcp_answer := (NetProbeSpec.tcp_answer connect_reply).

Lemma ping_answer_shift ip cfg h j :
  ping_answer ip cfg (h ++ ping_block ip cfg) j = ping_answer ip cfg h (S j).
Proof. unfold NetProbeSpec.ping_answer. cbn [rounds]. now rewrite <- app_assoc. Qed.

Lemma tcp_answer_shift host port cfg h j :
  tcp_answer host port cfg (h ++ tcp_block host port cfg) j
  = tcp_answer host port cfg h (S j).
Proof. unfold NetProbeSpec.tcp_answer. cbn [rounds]. now rewrite <- app_assoc. Qed.

Lemma ping_answer_0 ip cfg h :
  ping_answer ip cfg h O = ping_reply h ip (PingCfg.timeout cfg).
Proof. unfold NetProbeSpec.ping_answer. cbn. now rewrite app_nil_r. Qed.

Lemma tcp_answer_0 host port cfg h :
  tcp_answer host port cfg h O
  = connect_reply h host port (TcpCfg.timeout cfg).
Proof. unfold NetProbeSpec.tcp_answer. cbn. now rewrite app_nil_r. Qed.

Lemma ping_attempts_run ip cfg n : forall h,
  retry_run (EvPing ip (PingCfg.timeout cfg)) (EvSleep (PingCfg.rate_limit cfg))
    (pair ip)
    (fun j => exists rc ms, ping_answer ip cfg h j = PingExit rc ms /\ rc <> 0)
    (fun j c => ping_answer ip cfg h j = PingExit 0 c)
    (fun j e => ping_answer ip cfg h j = PingRaises e)
    n
    (fst (ping_attempts ping_reply n ip cfg h))
    (snd (ping_attempts ping_reply n ip cfg h)).
Proof.
  induction n as [|n IH]; intros h.
  - apply RunExhausted. intros j Hj; lia.
  - cbn [ping_attempts]. unfold ping_once. run_monad.
    cbn -[ping_attempts rounds]. rewrite app_nil_r.
    pose proof (ping_answer_0 ip cfg h) as H0.
    destruct (ping_reply h ip (PingCfg.timeout cfg)) as [rc ms|e] eqn:Hr.
    + destruct (Z.eqb_spec rc 0) as [->|Hrc]; cbn -[ping_attempts rounds].
      * apply (RunHit _ _ _ _ _ _ _ O ms); [lia | intros j Hj; lia | exact H0].
      * specialize (IH (h ++ ping_block ip cfg)).
        rewrite <- app_assoc. cbn [app].
        change (h ++ [EvPing ip (PingCfg.timeout cfg);
                      EvSleep (PingCfg.rate_limit cfg)])
          with (h ++ ping_block ip cfg).
        destruct (ping_attempts ping_reply n ip cfg _) as [r t].
        cbn [fst snd] in *.
        eapply (retry_run_step _ _ _ _ _ _ _ _ _ _ _ _ _ _ _ _ IH).
    + cbn -[rounds].
      apply (RunFault _ _ _ _ _ _ _ O e); [lia | intros j Hj; lia | exact H0].
      Unshelve.
      * cbn beta. eauto.
      * cbn beta. intros j (rc' & ms' & Hj & Hne). exists rc', ms'.
        now rewrite <- ping_answer_shift.
      * cbn beta. intros j c Hj. now rewrite <- ping_answer_shift.
      * cbn beta. intros j e Hj. now rewrite <- ping_answer_shift.
Qed.

Lemma tcp_attempts_run host port cfg n : forall h,
  retry_run (EvConnect host port (TcpCfg.timeout cfg))
    (EvSleep (TcpCfg.rate_limit cfg)) (fun c => c)
    (fun j => tcp_fails (tcp_answer host port cfg h j))
    (fun j c => tcp_answer host port cfg h j = Connected c)
    (fun j e => tcp_faults (tcp_answer host port cfg h j) e)
    n
    (fst (tcp_attempts connect_reply n host port cfg h))
    (snd (tcp_attempts connect_reply n host port cfg h)).
Proof.
  induction n as [|n IH]; intros h.
  - apply RunExhausted. intros j Hj; lia.
  - cbn [tcp_attempts]. unfold tcp_connect_once. run_monad.
    cbn -[tcp_attempts rounds]. rewrite app_nil_r.
    pose proof (tcp_answer_0 host port cfg h) as H0.
    destruct (connect_reply h host port (TcpCfg.timeout cfg))
      as [e|ms|e] eqn:Hr.
    + cbn -[rounds].
      apply (RunFault _ _ _ _ _ _ _ O e); [lia | intros j Hj; lia |].
      left. exact H0.
    + cbn -[tcp_attempts rounds].
      apply (RunHit _ _ (fun c => c) _ _ _ _ O ms);
        [lia | intros j Hj; lia | exact H0].
    + destruct (is_Exception e) eqn:He; cbn -[tcp_attempts rounds].
      * specialize (IH (h ++ tcp_block host port cfg)).
        rewrite <- app_assoc. cbn [app].
        change (h ++ [EvConnect host port (TcpCfg.timeout cfg);
                      EvSleep (TcpCfg.rate_limit cfg)])
          with (h ++ tcp_block host port cfg).
        destruct (tcp_attempts connect_reply n host port cfg _) as [r t].
        cbn [fst snd] in *.
        eapply (retry_run_step _ _ _ _ _ _ _ _ _ _ _ _ _ _ _ _ IH).
      * apply (RunFault _ _ _ _ _ _ _ O e); [lia | intros j Hj; lia |].
        right. split; [exact H0 | exact He].
        Unshelve.
        -- cbn beta. exists e. split; [exact H0 | exact He].
        -- cbn beta. intros j Hj. now rewrite <- tcp_answer_shift.
        -- cbn beta. intros j c Hj. now rewrite <- tcp_answer_shift.
        -- cbn beta. intros j e' Hj. now rewrite <- tcp_answer_shift.
Qed.

(** C2: with [retry = r >= 0] the ping worker and the TCP retry wrapper
    make at most [r + 1] attempts, stop at the first success, and sleep
    [rate_limit] after every attempt that came back, the successful and
    the last one included. *)
Theorem retrying_prober_bounded_and_paced
    (ip host : string) (port : Z) (pcfg : PingCfg.t) (tcfg : TcpCfg.t)
    (h : list event)
    (Hp : 0 <= PingCfg.retry pcfg) (Ht : 0 <= TcpCfg.retry tcfg) :
  (let run := ping_worker ping_reply ip pcfg h in
   retry_run (EvPing ip (PingCfg.timeout pcfg))
     (EvSleep (PingCfg.rate_limit pcfg)) (pair ip)
     (fun j => exists rc ms,
                 ping_answer ip pcfg h j = PingExit rc ms /\ rc <> 0)
     (fun j c => ping_answer ip pcfg h j = PingExit 0 c)
     (fun j e => ping_answer ip pcfg h j = PingRaises e)
     (Z.to_nat (PingCfg.retry pcfg + 1)) (fst run) (snd run)
   /\ attempts (snd run) <= PingCfg.retry pcfg + 1)
  /\
  (let run := tcp_with_retry connect_reply host port tcfg h in
   retry_run (EvConnect host port (TcpCfg.timeout tcfg))
     (EvSleep (TcpCfg.rate_limit tcfg)) (fun c => c)
     (fun j => tcp_fails (tcp_answer host port tcfg h j))
     (fun j c => tcp_answer host port tcfg h j = Connected c)
     (fun j e => tcp_faults (tcp_answer host port tcfg h j) e)
     (Z.to_nat (TcpCfg.retry tcfg + 1)) (fst run) (snd run)
   /\ attempts (snd run) <= TcpCfg.retry tcfg + 1).
Proof.
  split; cbn zeta.
  - pose proof (ping_attempts_run ip pcfg (Z.to_nat (PingCfg.retry pcfg + 1)) h)
      as Hrun.
    split; [exact Hrun|].
    apply retry_run_attempts in Hrun; [|reflexivity..].
    unfold ping_worker. lia.
  - pose proof (tcp_attempts_run host port tcfg
                  (Z.to_nat (TcpCfg.retry tcfg + 1)) h) as Hrun.
    split; [exact Hrun|].
    apply retry_run_attempts in Hrun; [|reflexivity..].
    unfold tcp_with_retry. lia.
Qed.
End Retry.

(** *** The TCP phase and [port_stats] *)

Lemma oks_app p t1 t2 : oks p (t1 ++ t2) = oks p t1 + oks p t2.
Proof. unfold oks, len. rewrite List.filter_app, length_app. lia. Qed.

Lemma oks_nonneg p t : 0 <= oks p t.
Proof. unfold oks, len. lia. Qed.

Lemma bump_bump a b a' b' s : bump a b (bump a' b' s) = bump (a' + a) (b' + b) s.
Proof. unfold bump. cbn. f_equal; lia. Qed.

Lemma bump_0 s : bump 0 0 s = s.
Proof. destruct s. unfold bump. cbn. f_equal; lia. Qed.

Lemma oks_rounds p k probe pause :
  is_ok_for p probe = false -> is_ok_for p pause = false ->
  oks p (rounds k [probe; pause]) = 0.
Proof.
  intros Hp Hs. induction k as [|k IH]; [reflexivity|].
  cbn [rounds]. rewrite oks_app, IH. unfold oks, len. cbn.
  now rewrite Hp, Hs.
Qed.

Lemma retry_run_oks {A} p probe pause (mk : Q -> A) fails hits faults
    budget r t :
  is_ok_for p probe = false -> is_ok_for p pause = false ->
  retry_run probe pause mk fails hits faults budget r t -> oks p t = 0.
Proof.
  intros Hp Hs [Hall | k c Hk _ _ | k e Hk _ _].
  - now apply oks_rounds.
  - now apply oks_rounds.
  - rewrite oks_app, oks_rounds by assumption. unfold oks, len. cbn.
    now rewrite Hp.
Qed.

(** Writing an entry twice is writing it once. *)
Lemma setitem_setitem {V} k (v1 v2 : V) d :
  Dict.setitem k v2 (Dict.setitem k v1 d) = Dict.setitem k v2 d.
Proof.
  unfold Dict.setitem. cbn. f_equal.
  - destruct (decide (k ∈ Dict.keys d)) as [Hin|Hout].
    + now rewrite decide_True.
    + rewrite decide_True; [reflexivity|]. apply elem_of_app. right.
      now apply list_elem_of_singleton.
  - apply insert_insert_eq.
Qed.

Lemma lookup_setitem {V} k (v : V) d p :
  Dict.store (Dict.setitem k v d) !! p
  = if decide (k = p) then Some v else Dict.store d !! p.
Proof. unfold Dict.setitem. cbn. apply lookup_insert. Qed.

Section TcpPhase.
Variable connect_reply : list event -> string -> Z -> Q -> connect_outcome.

Lemma tcp_with_retry_oks p host port cfg h :
  oks p (snd (tcp_with_retry connect_reply host port cfg h)) = 0.
Proof.
  unfold tcp_with_retry.
  eapply retry_run_oks; [| | apply tcp_attempts_run]; reflexivity.
Qed.

(** One (address, port) pair of the TCP phase, read off the run of its
    retrying probe. *)
Lemma tcp_probe_pair_run cfg ip port stats h s :
  Dict.store stats !! port = Some s ->
  tcp_probe_pair connect_reply cfg ip port stats h
  = match tcp_with_retry connect_reply ip port cfg h with
    | (Ok (Some c), t) =>
        (Ok (Dict.setitem port (bump 1 1 s) stats),
         t ++ [EvPrint (PrTcpOk ip port c)])
    | (Ok None, t) => (Ok (Dict.setitem port (bump 1 0 s) stats), t)
    | (Raise e, t) => (Raise e, t)
    end.
Proof.
  intros Hs. unfold tcp_probe_pair, Dict.getitem. rewrite Hs. run_monad.
  cbn -[tcp_with_retry Dict.setitem]. rewrite app_nil_r.
  destruct (tcp_with_retry connect_reply ip port cfg h) as [[[c|]|e] t];
    cbn -[Dict.setitem].
  - rewrite lookup_setitem, decide_True by reflexivity.
    cbn -[Dict.setitem]. rewrite setitem_setitem.
    unfold bump. cbn. repeat f_equal; lia.
  - rewrite app_nil_r. unfold bump. cbn. repeat f_equal; lia.
  - reflexivity.
Qed.

Lemma tcp_probe_pair_absent cfg ip port stats h :
  Dict.store stats !! port = None ->
  tcp_probe_pair connect_reply cfg ip port stats h
  = (Raise (KeyError (pretty port)), []).
Proof.
  intros Hs. unfold tcp_probe_pair, Dict.getitem. rewrite Hs. reflexivity.
Qed.

(** The counters after one completed pair. *)
Lemma tcp_probe_pair_counts cfg ip port stats h stats' t :
  tcp_probe_pair connect_reply cfg ip port stats h = (Ok stats', t) ->
  (forall p, Dict.store stats' !! p
             = bump (is_port p port) (oks p t) <$> Dict.store stats !! p)
  /\ (forall p, oks p t <= is_port p port).
Proof.
  intros Hrun.
  destruct (Dict.store stats !! port) as [s|] eqn:Hs;
    [|rewrite tcp_probe_pair_absent in Hrun by exact Hs; discriminate].
  rewrite (tcp_probe_pair_run cfg ip port stats h s Hs) in Hrun.
  pose proof (fun p => tcp_with_retry_oks p ip port cfg h) as H0.
  destruct (tcp_with_retry connect_reply ip port cfg h) as [[[c|]|e] t0];
    cbn [snd] in H0; [| |discriminate].
  - injection Hrun as <- <-. split.
    + intros p. rewrite lookup_setitem, oks_app, H0. unfold is_port, oks, len.
      cbn. destruct (decide (port = p)) as [->|Hne].
      * rewrite Hs, Z.eqb_refl. reflexivity.
      * replace (p =? port) with false by (symmetry; apply Z.eqb_neq; congruence).
        replace (port =? p) with false by (symmetry; apply Z.eqb_neq; congruence).
        cbn. destruct (Dict.store stats !! p) as [s0|]; cbn; [|reflexivity].
        now rewrite bump_0.
    + intros p. rewrite oks_app, H0. unfold is_port, oks, len. cbn.
      rewrite (Z.eqb_sym port p). destruct (p =? port); cbn; lia.
  - injection Hrun as <- <-. split.
    + intros p. rewrite lookup_setitem, H0. unfold is_port.
      destruct (decide (port = p)) as [->|Hne].
      * rewrite Hs, Z.eqb_refl. reflexivity.
      * replace (p =? port) with false by (symmetry; apply Z.eqb_neq; congruence).
        destruct (Dict.store stats !! p) as [s0|]; cbn; [|reflexivity].
        now rewrite bump_0.
    + intros p. rewrite H0. unfold is_port. destruct (p =? port); lia.
Qed.

Lemma for_each_cons {E A S} (x : A) l (body : A -> S -> M E S) s h :
  for_each (x :: l) body s h
  = match body x s h with
    | (Ok s1, t1) =>
        let '(r, t2) := for_each l body s1 (h ++ t1) in (r, t1 ++ t2)
    | (Raise e, t1) => (Raise e, t1)
    end.
Proof. reflexivity. Qed.

Lemma occurrences_cons p q ports :
  occurrences p (q :: ports) = is_port p q + occurrences p ports.
Proof.
  unfold occurrences, is_port, len. cbn. destruct (p =? q); cbn [length]; lia.
Qed.

(** The counters after the inner loop over the ports, for one address. *)
Lemma ports_loop_counts cfg ip ports : forall stats h stats' t,
  for_each ports (tcp_probe_pair connect_reply cfg ip) stats h = (Ok stats', t) ->
  (forall p, Dict.store stats' !! p
             = bump (occurrences p ports) (oks p t) <$> Dict.store stats !! p)
  /\ (forall p, oks p t <= occurrences p ports).
Proof.
  induction ports as [|port ports IH]; intros stats h stats' t Hrun.
  - injection Hrun as <- <-. split; intros p.
    + destruct (Dict.store stats !! p); cbn; [|reflexivity].
      now rewrite bump_0.
    + reflexivity.
  - rewrite for_each_cons in Hrun.
    destruct (tcp_probe_pair connect_reply cfg ip port stats h)
      as [[s1|e] t1] eqn:H1; [|discriminate].
    destruct (for_each ports _ s1 (h ++ t1)) as [r t2] eqn:H2.
    injection Hrun as -> <-.
    apply tcp_probe_pair_counts in H1 as [Hl1 Ho1].
    apply IH in H2 as [Hl2 Ho2]. split; intros p.
    + rewrite Hl2, Hl1, oks_app, occurrences_cons.
      destruct (Dict.store stats !! p); cbn; [|reflexivity].
      now rewrite bump_bump.
    + rewrite oks_app, occurrences_cons. specialize (Ho1 p).
      specialize (Ho2 p). lia.
Qed.

(** The counters after the whole phase. *)
Lemma tcp_phase_counts cfg ports alive_ips : forall stats h stats' t,
  tcp_phase connect_reply alive_ips ports cfg stats h = (Ok stats', t) ->
  (forall p, Dict.store stats' !! p
             = bump (len alive_ips * occurrences p ports) (oks p t)
                 <$> Dict.store stats !! p)
  /\ (forall p, oks p t <= len alive_ips * occurrences p ports).
Proof.
  unfold tcp_phase.
  induction alive_ips as [|ip ips IH]; intros stats h stats' t Hrun.
  - injection Hrun as <- <-. split; intros p.
    + destruct (Dict.store stats !! p); cbn; [|reflexivity].
      now rewrite bump_0.
    + reflexivity.
  - rewrite for_each_cons in Hrun.
    destruct (for_each ports _ stats h) as [[s1|e] t1] eqn:H1; [|discriminate].
    destruct (for_each ips _ s1 (h ++ t1)) as [r t2] eqn:H2.
    injection Hrun as -> <-.
    apply ports_loop_counts in H1 as [Hl1 Ho1].
    apply IH in H2 as [Hl2 Ho2].
    assert (Hlen : len (ip :: ips) = 1 + len ips) by (unfold len; cbn [length]; lia).
    split; intros p.
    + rewrite Hl2, Hl1, oks_app, Hlen.
      destruct (Dict.store stats !! p); cbn; [|reflexivity].
      rewrite bump_bump. do 2 f_equal. lia.
    + rewrite oks_app, Hlen. specialize (Ho1 p). specialize (Ho2 p). lia.
Qed.

(** [port_stats] as [main] builds it. *)
Lemma comprehension_lookup {V} (f : Z -> V) ks p :
  Dict.store (Dict.comprehension f ks) !! p
  = if decide (p ∈ ks) then Some (f p) else None.
Proof.
  unfold Dict.comprehension.
  assert (H : forall d,
    Dict.store (fold_left (fun d k => Dict.setitem k (f k) d) ks d) !! p
    = if decide (p ∈ ks) then Some (f p) else Dict.store d !! p).
  { induction ks as [|k ks IH]; intros d; cbn [fold_left].
    - rewrite decide_False by apply not_elem_of_nil. reflexivity.
    - rewrite IH, lookup_setitem.
      destruct (decide (p ∈ ks)) as [Hin|Hout].
      + rewrite decide_True by (now apply elem_of_cons; right). reflexivity.
      + destruct (decide (k = p)) as [->|Hne].
        * rewrite decide_True by (now apply elem_of_cons; left). reflexivity.
        * rewrite decide_False; [reflexivity|].
          intros [->|Hin]%elem_of_cons; [congruence|contradiction]. }
  rewrite H. destruct (decide (p ∈ ks)); [reflexivity|apply lookup_empty].
Qed.

Lemma occurrences_NoDup p ports :
  NoDup ports -> p ∈ ports -> occurrences p ports = 1.
Proof.
  induction 1 as [|q ports Hq Hnd IH]; intros Hin.
  - now apply not_elem_of_nil in Hin.
  - rewrite occurrences_cons. unfold is_port.
    apply elem_of_cons in Hin as [->|Hin].
    + rewrite Z.eqb_refl.
      assert (occurrences q ports = 0); [|lia].
      clear -Hq. unfold occurrences, len.
      induction ports as [|r ports IH]; [reflexivity|]. cbn.
      destruct (Z.eqb_spec q r) as [->|Hne].
      * exfalso. apply Hq. now left.
      * apply IH. intros Hin. apply Hq. now right.
    + destruct (Z.eqb_spec p q) as [->|Hne]; [contradiction|].
      rewrite IH by assumption. lia.
Qed.

(** C1 (amended): after a completed TCP phase started from the zeroed
    [port_stats], every configured port [p] has [success <= total], and
    [total] is the number of alive hosts times the number of times [p] is
    listed among the configured ports -- the number of alive hosts itself
    when no port is listed twice. *)
Theorem tcp_phase_port_totals
    (alive_ips : list string) (ports : list Z) (cfg : TcpCfg.t)
    (h t : list event) (stats' : Dict.t stat) (p : Z)
    (Hrun : tcp_phase connect_reply alive_ips ports cfg
              (Dict.comprehension (fun _ => {| total := 0; success := 0 |}) ports)
              h = (Ok stats', t))
    (Hp : p ∈ ports) :
  exists s,
    Dict.getitem p stats' = Ok s
    /\ 0 <= success s <= total s
    /\ total s = len alive_ips * occurrences p ports
    /\ (NoDup ports -> total s = len alive_ips).
Proof.
  apply tcp_phase_counts in Hrun as [Hl Ho].
  specialize (Hl p). specialize (Ho p).
  rewrite comprehension_lookup, decide_True in Hl by exact Hp. cbn in Hl.
  exists (bump (len alive_ips * occurrences p ports) (oks p t)
               {| total := 0; success := 0 |}).
  unfold Dict.getitem. rewrite Hl. split; [reflexivity|]. cbn.
  pose proof (oks_nonneg p t). repeat split; try lia.
  intros Hnd. rewrite (occurrences_NoDup p ports Hnd Hp). lia.
Qed.

(** C5 (amended): one (address, port) pair of the TCP phase adds exactly
    one to the port's [total], before its retrying probe and whatever the
    number of attempts, adds one to [success] when the probe ends in a
    success, and prints that success right after the probe; over a
    completed phase [success] has grown by the number of [[TCP OK]] lines
    printed for the port. *)
Theorem tcp_pair_counted_once
    (cfg : TcpCfg.t) (ip : string) (port : Z) (stats : Dict.t stat)
    (h : list event) (s : stat)
    (Hs : Dict.store stats !! port = Some s) :
  tcp_probe_pair connect_reply cfg ip port stats h
  = match tcp_with_retry connect_reply ip port cfg h with
    | (Ok (Some c), t) =>
        (Ok (Dict.setitem port
               {| total := total s + 1; success := success s + 1 |} stats),
         t ++ [EvPrint (PrTcpOk ip port c)])
    | (Ok None, t) =>
        (Ok (Dict.setitem port
               {| total := total s + 1; success := success s |} stats), t)
    | (Raise e, t) => (Raise e, t)
    end
  /\ (forall alive_ips ports stats0 h0 stats' t p s0,
        tcp_phase connect_reply alive_ips ports cfg stats0 h0 = (Ok stats', t) ->
        Dict.store stats0 !! p = Some s0 ->
        Dict.store stats' !! p
        = Some {| total := total s0 + len alive_ips * occurrences p ports;
                  success := success s0 + oks p t |}).
Proof.
  split.
  - rewrite (tcp_probe_pair_run cfg ip port stats h s Hs).
    destruct (tcp_with_retry connect_reply ip port cfg h) as [[[c|]|e] t];
      unfold bump; cbn; repeat f_equal; lia.
  - intros alive_ips ports stats0 h0 stats' t p s0 Hrun Hs0.
    apply tcp_phase_counts in Hrun as [Hl _]. rewrite Hl, Hs0. reflexivity.
Qed.
End TcpPhase.

(** C1 as stated fails: with port 80 listed twice and one alive host, the
    phase completes with [total = 2] for port 80. *)
Lemma total_exceeds_alive_hosts_on_repeated_port :
  exists stats' t s,
    tcp_phase refuses ["10.0.0.1"] [80; 80] (tcp_list [80; 80] 0)
              (zeroed [80; 80]) [] = (Ok stats', t)
    /\ Dict.getitem 80 stats' = Ok s
    /\ total s = 2
    /\ total s <> len ["10.0.0.1"].
Proof.
  eexists _, _, _. split; [vm_compute; reflexivity|].
  split; [vm_compute; reflexivity|]. split; [reflexivity|]. vm_compute. discriminate.
Qed.

Lemma tcp_phase_port_totals_witness :
  exists s,
    Dict.getitem 80
      (stats_of (tcp_phase refuses ["10.0.0.1"; "10.0.0.2"] [80; 443]
                   (tcp_list [80; 443] 0) (zeroed [80; 443]) [])) = Ok s
    /\ 0 <= success s <= total s
    /\ total s = len ["10.0.0.1"; "10.0.0.2"] * occurrences 80 [80; 443]
    /\ (NoDup [80; 443] -> total s = len ["10.0.0.1"; "10.0.0.2"]).
Proof.
  apply (tcp_phase_port_totals refuses ["10.0.0.1"; "10.0.0.2"] [80; 443]
           (tcp_list [80; 443] 0) []
           (snd (tcp_phase refuses ["10.0.0.1"; "10.0.0.2"] [80; 443]
                   (tcp_list [80; 443] 0) (zeroed [80; 443]) []))).
  - vm_compute. reflexivity.
  - apply elem_of_cons. now left.
Defined.

(** C5 as stated fails: a pair that needs two attempts adds one, not two,
    to the port's [total]. *)
Lemma total_counts_pairs_not_attempts :
  exists stats' t s,
    tcp_phase second_try ["10.0.0.1"] [80] (tcp_list [80] 1)
              (zeroed [80]) [] = (Ok stats', t)
    /\ attempts t = 2
    /\ Dict.getitem 80 stats' = Ok s
    /\ total s = 1
    /\ total s <> attempts t.
Proof.
  eexists _, _, _. split; [vm_compute; reflexivity|].
  split; [vm_compute; reflexivity|].
  split; [vm_compute; reflexivity|]. split; [reflexivity|]. vm_compute. discriminate.
Qed.

Lemma tcp_pair_counted_once_witness :
  Dict.store (zeroed [80]) !! 80 = Some {| total := 0; success := 0 |}
  /\ tcp_probe_pair second_try (tcp_list [80] 1) "10.0.0.1" 80 (zeroed [80]) []
     = (Ok (Dict.setitem 80 {| total := 0 + 1; success := 0 + 1 |} (zeroed [80])),
        snd (tcp_with_retry second_try "10.0.0.1" 80 (tcp_list [80] 1) [])
        ++ [EvPrint (PrTcpOk "10.0.0.1" 80 3)]).
Proof.
  split; [vm_compute; reflexivity|].
  apply (proj1 (tcp_pair_counted_once second_try (tcp_list [80] 1) "10.0.0.1" 80
           (zeroed [80]) [] {| total := 0; success := 0 |} eq_refl)).
Defined.

(** *** Running the monad *)

Lemma run_bind_ok {E A B} (m : M E A) (k : A -> M E B) h a t1 :
  m h = (Ok a, t1) ->
  (m ≫= k) h = (let '(r, t2) := k a (h ++ t1) in (r, t1 ++ t2)).
Proof. intros H. unfold mbind, M_bind, bind. now rewrite H. Qed.

Lemma run_bind_raise {E A B} (m : M E A) (k : A -> M E B) h e t1 :
  m h = (Raise e, t1) -> (m ≫= k) h = (Raise e, t1).
Proof. intros H. unfold mbind, M_bind, bind. now rewrite H. Qed.

(** *** The pre-flight check *)

Lemma check_one_run max_hosts cidr total_hosts h :
  check_one max_hosts cidr total_hosts h
  = match ip_network cidr with
    | None => (Raise (ValueError cidr), [])
    | Some net =>
        if max_hosts <? len (hosts net)
        then (Raise (HostLimitError cidr (len (hosts net)) max_hosts), [])
        else (Ok (total_hosts + len (hosts net)), [])
    end.
Proof.
  unfold check_one, parse_network. run_monad.
  destruct (ip_network cidr) as [net|]; [|reflexivity]. cbn.
  destruct (max_hosts <? len (hosts net)); reflexivity.
Qed.

Lemma check_loop_run max_hosts networks : forall total_hosts h,
  snd (for_each networks (check_one max_hosts) total_hosts h) = []
  /\ match fst (for_each networks (check_one max_hosts) total_hosts h) with
     | Ok _ => Forall (fun c => exists n, host_count c = Some n /\ n <= max_hosts)
                      networks
     | Raise e => rejection networks max_hosts e
     end.
Proof.
  induction networks as [|cidr networks IH]; intros total_hosts h.
  - split; [reflexivity|]. constructor.
  - rewrite for_each_cons, check_one_run. unfold host_count in *.
    destruct (ip_network cidr) as [net|] eqn:Hnet.
    + destruct (Z.ltb_spec max_hosts (len (hosts net))) as [Hlt|Hle].
      * split; [reflexivity|]. cbn [fst]. unfold rejection, host_count.
        rewrite Hnet.
        repeat split; [now left | assumption].
      * rewrite app_nil_r.
        specialize (IH (total_hosts + len (hosts net)) h) as [IHt IHr].
        destruct (for_each networks (check_one max_hosts) _ h) as [[tot|e] t];
          cbn [fst snd] in *; subst t; split; try reflexivity.
        -- constructor; [|exact IHr]. exists (len (hosts net)).
           rewrite Hnet. split; [reflexivity|lia].
        -- destruct e; unfold rejection, host_count in *; try contradiction.
           ++ destruct IHr as [Hin Hnone]. split; [now right|exact Hnone].
           ++ destruct IHr as (Hin & Hc & Hm & Hlt).
              repeat split; [now right|assumption..].
    + split; [reflexivity|]. cbn [fst]. unfold rejection.
      split; [now left|exact Hnet].
Qed.

Section Precheck.
Variable ping_reply : list event -> string -> Q -> ping_outcome.
Variable connect_reply : list event -> string -> Z -> Q -> connect_outcome.
Variable now_str : string -> list event -> string.
Variable as_completed :
  list (result (option (string * Q))) -> list (result (option (string * Q))).
Variable path_join : string -> string -> string.

Lemma precheck_rejects networks ports rate_limit max_hosts estimate h :
  Exists (fun c => exists n, host_count c = Some n /\ max_hosts < n) networks ->
  exists e,
    precheck_networks networks ports rate_limit max_hosts estimate h = (Raise e, [])
    /\ rejection networks max_hosts e.
Proof.
  intros Hex. unfold precheck_networks.
  change (fun cidr total_hosts => _) with (check_one max_hosts).
  destruct (check_loop_run max_hosts networks 0 h) as [Ht Hr].
  destruct (for_each networks (check_one max_hosts) 0 h) as [[tot|e] t] eqn:Hrun;
    cbn [fst snd] in *; subst t.
  - exfalso. apply Exists_exists in Hex as (c & Hin & n & Hc & Hlt).
    rewrite Forall_forall in Hr. destruct (Hr c Hin) as (n' & Hc' & Hle).
    rewrite Hc in Hc'. injection Hc' as <-. lia.
  - exists e. split; [|exact Hr]. now apply run_bind_raise.
Qed.

(** C4: when some configured network has more usable hosts than the
    ceiling, [main] ends in an error before anything else happens: no
    probe, no log write, no output at all.  With every configured string a
    valid network, the error names an offending network, its host count
    and the ceiling. *)
Theorem precheck_rejects_whole_run
    (cfg : config) (ports : list Z) (tcp_cfg : TcpCfg.t) (h : list event)
    (cidr : string) (n : Z)
    (Hbuild : build_port_list (tcp_scan cfg) = Ok (ports, tcp_cfg))
    (Hin : cidr ∈ PingCfg.networks (ping_scan cfg))
    (Hcount : host_count cidr = Some n)
    (Hover : ceiling cfg < n) :
  exists e,
    main ping_reply connect_reply now_str as_completed path_join cfg h
    = (Raise e, [])
    /\ rejection (PingCfg.networks (ping_scan cfg)) (ceiling cfg) e
    /\ (Forall (fun c => is_Some (ip_network c)) (PingCfg.networks (ping_scan cfg)) ->
        exists c k, e = HostLimitError c k (ceiling cfg)
                    /\ c ∈ PingCfg.networks (ping_scan cfg)
                    /\ host_count c = Some k /\ ceiling cfg < k).
Proof.
  destruct (precheck_rejects (PingCfg.networks (ping_scan cfg)) ports
              (TcpCfg.rate_limit tcp_cfg) (ceiling cfg)
              (default true (estimate_time
                 (default {| max_hosts := None; estimate_time := None |} (scan cfg))))
              h) as (e & Hrun & Hrej).
  { apply Exists_exists. exists cidr. split; [exact Hin|]. eauto. }
  exists e. split; [|split; [exact Hrej|]].
  - unfold main. rewrite Hbuild.
    rewrite (run_bind_ok _ _ h (ports, tcp_cfg) []) by reflexivity.
    rewrite app_nil_r. cbn beta iota. fold (ceiling cfg).
    erewrite run_bind_raise by exact Hrun. reflexivity.
  - intros Hvalid. destruct e; unfold rejection in Hrej; try contradiction.
    + destruct Hrej as [Hin' Hnone]. rewrite Forall_forall in Hvalid.
      destruct (Hvalid _ Hin') as [x Hx]. congruence.
    + destruct Hrej as (Hin' & Hc & -> & Hlt). eauto 6.
Qed.

(** *** The summary block *)

Lemma summary_line_ok p s :
  summary_line p s = Ok (LgPort p (success s) (total s) (port_rate s)).
Proof.
  unfold summary_line, port_rate, truediv.
  destruct (total s =? 0); reflexivity.
Qed.

Lemma write_port_line_run file item u h :
  write_port_line file item u h = (Ok tt, [port_line file item]).
Proof.
  destruct item as [p s]. unfold write_port_line. run_monad.
  rewrite summary_line_ok. reflexivity.
Qed.

Lemma summary_lines_run file (items : list (Z * stat)) : forall h,
  for_each items (write_port_line file) tt h
  = (Ok tt, List.map (port_line file) items).
Proof.
  induction items as [|item items IH]; intros h; [reflexivity|].
  rewrite for_each_cons, write_port_line_run, IH. reflexivity.
Qed.

Lemma summarize_run log_dir timezone alive_ips port_stats h :
  summarize now_str path_join log_dir timezone alive_ips port_stats h
  = (Ok tt,
     EvWrite (path_join log_dir "summary.log") (LgSummary (now_str timezone h))
     :: EvWrite (path_join log_dir "summary.log") (LgAliveHosts (len alive_ips))
     :: List.map (port_line (path_join log_dir "summary.log"))
                 (Dict.items port_stats)).
Proof.
  unfold summarize.
  change (fun '(p, s) (_ : unit) => _)
    with (write_port_line (path_join log_dir "summary.log")).
  rewrite (run_bind_ok _ _ h (now_str timezone h) []) by reflexivity.
  rewrite app_nil_r.
  rewrite (run_bind_ok _ _ h tt
             [EvWrite (path_join log_dir "summary.log")
                (LgSummary (now_str timezone h))]) by reflexivity.
  rewrite (run_bind_ok _ _ _ tt
             [EvWrite (path_join log_dir "summary.log")
                (LgAliveHosts (len alive_ips))]) by reflexivity.
  rewrite summary_lines_run. reflexivity.
Qed.

(** The keys and items of the zeroed [port_stats]. *)
Lemma comprehension_keys {V} (f : Z -> V) ks p :
  p ∈ Dict.keys (Dict.comprehension f ks) <-> p ∈ ks.
Proof.
  unfold Dict.comprehension.
  assert (H : forall d,
    p ∈ Dict.keys (fold_left (fun d k => Dict.setitem k (f k) d) ks d)
    <-> p ∈ Dict.keys d \/ p ∈ ks).
  { induction ks as [|k ks IH]; intros d; cbn [fold_left].
    - split; [auto|]. intros [H|H]; [exact H|]. now apply not_elem_of_nil in H.
    - rewrite IH. unfold Dict.setitem at 1. cbn [Dict.keys].
      rewrite elem_of_cons.
      destruct (decide (k ∈ Dict.keys d)) as [Hk|Hk].
      + split; [tauto|]. intros [H|[->|H]]; tauto.
      + rewrite elem_of_app, list_elem_of_singleton. tauto. }
  rewrite H. cbn. split; [|auto]. intros [Hn|Hin]; [|exact Hin].
  now apply not_elem_of_nil in Hn.
Qed.

Lemma zeroed_items ports :
  Dict.items (zeroed ports)
  = List.map (fun p => (p, {| total := 0; success := 0 |}))
             (Dict.keys (zeroed ports)).
Proof.
  unfold Dict.items.
  assert (H : forall l, (forall p, p ∈ l -> p ∈ ports) ->
    omap (fun k => (fun v => (k, v)) <$> Dict.store (zeroed ports) !! k) l
    = List.map (fun p => (p, {| total := 0; success := 0 |})) l).
  { induction l as [|k l IH]; intros Hsub; [reflexivity|].
    cbn [omap list_omap List.map]. unfold zeroed at 1.
    rewrite comprehension_lookup, decide_True by (apply Hsub; now left).
    cbn [fmap option_fmap option_map]. f_equal.
    apply IH. intros p Hp. apply Hsub. now right. }
  apply H. intros p Hp. unfold zeroed in Hp.
  now apply comprehension_keys in Hp.
Qed.

End Precheck.

(** *** The port list and the configuration it leaves *)

Lemma py_max_ge_r a b : (b <= py_max a b)%Q.
Proof.
  unfold py_max. destruct (Qle_bool b a) eqn:H.
  - now apply Qle_bool_iff.
  - apply Qle_refl.
Qed.

Lemma py_max_ge_l a b : (a <= py_max a b)%Q.
Proof.
  unfold py_max. destruct (Qle_bool b a) eqn:H.
  - apply Qle_refl.
  - apply Qlt_le_weak, Qnot_le_lt. intros Hle.
    apply Qle_bool_iff in Hle. congruence.
Qed.

Lemma rounds_Forall (P : event -> Prop) k block :
  Forall P block -> Forall P (rounds k block).
Proof.
  intros Hb. induction k as [|k IH]; [constructor|].
  cbn [rounds]. apply Forall_app. split; assumption.
Qed.

Lemma retry_run_Forall {A} (P : event -> Prop) probe pause (mk : Q -> A)
    fails hits faults budget r t :
  P probe -> P pause ->
  retry_run probe pause mk fails hits faults budget r t -> Forall P t.
Proof.
  intros Hp Hs [Hall | k c Hk _ _ | k e Hk _ _].
  - apply rounds_Forall. repeat constructor; assumption.
  - apply rounds_Forall. repeat constructor; assumption.
  - apply Forall_app. split.
    + apply rounds_Forall. repeat constructor; assumption.
    + repeat constructor; assumption.
Qed.

Lemma for_each_Forall {A S} (P : event -> Prop) (body : A -> S -> M event S) l :
  (forall x s h, Forall P (snd (body x s h))) ->
  forall s h, Forall P (snd (for_each l body s h)).
Proof.
  intros Hbody. induction l as [|x l IH]; intros s h; [constructor|].
  rewrite for_each_cons. specialize (Hbody x s h).
  destruct (body x s h) as [[s1|e] t1]; cbn [snd] in *; [|exact Hbody].
  specialize (IH s1 (h ++ t1)).
  destruct (for_each l body s1 (h ++ t1)) as [r t2]. cbn [snd] in *.
  apply Forall_app. split; assumption.
Qed.

Section PortList.
Variable connect_reply : list event -> string -> Z -> Q -> connect_outcome.

Lemma tcp_with_retry_uses_config cfg host port h :
  Forall (uses_config cfg) (snd (tcp_with_retry connect_reply host port cfg h)).
Proof.
  unfold tcp_with_retry.
  eapply retry_run_Forall; [| | apply tcp_attempts_run]; reflexivity.
Qed.

Lemma tcp_phase_uses_config cfg alive_ips ports stats h :
  Forall (uses_config cfg)
         (snd (tcp_phase connect_reply alive_ips ports cfg stats h)).
Proof.
  unfold tcp_phase. apply for_each_Forall. intros ip s1 h1.
  apply for_each_Forall. intros port s2 h2.
  pose proof (tcp_with_retry_uses_config cfg ip port h2) as Hr.
  destruct (Dict.store s2 !! port) as [s|] eqn:Hs.
  - rewrite (tcp_probe_pair_run connect_reply cfg ip port s2 h2 s Hs).
    destruct (tcp_with_retry connect_reply ip port cfg h2) as [[[c|]|e] t];
      cbn [snd] in *; try exact Hr.
    apply Forall_app. split; [exact Hr|]. repeat constructor.
  - rewrite tcp_probe_pair_absent by exact Hs. constructor.
Qed.

(** C7: in ["full"] mode the port list is 1..65535 (65535 entries) and
    the configuration comes back with [retry = 0] and
    [rate_limit = max(rate_limit, 0.1)], nothing else changed; in every
    other mode the configuration comes back as it was; and the TCP phase
    only ever uses the timeout and the pause of the configuration it is
    started with. *)
Theorem full_mode_overrides_at_port_list_only :
  (forall cfg,
      TcpCfg.mode cfg = Some "full" ->
      exists cfg',
        build_port_list cfg = Ok (Py.range 1 65536, cfg')
        /\ len (Py.range 1 65536) = 65535
        /\ (forall p, In p (Py.range 1 65536) <-> 1 <= p <= 65535)
        /\ TcpCfg.retry cfg' = 0
        /\ TcpCfg.rate_limit cfg' = py_max (TcpCfg.rate_limit cfg) (1 # 10)
        /\ (1 # 10 <= TcpCfg.rate_limit cfg')%Q
        /\ (TcpCfg.rate_limit cfg <= TcpCfg.rate_limit cfg')%Q
        /\ TcpCfg.enable cfg' = TcpCfg.enable cfg
        /\ TcpCfg.mode cfg' = TcpCfg.mode cfg
        /\ TcpCfg.ports cfg' = TcpCfg.ports cfg
        /\ TcpCfg.port_range cfg' = TcpCfg.port_range cfg
        /\ TcpCfg.timeout cfg' = TcpCfg.timeout cfg)
  /\ (forall cfg ports cfg',
        TcpCfg.mode cfg <> Some "full" ->
        build_port_list cfg = Ok (ports, cfg') -> cfg' = cfg)
  /\ (forall cfg alive_ips ports stats h,
        Forall (uses_config cfg)
               (snd (tcp_phase connect_reply alive_ips ports cfg stats h))).
Proof.
  split; [|split].
  - intros cfg Hmode. eexists. unfold build_port_list. rewrite Hmode.
    lazy beta iota zeta delta [default String.eqb Ascii.eqb Bool.eqb].
    split; [reflexivity|]. cbn [TcpCfg.retry TcpCfg.rate_limit TcpCfg.enable
      TcpCfg.mode TcpCfg.ports TcpCfg.port_range TcpCfg.timeout].
    split; [unfold len; rewrite range_length; lia|].
    split; [intros p; rewrite range_In; lia|].
    repeat split; try reflexivity; try exact Hmode.
    + apply py_max_ge_r.
    + apply py_max_ge_l.
  - intros cfg ports cfg' Hmode Hbuild. unfold build_port_list in Hbuild.
    destruct (String.eqb_spec (default "list" (TcpCfg.mode cfg)) "list");
      [now injection Hbuild as _ <-|].
    destruct (String.eqb_spec (default "list" (TcpCfg.mode cfg)) "range").
    { destruct (default _ (TcpCfg.port_range cfg)) as [[s0|] [e0|]];
        cbn in Hbuild; try discriminate. now injection Hbuild as _ <-. }
    destruct (String.eqb_spec (default "list" (TcpCfg.mode cfg)) "full")
      as [Hfull|]; [|discriminate].
    exfalso. apply Hmode. destruct (TcpCfg.mode cfg); cbn in Hfull; congruence.
  - apply tcp_phase_uses_config.
Qed.
End PortList.

(** *** The address enumerator *)

(** C6: for a string that parses as address [a] and prefix length [p],
    [expand_network] returns, in increasing order, the addresses strictly
    between the network address and the broadcast address when [p <= 30],
    both addresses of a /31 and the one address of a /32; and
    [192.168.1.0/30] expands to [192.168.1.1] and [192.168.1.2]. *)
Theorem expand_network_usable_hosts :
  (forall cidr a p,
      split_addr_prefix cidr = Some (a, p) ->
      let size := 2 ^ (32 - p) in
      let net := a - a mod size in
      expand_network cidr
      = Ok (List.map ip_str
              (if p <=? 30 then Py.range (net + 1) (net + size - 1)
               else if p =? 31 then [net; net + 1] else [a])))
  /\ expand_network "192.168.1.0/30" = Ok ["192.168.1.1"; "192.168.1.2"].
Proof.
  split; [|vm_compute; reflexivity].
  intros cidr a p H size net.
  destruct (split_addr_prefix_bounds _ _ _ H) as [Ha Hp].
  unfold expand_network, parse_network, ip_network. rewrite H. simpl.
  now rewrite hosts_of_network.
Qed.

Lemma expand_network_usable_hosts_witness :
  split_addr_prefix "10.1.2.77/29" = Some (167838285, 29)
  /\ expand_network "10.1.2.77/29"
     = Ok ["10.1.2.73"; "10.1.2.74"; "10.1.2.75"; "10.1.2.76"; "10.1.2.77";
           "10.1.2.78"].
Proof.
  split; [vm_compute; reflexivity|].
  rewrite (proj1 expand_network_usable_hosts "10.1.2.77/29" 167838285 29)
    by (vm_compute; reflexivity).
  vm_compute. reflexivity.
Defined.

(** *** Worked instances *)

Lemma retrying_prober_bounded_and_paced_witness :
  0 <= PingCfg.retry (ping_once_cfg [] 1)
  /\ 0 <= TcpCfg.retry (tcp_list [80] 1)
  /\ attempts (snd (ping_worker never_replies "10.0.0.1" (ping_once_cfg [] 1) []))
     <= 1 + 1
  /\ attempts (snd (tcp_with_retry second_try "10.0.0.1" 80 (tcp_list [80] 1) []))
     <= 1 + 1.
Proof.
  assert (Hp : 0 <= PingCfg.retry (ping_once_cfg [] 1)) by (cbn; lia).
  assert (Ht : 0 <= TcpCfg.retry (tcp_list [80] 1)) by (cbn; lia).
  destruct (retrying_prober_bounded_and_paced never_replies second_try
              "10.0.0.1" "10.0.0.1" 80 (ping_once_cfg [] 1) (tcp_list [80] 1)
              [] Hp Ht) as [[_ H1] [_ H2]].
  repeat split; assumption.
Defined.

Lemma precheck_rejects_whole_run_witness :
  exists e,
    main never_replies refuses frozen_clock in_order slash_join
         (small_scan ["10.0.0.0/30"; "10.0.1.0/24"] (Some 100) true) []
    = (Raise e, [])
    /\ e = HostLimitError "10.0.1.0/24" 254 100.
Proof.
  destruct (precheck_rejects_whole_run never_replies refuses frozen_clock
              in_order slash_join
              (small_scan ["10.0.0.0/30"; "10.0.1.0/24"] (Some 100) true)
              [22; 80] (tcp_scan (small_scan [] None true)) []
              "10.0.1.0/24" 254)
    as (e & Hrun & _ & _).
  - reflexivity.
  - apply elem_of_cons. right. apply elem_of_cons. now left.
  - vm_compute. reflexivity.
  - vm_compute. reflexivity.
  - exists e. split; [exact Hrun|].
    assert (Hv : main never_replies refuses frozen_clock in_order slash_join
              (small_scan ["10.0.0.0/30"; "10.0.1.0/24"] (Some 100) true) []
            = (Raise (HostLimitError "10.0.1.0/24" 254 100), []))
      by (vm_compute; reflexivity).
    rewrite Hv in Hrun. now injection Hrun as <-.
Defined.

(** *** The ping pool and a probe that raises *)

Lemma for_each_app {E A S} (l1 l2 : list A) (body : A -> S -> M E S) : forall s h,
  for_each (l1 ++ l2) body s h
  = match for_each l1 body s h with
    | (Ok s1, t1) =>
        let '(r, t2) := for_each l2 body s1 (h ++ t1) in (r, t1 ++ t2)
    | (Raise e, t1) => (Raise e, t1)
    end.
Proof.
  induction l1 as [|x l1 IH]; intros s h; cbn [app].
  - cbn. rewrite app_nil_r. now destruct (for_each l2 body s h).
  - rewrite !for_each_cons. destruct (body x s h) as [[s1|e] t1]; [|reflexivity].
    rewrite IH. destruct (for_each l1 body s1 (h ++ t1)) as [[s2|e] t2];
      [|reflexivity].
    rewrite <- !app_assoc.
    destruct (for_each l2 body s2 (h ++ t1 ++ t2)) as [r t3].
    now rewrite <- app_assoc.
Qed.

Lemma emit_all_run {E} (evs : list E) : forall h,
  for_each evs (fun ev (_ : unit) => emit ev) tt h = (Ok tt, evs).
Proof.
  induction evs as [|ev evs IH]; intros h; [reflexivity|].
  rewrite for_each_cons. cbn [emit]. unfold emit at 1. now rewrite IH.
Qed.

Section Pool.
Variable ping_reply : list event -> string -> Q -> ping_outcome.
Variable now_str : string -> list event -> string.
Variable as_completed :
  list (result (option (string * Q))) -> list (result (option (string * Q))).
Variable path_join : string -> string -> string.

Local Abbreviation collected := (NetProbeSpec.collected now_str).
Local Abbreviation collect_one := (NetProbeSpec.collect_one now_str).

Lemma collect_one_ok log_file timezone n r done alive h :
  collect_one log_file timezone n (Ok r) (done, alive) h
  = (Ok (done + 1, alive ++ alive_of [r]),
     collected log_file timezone n h done [r]).
Proof.
  unfold NetProbeSpec.collect_one, now. run_monad. destruct r as [[ip cost]|]; cbn.
  - now rewrite !app_nil_r.
  - now rewrite ?app_nil_r.
Qed.

Lemma collect_one_raise log_file timezone n e done alive h :
  collect_one log_file timezone n (Raise e) (done, alive) h
  = (Raise e, [EvProgress (done + 1) n]).
Proof. reflexivity. Qed.

Lemma collected_cons log_file timezone n h done r rs :
  collected log_file timezone n h done (r :: rs)
  = collected log_file timezone n h done [r]
    ++ collected log_file timezone n
         (h ++ collected log_file timezone n h done [r]) (done + 1) rs.
Proof. cbn [NetProbeSpec.collected]. now rewrite !app_nil_r. Qed.

Lemma collect_loop_ok log_file timezone n rs : forall done alive h,
  for_each (List.map Ok rs) (collect_one log_file timezone n) (done, alive) h
  = (Ok (done + len rs, alive ++ alive_of rs),
     collected log_file timezone n h done rs).
Proof.
  induction rs as [|r rs IH]; intros done alive h.
  - cbn. unfold ret, len. cbn. now rewrite Z.add_0_r, app_nil_r.
  - cbn [List.map]. rewrite for_each_cons, collect_one_ok, IH.
    rewrite (collected_cons _ _ _ h done r rs). f_equal. f_equal. f_equal.
    + unfold len. cbn [length]. lia.
    + rewrite <- app_assoc. f_equal. unfold alive_of. cbn.
      now destruct r as [[ip c]|].
Qed.

(** C3 (amended): an exception raised by a probe task leaves
    [ping_scan_network] when the result of that task is collected.  Every
    submitted task still runs to its end, and the results collected before
    are reported; the results that would be collected later are not, and
    neither is the closing marker of the log block written.  When no task
    raises, every result is reported, a probe that merely fails
    included. *)
Theorem pool_reraises_probe_exception
    (cidr : string) (cfg : PingCfg.t) (log_dir timezone : string)
    (h : list event) (hosts : list string)
    (Hhosts : expand_network cidr = Ok hosts) :
  let log_file := get_network_log path_join log_dir cidr in
  let header := EvWrite log_file (LgPingScan cidr) in
  let futures :=
    List.map (fun ip => ping_worker ping_reply ip cfg (h ++ [header])) hosts in
  let workers := concat (List.map snd futures) in
  let n := len hosts in
  (forall rs,
      as_completed (List.map fst futures) = List.map Ok rs ->
      ping_scan_network ping_reply now_str as_completed path_join
        cidr cfg log_dir timezone h
      = (Ok (alive_of rs),
         header :: workers
         ++ collected log_file timezone n (h ++ header :: workers) 0 rs
         ++ [EvWrite log_file (LgEndPing cidr); EvPrint PrNewline]))
  /\ (forall rs e later,
        as_completed (List.map fst futures) = List.map Ok rs ++ Raise e :: later ->
        ping_scan_network ping_reply now_str as_completed path_join
          cidr cfg log_dir timezone h
        = (Raise e,
           header :: workers
           ++ collected log_file timezone n (h ++ header :: workers) 0 rs
           ++ [EvProgress (len rs + 1) n])).
Proof.
  intros log_file header futures workers n.
  assert (Hstart :
    ping_scan_network ping_reply now_str as_completed path_join
      cidr cfg log_dir timezone h
    = match for_each (as_completed (List.map fst futures))
              (collect_one log_file timezone n) (0, [])
              (h ++ header :: workers) with
      | (Ok (_, alive), t) =>
          (Ok alive,
           header :: workers
           ++ t ++ [EvWrite log_file (LgEndPing cidr); EvPrint PrNewline])
      | (Raise e, t) => (Raise e, header :: workers ++ t)
      end).
  { unfold ping_scan_network. rewrite Hhosts.
    rewrite (run_bind_ok _ _ h hosts []) by reflexivity. rewrite app_nil_r.
    fold log_file. fold header.
    rewrite (run_bind_ok _ _ h tt [header]) by reflexivity.
    rewrite (run_bind_ok _ _ (h ++ [header]) (h ++ [header]) []) by reflexivity.
    rewrite app_nil_r. cbn zeta. fold futures. fold workers.
    rewrite (run_bind_ok _ _ (h ++ [header]) tt workers) by apply emit_all_run.
    rewrite <- app_assoc. cbn [app]. fold n.
    change (fun fu '(done, alive) => _) with (collect_one log_file timezone n).
    unfold mbind at 1. unfold M_bind, bind at 1.
    destruct (for_each _ (collect_one log_file timezone n) (0, [])
                (h ++ header :: workers)) as [[[d alive]|e] t]; [|reflexivity].
    cbn. reflexivity. }
  split.
  - intros rs Hrs. rewrite Hstart, Hrs, collect_loop_ok. reflexivity.
  - intros rs e later Hrs. rewrite Hstart, Hrs.
    rewrite for_each_app, collect_loop_ok, for_each_cons, collect_one_raise.
    unfold len. now rewrite Z.add_0_l.
Qed.
End Pool.

(** C3 as stated fails.  With two hosts, the first of which makes
    [ping_once] raise while the second answers, and the results collected
    in the order of submission, the exception leaves [ping_scan_network]
    and [main]: the second host, although probed, is not logged and not
    returned, and the closing marker of the log block is not written. *)
Lemma pool_aborted_by_one_raising_probe :
  ping_scan_network first_host_faults frozen_clock in_order slash_join
    "10.0.0.0/30" (ping_once_cfg ["10.0.0.0/30"] 0) "./logs" "UTC" []
  = (Raise (OSError "Too many open files"),
     [EvWrite "./logs/net_10.0.0.0_30.log" (LgPingScan "10.0.0.0/30");
      EvPing "10.0.0.1" 1;
      EvPing "10.0.0.2" 1; EvSleep (1 # 2);
      EvProgress 1 2])
  /\ main first_host_faults refuses frozen_clock in_order slash_join
          (small_scan ["10.0.0.0/30"] None true) []
     = (Raise (OSError "Too many open files"),
        [EvPrint (PrPingStart "10.0.0.0/30");
         EvWrite "./logs/net_10.0.0.0_30.log" (LgPingScan "10.0.0.0/30");
         EvPing "10.0.0.1" 1;
         EvPing "10.0.0.2" 1; EvSleep (1 # 2);
         EvProgress 1 2]).
Proof. split; vm_compute; reflexivity. Qed.

Lemma pool_reraises_probe_exception_witness :
  expand_network "10.0.0.0/30" = Ok ["10.0.0.1"; "10.0.0.2"]
  /\ ping_scan_network never_replies frozen_clock in_order slash_join
       "10.0.0.0/30" (ping_once_cfg ["10.0.0.0/30"] 0) "./logs" "UTC" []
     = (Ok [],
        [EvWrite "./logs/net_10.0.0.0_30.log" (LgPingScan "10.0.0.0/30");
         EvPing "10.0.0.1" 1; EvSleep (1 # 2);
         EvPing "10.0.0.2" 1; EvSleep (1 # 2);
         EvProgress 1 2; EvProgress 2 2;
         EvWrite "./logs/net_10.0.0.0_30.log" (LgEndPing "10.0.0.0/30");
         EvPrint PrNewline]).
Proof.
  assert (Hhosts : expand_network "10.0.0.0/30" = Ok ["10.0.0.1"; "10.0.0.2"])
    by (vm_compute; reflexivity).
  split; [exact Hhosts|].
  rewrite (proj1 (pool_reraises_probe_exception never_replies frozen_clock
                    in_order slash_join "10.0.0.0/30"
                    (ping_once_cfg ["10.0.0.0/30"] 0) "./logs" "UTC" []
                    ["10.0.0.1"; "10.0.0.2"] Hhosts) [None; None])
    by (vm_compute; reflexivity).
  vm_compute. reflexivity.
Defined.

Lemma full_mode_overrides_at_port_list_only_witness :
  exists cfg',
    build_port_list (full_sweep (1 # 100)) = Ok (Py.range 1 65536, cfg')
    /\ TcpCfg.retry cfg' = 0
    /\ (1 # 10 <= TcpCfg.rate_limit cfg')%Q.
Proof.
  destruct (proj1 (full_mode_overrides_at_port_list_only refuses)
              (full_sweep (1 # 100)) eq_refl)
    as (cfg' & Hb & _ & _ & Hr & _ & Hq & _).
  exists cfg'. repeat split; assumption.
Defined.


End NetProbeProofs.

(** ** Properties of the two monitors *)

Module MonitorProofs.
Import Monitor MonitorSpec.

Lemma same_counters_do ev s : same_counters s (do ev s).
Proof. repeat split. Qed.

Lemma same_counters_trans s1 s2 s3 :
  same_counters s1 s2 -> same_counters s2 s3 -> same_counters s1 s3.
Proof. unfold same_counters. intuition congruence. Qed.

Lemma summary_lines_same s s' ts tz :
  same_counters s s' -> summary_lines s' ts tz = summary_lines s ts tz.
Proof.
  intros (Ht & Hs & Hf & Hc). unfold summary_lines. now rewrite Ht, Hs, Hf, Hc.
Qed.

Section FrameFacts.
Variable now_str : string -> list event -> string.
Variable log_file : string.
Variable timezone : string.

Local Abbreviation handler_events :=
  (MonitorSpec.handler_events now_str log_file timezone).

Lemma on_exception_run e s :
  exists s',
    on_exception now_str log_file timezone e s
    = (if caught e then Ok tt else Raise e, s')
    /\ same_counters s s'
    /\ out s' = out s ++ handler_events e s.
Proof.
  unfold on_exception, MonitorSpec.handler_events, caught.
  destruct e; cbn; eexists; (split; [reflexivity|]);
    (split; [repeat split|]); cbn; now rewrite ?app_nil_r.
Qed.

Lemma write_all_run (ls : list line) : forall s,
  same_counters s (fold_left (fun s l => do (EvWrite log_file l) s) ls s)
  /\ out (fold_left (fun s l => do (EvWrite log_file l) s) ls s)
     = out s ++ List.map (EvWrite log_file) ls.
Proof.
  induction ls as [|l ls IH]; intros s; cbn [fold_left List.map].
  - split; [repeat split|now rewrite app_nil_r].
  - destruct (IH (do (EvWrite log_file l) s)) as [Hc Ho]. split.
    + eapply same_counters_trans; [apply same_counters_do|exact Hc].
    + rewrite Ho. cbn. now rewrite <- app_assoc.
Qed.

Lemma finally_run s :
  same_counters s (finally now_str log_file timezone s)
  /\ out (finally now_str log_file timezone s)
     = out s
       ++ List.map (EvWrite log_file)
            (summary_lines s (now_str timezone (out s)) timezone)
       ++ [EvPrint LnSaved].
Proof.
  unfold finally.
  destruct (write_all_run (summary_lines s (now_str timezone (out s)) timezone) s)
    as [Hc Ho].
  split.
  - eapply same_counters_trans; [exact Hc|apply same_counters_do].
  - cbn [do out]. rewrite Ho. now rewrite <- app_assoc.
Qed.

Lemma loop_app {IO} (body : IO -> St unit) pre : forall post s s0,
  loop body pre s = (None, s0) ->
  loop body (pre ++ post) s = loop body post s0.
Proof.
  induction pre as [|io pre IH]; intros post s s0 H; cbn in *.
  - now injection H as <-.
  - destruct (body io s) as [[u|e] s1]; [|discriminate]. now apply IH.
Qed.

(** The [try] statement, once a pass is left by exception [e]: the
    handlers run, then the [finally] block writes the summary of the
    counters as they stand. *)
Lemma guarded_loop_stops {IO} (body : IO -> St unit) pre io post s s0 s1 e :
  loop body pre (open_log now_str log_file timezone s) = (None, s0) ->
  body io s0 = (Raise e, s1) ->
  exists sf ts,
    guarded_loop now_str log_file timezone body (pre ++ io :: post) s
    = Exited (if caught e then Ok tt else Raise e) sf
    /\ same_counters s1 sf
    /\ out sf = out s1 ++ handler_events e s1
                ++ List.map (EvWrite log_file) (summary_lines s1 ts timezone)
                ++ [EvPrint LnSaved].
Proof.
  intros Hpre Hio. unfold guarded_loop.
  rewrite (loop_app body pre (io :: post) _ s0 Hpre). cbn [loop]. rewrite Hio.
  destruct (on_exception_run e s1) as (s2 & Hon & Hc2 & Ho2). rewrite Hon.
  destruct (finally_run s2) as [Hc3 Ho3].
  exists (finally now_str log_file timezone s2), (now_str timezone (out s2)).
  split; [reflexivity|]. split.
  - eapply same_counters_trans; eassumption.
  - rewrite Ho3, Ho2, (summary_lines_same s1 s2) by exact Hc2.
    now rewrite <- app_assoc.
Qed.

(** The counters along the loop, for a body that keeps the contract of a
    pass. *)
Section Counters.
Context {IO : Type}.
Variable body : IO -> St unit.
Hypothesis body_counts : forall io s,
  match body io s with
  | (Ok _, s') => pass_counted s s'
  | (Raise _, s') => pass_cut s s'
  end.

Lemma loop_counters script : forall s,
  total_count s = tallied s ->
  match loop body script s with
  | (None, s') => total_count s' = tallied s'
  | (Some _, s') => tallied s' <= total_count s' <= tallied s' + 1
  end.
Proof.
  induction script as [|io script IH]; intros s Hs; cbn [loop]; [exact Hs|].
  pose proof (body_counts io s) as Hb.
  destruct (body io s) as [[u|e] s1].
  - apply IH. unfold pass_counted, tallied in *. lia.
  - unfold pass_cut, tallied in *. lia.
Qed.

Lemma guarded_loop_counters script s :
  total_count s = tallied s ->
  match guarded_loop now_str log_file timezone body script s with
  | Running s' => total_count s' = tallied s'
  | Exited _ s' => tallied s' <= total_count s' <= tallied s' + 1
  end.
Proof.
  intros Hs. unfold guarded_loop.
  pose proof (loop_counters script (open_log now_str log_file timezone s)) as Hl.
  destruct (loop body script _) as [[e|] s1].
  - destruct (on_exception_run e s1) as (s2 & Hon & Hc2 & _). rewrite Hon.
    destruct (finally_run s2) as [Hc3 _].
    pose proof (same_counters_trans _ _ _ Hc2 Hc3) as (Ht & Hsu & Hf & _).
    specialize (Hl Hs). unfold tallied in *. lia.
  - apply Hl. exact Hs.
Qed.
End Counters.

Lemma guarded_loop_summary {IO} (body : IO -> St unit) script s r sf :
  guarded_loop now_str log_file timezone body script s = Exited r sf ->
  exists pre ts,
    out sf = pre ++ List.map (EvWrite log_file) (summary_lines sf ts timezone)
             ++ [EvPrint LnSaved].
Proof.
  unfold guarded_loop. destruct (loop body script _) as [[e|] s1]; [|discriminate].
  destruct (on_exception_run e s1) as (s2 & Hon & _ & _). rewrite Hon.
  intros H. injection H as _ <-.
  destruct (finally_run s2) as [Hc Ho].
  exists (out s2), (now_str timezone (out s2)).
  rewrite Ho. now rewrite (summary_lines_same s2 _ _ _ Hc).
Qed.
End FrameFacts.

(** *** The bodies of the two loops keep the contract of a pass *)

Section Bodies.
Variable now_str : string -> list event -> string.
Variable float : string -> option Q.

Lemma tcping_body_counts log_file tz host port interval io s :
  match TcpingMonitor.body now_str log_file tz host port interval io s with
  | (Ok _, s') => pass_counted s s'
  | (Raise _, s') => pass_cut s s'
  end.
Proof.
  destruct io as [answer [[pt e]|]]; unfold TcpingMonitor.body;
    cbn [TcpingMonitor.fault TcpingMonitor.answer];
    [destruct pt|];
    (destruct answer as [e'|ms|e']; [| |destruct (is_Exception e') eqn:He]);
    unfold TcpingMonitor.tcp_connect_test; rewrite ?He;
    cbv -[Z.add]; lia.
Qed.

Lemma ping_body_counts log_file tz interval io s :
  match PingMonitor.body float now_str log_file tz interval io s with
  | (Ok _, s') => pass_counted s s'
  | (Raise _, s') => pass_cut s s'
  end.
Proof.
  destruct io as [stdout fault]. unfold PingMonitor.body.
  cbn [PingMonitor.fault PingMonitor.stdout].
  destruct (PingMonitor.read_output float stdout) as [[lines rtt] failed] eqn:Hr.
  destruct fault as [[pt e]|]; [destruct pt|];
    destruct rtt as [v|]; destruct failed; destruct lines as [|l lines];
    cbv -[Z.add]; lia.
Qed.
Variable path_join : string -> string -> string.

Local Abbreviation tcping_log := (MonitorSpec.tcping_log path_join).
Local Abbreviation tcping_body := (MonitorSpec.tcping_body now_str path_join).
Local Abbreviation ping_log := (MonitorSpec.ping_log path_join).
Local Abbreviation ping_body := (MonitorSpec.ping_body float now_str path_join).

Lemma tcping_main_enabled host log_dir timezone port timeout interval script :
  host <> "" ->
  TcpingMonitor.main now_str path_join
    (tcping_config host log_dir timezone port timeout interval) script
  = guarded_loop now_str (tcping_log host log_dir port)
      (default "Asia/Bangkok" timezone)
      (tcping_body host log_dir timezone port interval) script started.
Proof.
  intros Hhost. unfold TcpingMonitor.main, tcping_config. cbn.
  destruct host; [congruence|reflexivity].
Qed.

Lemma ping_main_enabled target interval script :
  PingMonitor.main float now_str path_join (ping_config target interval) script
  = guarded_loop now_str (ping_log target) (ping_tz target)
      (ping_body target interval) script started.
Proof. reflexivity. Qed.


(** C10 (amended): in both monitors every completed pass adds one to
    [total_count] and one to exactly one of [success_count] and
    [fail_count]; a pass left by an exception may have counted itself in
    [total_count] without having counted its outcome.  So while the loop
    turns [total_count = success_count + fail_count], and when the summary
    is written [success_count + fail_count <= total_count
    <= success_count + fail_count + 1]. *)
Theorem monitor_counters_when_summary_written :
  (forall log_file tz host port interval io s,
      match TcpingMonitor.body now_str log_file tz host port interval io s with
      | (Ok _, s') => pass_counted s s'
      | (Raise _, s') => pass_cut s s'
      end)
  /\ (forall host log_dir timezone port timeout interval script,
        host <> "" ->
        match TcpingMonitor.main now_str path_join
                (tcping_config host log_dir timezone port timeout interval)
                script with
        | Running s' => total_count s' = tallied s'
        | Exited _ s' =>
            tallied s' <= total_count s' <= tallied s' + 1
            /\ exists pre ts,
                 out s' = pre
                   ++ List.map (EvWrite (tcping_log host log_dir port))
                        (summary_lines s' ts (default "Asia/Bangkok" timezone))
                   ++ [EvPrint LnSaved]
        end)
  /\ (forall log_file tz interval io s,
        match PingMonitor.body float now_str log_file tz interval io s with
        | (Ok _, s') => pass_counted s s'
        | (Raise _, s') => pass_cut s s'
        end)
  /\ (forall target interval script,
        match PingMonitor.main float now_str path_join
                (ping_config target interval) script with
        | Running s' => total_count s' = tallied s'
        | Exited _ s' =>
            tallied s' <= total_count s' <= tallied s' + 1
            /\ exists pre ts,
                 out s' = pre
                   ++ List.map (EvWrite (ping_log target))
                        (summary_lines s' ts (ping_tz target))
                   ++ [EvPrint LnSaved]
        end).
Proof.
  split; [intros; apply tcping_body_counts|].
  split; [|split; [intros; apply ping_body_counts|]].
  - intros host log_dir timezone port timeout interval script Hhost.
    rewrite tcping_main_enabled by exact Hhost.
    pose proof (guarded_loop_counters now_str (tcping_log host log_dir port)
                  (default "Asia/Bangkok" timezone)
                  (tcping_body host log_dir timezone port interval)
                  (fun io s => tcping_body_counts _ _ _ _ _ io s)
                  script started eq_refl) as Hcnt.
    pose proof (guarded_loop_summary now_str (tcping_log host log_dir port)
                  (default "Asia/Bangkok" timezone)
                  (tcping_body host log_dir timezone port interval)
                  script started) as Hsum.
    destruct (guarded_loop _ _ _ _ script started) as [s'|r s'];
      [exact Hcnt|]. split; [exact Hcnt|]. now apply (Hsum r).
  - intros target interval script. rewrite ping_main_enabled.
    pose proof (guarded_loop_counters now_str (ping_log target) (ping_tz target)
                  (ping_body target interval)
                  (fun io s => ping_body_counts _ _ _ io s)
                  script started eq_refl) as Hcnt.
    pose proof (guarded_loop_summary now_str (ping_log target) (ping_tz target)
                  (ping_body target interval) script started) as Hsum.
    destruct (guarded_loop _ _ _ _ script started) as [s'|r s'];
      [exact Hcnt|]. split; [exact Hcnt|]. now apply (Hsum r).
Qed.
End Bodies.

(** C10 as stated fails: interrupted during the second connection attempt,
    the TCP monitor writes [TOTAL: 2], [SUCCESS: 1], [FAIL: 0]. *)
Lemma summary_total_exceeds_success_plus_fail :
  exists s,
    TcpingMonitor.main fixed_clock join_slash
      (tcping_config "example.org" None None None None None)
      interrupted_while_connecting
    = Exited (Ok tt) s
    /\ In (EvWrite "./logs/tcp_example.org_80.log" (LnTotal 2)) (out s)
    /\ In (EvWrite "./logs/tcp_example.org_80.log" (LnSuccess 1)) (out s)
    /\ In (EvWrite "./logs/tcp_example.org_80.log" (LnFail 0)) (out s)
    /\ total_count s = 2 /\ success_count s + fail_count s = 1
    /\ total_count s <> success_count s + fail_count s.
Proof.
  eexists. split; [vm_compute; reflexivity|]. cbn.
  repeat split; try lia; intuition.
Qed.


Lemma monitor_counters_when_summary_written_witness :
  match TcpingMonitor.main fixed_clock join_slash
          (tcping_config "example.org" None None None None None)
          interrupted_while_connecting with
  | Running s' => total_count s' = tallied s'
  | Exited _ s' =>
      tallied s' <= total_count s' <= tallied s' + 1
      /\ exists pre ts,
           out s' = pre
             ++ List.map (EvWrite (tcping_log join_slash "example.org" None None))
                  (summary_lines s' ts (default "Asia/Bangkok" None))
             ++ [EvPrint LnSaved]
  end.
Proof.
  apply (proj1 (proj2 (monitor_counters_when_summary_written
                         fixed_clock no_float join_slash))).
  discriminate.
Defined.

End MonitorProofs.

(** * Further properties *)

(** ** Addresses and their text *)

Module NetProbeExtras.
Import Ipaddress IpaddressFacts NetProbe NetProbeSpec NetProbeProofs NetProbeMore.

Lemma split_char_no_sep c s : has_char c s = false -> Py.split_char c s = [s].
Proof.
  induction s as [|a s IH]; cbn; [reflexivity|].
  destruct (decide (a = c)); [discriminate|]. intros H. now rewrite IH.
Qed.

Lemma split_char_app c s rest :
  has_char c s = false ->
  Py.split_char c (s ++ String c rest)%string = s :: Py.split_char c rest.
Proof.
  induction s as [|a s IH]; simpl.
  - intros _. destruct (decide (c = c)); [reflexivity|congruence].
  - destruct (decide (a = c)); [discriminate|]. intros H. now rewrite IH.
Qed.

Lemma octets_round_trip : forallb octet_round_trip (Py.range 0 256) = true.
Proof. vm_compute. reflexivity. Qed.

Lemma octet_parses_back o :
  0 <= o < 256 ->
  parse_octet (Py.str_int o) = Some o /\ has_char "." (Py.str_int o) = false.
Proof.
  intros Ho. pose proof octets_round_trip as H.
  rewrite forallb_forall in H. specialize (H o).
  assert (Hin : In o (Py.range 0 256)) by (apply range_In; lia).
  apply H in Hin. unfold octet_round_trip in Hin.
  destruct (parse_octet (Py.str_int o)) as [o'|]; [|discriminate].
  apply andb_true_iff in Hin as [H1 H2]. apply Z.eqb_eq in H1 as ->.
  split; [reflexivity|]. now apply negb_true_iff.
Qed.

Lemma octets_of_address x :
  0 <= x < 2 ^ 32 ->
  let o k := Z.land (Z.shiftr x k) 255 in
  (0 <= o 24 < 256) /\ (0 <= o 16 < 256) /\ (0 <= o 8 < 256) /\ (0 <= o 0 < 256)
  /\ ((o 24 * 256 + o 16) * 256 + o 8) * 256 + o 0 = x.
Proof.
  intros Hx o. unfold o. change 255 with (Z.ones 8).
  rewrite !Z.land_ones, !Z.shiftr_div_pow2 by lia.
  change (2 ^ 32) with 4294967296 in Hx.
  change (2 ^ 24) with 16777216. change (2 ^ 16) with 65536.
  change (2 ^ 8) with 256. change (2 ^ 0) with 1.
  Z.div_mod_to_equations. lia.
Qed.

Lemma ip_str_round_trip x :
  0 <= x < 2 ^ 32 -> ip_int_from_string (ip_str x) = Some x.
Proof.
  intros Hx. destruct (octets_of_address x Hx) as (H3 & H2 & H1 & H0 & Hsum).
  unfold ip_str. cbn [List.map Py.join].
  destruct (octet_parses_back _ H3) as [P3 D3].
  destruct (octet_parses_back _ H2) as [P2 D2].
  destruct (octet_parses_back _ H1) as [P1 D1].
  destruct (octet_parses_back _ H0) as [P0 D0].
  set (s3 := Py.str_int (Z.land (Z.shiftr x 24) 255)) in *.
  set (s2 := Py.str_int (Z.land (Z.shiftr x 16) 255)) in *.
  set (s1 := Py.str_int (Z.land (Z.shiftr x 8) 255)) in *.
  set (s0 := Py.str_int (Z.land (Z.shiftr x 0) 255)) in *.
  unfold ip_int_from_string.
  assert (Hsplit : Py.split_char "." (s3 ++ "." ++ s2 ++ "." ++ s1 ++ "." ++ s0)%string
                   = [s3; s2; s1; s0]).
  { assert (Hdot : forall s, ("." ++ s)%string = String "." s) by reflexivity.
    rewrite !Hdot, !split_char_app by assumption.
    now rewrite split_char_no_sep. }
  destruct (s3 ++ "." ++ s2 ++ "." ++ s1 ++ "." ++ s0)%string eqn:Hs.
  - destruct s3; cbn in Hs; [|discriminate]. cbn in P3. discriminate.
  - rewrite Hsplit, P3. cbn. rewrite P2. cbn. rewrite P1. cbn. rewrite P0. cbn.
    now rewrite Hsum.
Qed.

Lemma ip_str_inj x y :
  0 <= x < 2 ^ 32 -> 0 <= y < 2 ^ 32 -> ip_str x = ip_str y -> x = y.
Proof.
  intros Hx Hy Heq. pose proof (ip_str_round_trip x Hx) as Px.
  pose proof (ip_str_round_trip y Hy) as Py. rewrite Heq in Px. congruence.
Qed.

(** X1: the text of an IPv4 address parses back to the address, so that
    two addresses never print alike. *)
Theorem ip_str_parses_back x (Hx : 0 <= x < 2 ^ 32) :
  ip_int_from_string (ip_str x) = Some x
  /\ forall y, 0 <= y < 2 ^ 32 -> ip_str x = ip_str y -> x = y.
Proof.
  split; [now apply ip_str_round_trip|].
  intros y Hy. now apply ip_str_inj.
Qed.

Lemma ip_str_parses_back_witness :
  ip_int_from_string (ip_str 3232235777) = Some 3232235777
  /\ forall y, 0 <= y < 2 ^ 32 -> ip_str 3232235777 = ip_str y -> 3232235777 = y.
Proof. apply (ip_str_parses_back 3232235777). lia. Defined.

Lemma NoDup_map_on {A B} (f : A -> B) l :
  (forall x y, In x l -> In y l -> f x = f y -> x = y) ->
  NoDup l -> NoDup (List.map f l).
Proof.
  intros Hinj Hnd. induction Hnd as [|x l Hx Hnd IH]; cbn; constructor.
  - rewrite list_elem_of_In, in_map_iff. intros (y & Hy & Hin).
    apply Hx. rewrite list_elem_of_In.
    rewrite (Hinj x y) by (cbn; auto). exact Hin.
  - apply IH. intros y z Hy Hz. apply Hinj; cbn; auto.
Qed.

Lemma range_NoDup a b : NoDup (Py.range a b).
Proof.
  unfold Py.range. apply NoDup_map_on; [intros; lia|].
  apply NoDup_ListNoDup, seq_NoDup.
Qed.

(** The block of a network lies in the address space. *)
Lemma block_in_space a p :
  0 <= a < 2 ^ 32 -> 0 <= p <= 32 ->
  0 < block_size p
  /\ 0 <= block_start a p <= a
  /\ a < block_start a p + block_size p
  /\ block_start a p + block_size p <= 2 ^ 32.
Proof.
  intros Ha Hp. unfold block_start, block_size.
  assert (Hsz : 0 < 2 ^ (32 - p)) by (apply Z.pow_pos_nonneg; lia).
  pose proof (Z.mod_pos_bound a _ Hsz) as Hm.
  pose proof (Z.mod_le a _ ltac:(lia) Hsz) as Hle.
  repeat split; try lia.
  assert (Hpow : 2 ^ 32 = 2 ^ (32 - p) * 2 ^ p).
  { rewrite <- Z.pow_add_r by lia. f_equal. lia. }
  pose proof (Z.div_mod a (2 ^ (32 - p)) ltac:(lia)) as Hdm.
  assert (Hq : a / 2 ^ (32 - p) < 2 ^ p).
  { apply Z.div_lt_upper_bound; [lia|]. rewrite <- Hpow. lia. }
  replace (a - a mod 2 ^ (32 - p)) with (2 ^ (32 - p) * (a / 2 ^ (32 - p))) by lia.
  rewrite Hpow. nia.
Qed.

(** The integers [expand_network] prints, for address [a] and prefix [p]. *)
Lemma hosts_members a p x :
  0 <= a < 2 ^ 32 -> 0 <= p <= 32 ->
  In x (hosts {| network_address := Z.land a (ip_int_from_prefix p);
                 prefixlen := p |}) ->
  block_start a p <= x < block_start a p + block_size p
  /\ (p <= 30 ->
      block_start a p < x < block_start a p + block_size p - 1).
Proof.
  intros Ha Hp. rewrite hosts_of_network by assumption.
  fold (block_size p). fold (block_start a p).
  destruct (block_in_space a p Ha Hp) as (Hsz & Hs0 & Hs1 & Hs2).
  destruct (Z.leb_spec p 30) as [H30|H30].
  - rewrite range_In. lia.
  - destruct (Z.eqb_spec p 31) as [->|H31].
    + assert (block_size 31 = 2) by reflexivity. cbn [In]. lia.
    + assert (p = 32) as -> by lia.
      assert (block_size 32 = 1) by reflexivity. cbn [In]. lia.
Qed.

Lemma hosts_NoDup a p :
  0 <= a < 2 ^ 32 -> 0 <= p <= 32 ->
  NoDup (hosts {| network_address := Z.land a (ip_int_from_prefix p);
                  prefixlen := p |}).
Proof.
  intros Ha Hp. rewrite hosts_of_network by assumption.
  destruct (p <=? 30); [apply range_NoDup|].
  destruct (p =? 31).
  - apply NoDup_ListNoDup. repeat constructor; cbn; [lia|tauto].
  - apply NoDup_ListNoDup. repeat constructor; cbn; tauto.
Qed.

(** X2: the number of addresses [expand_network] returns: all of the
    block but its first and last address up to a prefix length of 30,
    both addresses of a /31 and the one address of a /32. *)
Theorem expand_network_count cidr a p
    (Hparse : split_addr_prefix cidr = Some (a, p)) :
  exists ips,
    expand_network cidr = Ok ips
    /\ len ips = if p <=? 30 then 2 ^ (32 - p) - 2
                 else if p =? 31 then 2 else 1.
Proof.
  destruct (split_addr_prefix_bounds _ _ _ Hparse) as [Ha Hp].
  unfold expand_network, parse_network, ip_network. rewrite Hparse. cbn.
  eexists. split; [reflexivity|].
  unfold len. rewrite length_map, hosts_of_network by assumption.
  assert (Hsz : 0 < 2 ^ (32 - p)) by (apply Z.pow_pos_nonneg; lia).
  destruct (Z.leb_spec p 30) as [H30|H30].
  - rewrite range_length.
    assert (2 ^ 2 <= 2 ^ (32 - p)) by (apply Z.pow_le_mono_r; lia).
    change (2 ^ 2) with 4 in *. lia.
  - destruct (p =? 31); reflexivity.
Qed.

Lemma expand_network_count_witness :
  exists ips, expand_network "192.168.1.77/29" = Ok ips /\ len ips = 6.
Proof.
  apply (expand_network_count "192.168.1.77/29" 3232235853 29).
  vm_compute. reflexivity.
Defined.

(** X3: the addresses [expand_network] returns are pairwise distinct, and
    each is the text of an address of the network's block -- strictly
    between its first and its last address for a prefix length up to 30. *)
Theorem expand_network_distinct_inside cidr a p ips
    (Hparse : split_addr_prefix cidr = Some (a, p))
    (Hrun : expand_network cidr = Ok ips) :
  NoDup ips
  /\ forall ip, In ip ips ->
       exists x,
         ip_int_from_string ip = Some x
         /\ block_start a p <= x < block_start a p + block_size p
         /\ (p <= 30 -> block_start a p < x < block_start a p + block_size p - 1).
Proof.
  destruct (split_addr_prefix_bounds _ _ _ Hparse) as [Ha Hp].
  unfold expand_network, parse_network, ip_network in Hrun.
  rewrite Hparse in Hrun. cbn in Hrun. injection Hrun as <-.
  destruct (block_in_space a p Ha Hp) as (Hsz & Hs0 & Hs1 & Hs2).
  assert (Hspace : forall x,
    In x (hosts {| network_address := Z.land a (ip_int_from_prefix p);
                   prefixlen := p |}) -> 0 <= x < 2 ^ 32).
  { intros x Hx. apply hosts_members in Hx as [Hx _]; [lia|assumption..]. }
  split.
  - apply NoDup_map_on; [|now apply hosts_NoDup].
    intros x y Hx Hy. apply ip_str_inj; now apply Hspace.
  - intros ip Hin. apply in_map_iff in Hin as (x & <- & Hx).
    exists x. split; [apply ip_str_round_trip, Hspace, Hx|].
    now apply hosts_members.
Qed.

Lemma expand_network_distinct_inside_witness :
  NoDup ["10.0.0.1"; "10.0.0.2"]
  /\ forall ip, In ip ["10.0.0.1"; "10.0.0.2"] ->
       exists x,
         ip_int_from_string ip = Some x
         /\ block_start 167772160 30 <= x
            < block_start 167772160 30 + block_size 30
         /\ (30 <= 30 ->
             block_start 167772160 30 < x
             < block_start 167772160 30 + block_size 30 - 1).
Proof.
  apply (expand_network_distinct_inside "10.0.0.0/30" 167772160 30);
    vm_compute; reflexivity.
Defined.

(** The addresses of a network, whatever its text, are pairwise
    distinct. *)
Lemma expand_network_NoDup cidr ips : expand_network cidr = Ok ips -> NoDup ips.
Proof.
  unfold expand_network, parse_network, ip_network.
  destruct (split_addr_prefix cidr) as [[a p]|] eqn:Hparse; [|discriminate].
  cbn. intros H. injection H as <-.
  destruct (split_addr_prefix_bounds _ _ _ Hparse) as [Ha Hp].
  apply NoDup_map_on; [|now apply hosts_NoDup].
  intros x y Hx Hy.
  apply ip_str_inj.
  - apply hosts_members in Hx as [Hx _]; [|assumption..].
    destruct (block_in_space a p Ha Hp) as (Hsz & Hs0 & Hs1 & Hs2). lia.
  - apply hosts_members in Hy as [Hy _]; [|assumption..].
    destruct (block_in_space a p Ha Hp) as (Hsz & Hs0 & Hs1 & Hs2). lia.
Qed.

(** ** The pre-flight check lets a run through *)

Lemma check_loop_accepts max_hosts networks : forall acc h,
  Forall (within max_hosts) networks ->
  for_each networks (check_one max_hosts) acc h
  = (Ok (acc + total_hosts networks), []).
Proof.
  induction networks as [|cidr networks IH]; intros acc h Hall.
  - cbn. unfold ret. now rewrite Z.add_0_r.
  - apply Forall_cons in Hall as [(n & Hn & Hle) Hall].
    rewrite for_each_cons, check_one_run. unfold host_count in Hn.
    destruct (ip_network cidr) as [net|] eqn:Hnet; [|discriminate].
    cbn in Hn. injection Hn as <-.
    replace (max_hosts <? len (hosts net)) with false
      by (symmetry; apply Z.ltb_ge; exact Hle).
    rewrite IH by exact Hall.
    assert (Ht : total_hosts (cidr :: networks)
                 = len (hosts net) + total_hosts networks).
    { unfold total_hosts at 1. cbn [fold_right]. unfold host_count at 1.
      now rewrite Hnet. }
    rewrite Ht. cbn [app]. do 2 f_equal. lia.
Qed.

(** X4: [precheck_networks] returns exactly when every configured network
    is a valid network with at most [max_hosts] usable hosts.  It then
    prints nothing, or, when asked for the estimate, the sum of the host
    counts, the number of ports, their product and that product times
    [rate_limit]. *)
Theorem precheck_accepts_exactly networks ports rate_limit max_hosts estimate h :
  (Forall (within max_hosts) networks ->
   precheck_networks networks ports rate_limit max_hosts estimate h
   = (Ok tt, estimate_events networks ports rate_limit estimate))
  /\ (forall t,
        precheck_networks networks ports rate_limit max_hosts estimate h = (Ok tt, t) ->
        Forall (within max_hosts) networks).
Proof.
  split.
  - intros Hall. unfold precheck_networks.
    change (fun cidr total_hosts => _) with (check_one max_hosts).
    rewrite (run_bind_ok _ _ h _ [] (check_loop_accepts max_hosts networks 0 h Hall)).
    rewrite app_nil_r, Z.add_0_l. unfold estimate_events.
    destruct estimate; reflexivity.
  - intros t Hrun. unfold precheck_networks in Hrun.
    change (fun cidr total_hosts => _) with (check_one max_hosts) in Hrun.
    destruct (check_loop_run max_hosts networks 0 h) as [_ Hr].
    unfold mbind, M_bind, bind in Hrun.
    destruct (for_each networks (check_one max_hosts) 0 h) as [[tot|e] t0];
      [exact Hr|discriminate].
Qed.

Lemma precheck_accepts_exactly_witness :
  precheck_networks ["10.0.0.0/30"; "10.0.1.0/29"] [22; 80] (1 # 5) 100 true []
  = (Ok tt, estimate_events ["10.0.0.0/30"; "10.0.1.0/29"] [22; 80] (1 # 5) true).
Proof.
  apply (proj1 (precheck_accepts_exactly ["10.0.0.0/30"; "10.0.1.0/29"] [22; 80]
                  (1 # 5) 100 true [])).
  constructor; [|constructor; [|constructor]].
  - exists 2. split; [vm_compute; reflexivity|lia].
  - exists 6. split; [vm_compute; reflexivity|lia].
Defined.

(** X5: the check stops at the first configured network, in configuration
    order, that is not valid or has too many hosts, and the error is about
    that one: the networks listed after it are not looked at. *)
Theorem precheck_stops_at_first_offender
    before cidr after ports rate_limit max_hosts estimate h
    (Hbefore : Forall (within max_hosts) before) :
  (ip_network cidr = None ->
   precheck_networks (before ++ cidr :: after) ports rate_limit max_hosts estimate h
   = (Raise (ValueError cidr), []))
  /\ (forall n,
        host_count cidr = Some n -> max_hosts < n ->
        precheck_networks (before ++ cidr :: after) ports rate_limit max_hosts
          estimate h
        = (Raise (HostLimitError cidr n max_hosts), [])).
Proof.
  split.
  - intros Hnet. unfold precheck_networks.
    change (fun cidr total_hosts => _) with (check_one max_hosts).
    apply run_bind_raise.
    rewrite for_each_app, (check_loop_accepts max_hosts before 0 h Hbefore).
    rewrite for_each_cons, check_one_run, Hnet. reflexivity.
  - intros n Hn Hlt. unfold host_count in Hn.
    destruct (ip_network cidr) as [net|] eqn:Hnet; [|discriminate].
    cbn in Hn. injection Hn as <-. apply Z.ltb_lt in Hlt.
    unfold precheck_networks.
    change (fun cidr total_hosts => _) with (check_one max_hosts).
    apply run_bind_raise.
    rewrite for_each_app, (check_loop_accepts max_hosts before 0 h Hbefore).
    rewrite for_each_cons, check_one_run, Hnet, Hlt. reflexivity.
Qed.

Lemma precheck_stops_at_first_offender_witness :
  Forall (within 100) ["10.0.0.0/30"]
  /\ host_count "10.0.1.0/24" = Some 254
  /\ precheck_networks (["10.0.0.0/30"] ++ "10.0.1.0/24" :: ["10.0.2.0/33"])
       [22; 80] (1 # 5) 100 true []
     = (Raise (HostLimitError "10.0.1.0/24" 254 100), []).
Proof.
  assert (Hbefore : Forall (within 100) ["10.0.0.0/30"]).
  { constructor; [|constructor]. exists 2. split; [vm_compute; reflexivity|lia]. }
  assert (Hcount : host_count "10.0.1.0/24" = Some 254)
    by (vm_compute; reflexivity).
  split; [exact Hbefore|]. split; [exact Hcount|].
  apply (proj2 (precheck_stops_at_first_offender ["10.0.0.0/30"] "10.0.1.0/24"
                  ["10.0.2.0/33"] [22; 80] (1 # 5) 100 true [] Hbefore) 254 Hcount).
  lia.
Defined.


(** ** The port list *)

Lemma range_sorted_from n : forall a b,
  Z.to_nat (b - a) = n -> StronglySorted Z.lt (Py.range a b).
Proof.
  induction n as [|n IH]; intros a b Hn.
  - rewrite range_nil by lia. constructor.
  - rewrite range_cons by lia. constructor.
    + apply IH. lia.
    + apply List.Forall_forall. intros x Hx. apply range_In in Hx. lia.
Qed.

(** X6: in ["range"] mode the port list is [start, start + 1, ..., end],
    both ends included, in increasing order and without repetition; it is
    empty when [end < start].  The configuration is left as it was. *)
Theorem range_mode_is_inclusive cfg s e
    (Hmode : TcpCfg.mode cfg = Some "range")
    (Hrange : TcpCfg.port_range cfg
              = Some {| TcpCfg.start := Some s; TcpCfg.end_ := Some e |}) :
  exists ports,
    build_port_list cfg = Ok (ports, cfg)
    /\ (forall p, In p ports <-> s <= p <= e)
    /\ StronglySorted Z.lt ports
    /\ NoDup ports
    /\ len ports = Z.max 0 (e - s + 1).
Proof.
  exists (Py.range s (e + 1)). unfold build_port_list. rewrite Hmode, Hrange.
  split; [reflexivity|]. split; [intros p; rewrite range_In; lia|].
  split; [now apply (range_sorted_from (Z.to_nat (e + 1 - s)))|].
  split; [apply range_NoDup|]. unfold len. rewrite range_length. lia.
Qed.

Lemma range_mode_is_inclusive_witness :
  exists ports,
    build_port_list (port_sweep 8000 8003) = Ok (ports, port_sweep 8000 8003)
    /\ (forall p, In p ports <-> 8000 <= p <= 8003)
    /\ StronglySorted Z.lt ports
    /\ NoDup ports
    /\ len ports = Z.max 0 (8003 - 8000 + 1).
Proof.
  apply (range_mode_is_inclusive (port_sweep 8000 8003) 8000 8003); reflexivity.
Defined.




(** ** The ping pool: reports, log lines and the addresses returned *)

Lemma results_split {A} (l : list (result A)) :
  (exists rs, l = List.map Ok rs)
  \/ (exists rs e later, l = List.map Ok rs ++ Raise e :: later).
Proof.
  induction l as [|[a|e] l IH].
  - left. now exists [].
  - destruct IH as [(rs & ->)|(rs & e & later & ->)].
    + left. now exists (a :: rs).
    + right. now exists (a :: rs), e, later.
  - right. now exists [], e, l.
Qed.

Lemma omap_none_on {A B} (f : A -> option B) (P : A -> Prop) l :
  (forall x, P x -> f x = None) -> Forall P l -> omap f l = [].
Proof.
  intros Hf Hall. induction Hall as [|x l Hx Hall IH]; [reflexivity|].
  cbn [omap list_omap]. now rewrite (Hf x Hx).
Qed.

Lemma omap_concat_nil {A B} (f : A -> option B) ls :
  Forall (fun l => omap f l = []) ls -> omap f (concat ls) = [].
Proof.
  induction 1 as [|l ls Hl Hall IH]; [reflexivity|].
  cbn [concat]. now rewrite omap_app, Hl, IH.
Qed.

Lemma len_app {A} (l1 l2 : list A) : len (l1 ++ l2) = len l1 + len l2.
Proof. unfold len. rewrite length_app. lia. Qed.

Lemma len_map {A B} (f : A -> B) l : len (List.map f l) = len l.
Proof. unfold len. now rewrite length_map. Qed.

Lemma len_cons {A} (x : A) l : len (x :: l) = 1 + len l.
Proof. unfold len. cbn [length]. lia. Qed.

Lemma len_nonneg {A} (l : list A) : 0 <= len l.
Proof. unfold len. lia. Qed.

Lemma range_snoc a b : a <= b -> Py.range a (b + 1) = Py.range a b ++ [b].
Proof.
  intros Hab. unfold Py.range.
  replace (Z.to_nat (b + 1 - a)) with (S (Z.to_nat (b - a))) by lia.
  rewrite seq_S, List.map_app. cbn [List.map plus]. do 2 f_equal. lia.
Qed.

Lemma reports_snoc k n : 0 <= k -> reports (k + 1) n = reports k n ++ [(k + 1, n)].
Proof.
  intros Hk. unfold reports. rewrite range_snoc by lia.
  now rewrite List.map_app.
Qed.

Section PoolMore.
Variable ping_reply : list event -> string -> Q -> ping_outcome.
Variable now_str : string -> list event -> string.
Variable as_completed :
  list (result (option (string * Q))) -> list (result (option (string * Q))).
Variable path_join : string -> string -> string.

Local Abbreviation collected := (NetProbeSpec.collected now_str).
Local Abbreviation collect_one := (NetProbeSpec.collect_one now_str).
Local Abbreviation scan := (ping_scan_network ping_reply now_str as_completed path_join).

(** The events of a worker are pings of its address and pauses. *)
Lemma ping_worker_events ip cfg h :
  Forall (fun ev => (exists timeout, ev = EvPing ip timeout) \/ exists d, ev = EvSleep d)
         (snd (ping_worker ping_reply ip cfg h)).
Proof.
  unfold ping_worker.
  eapply retry_run_Forall; [| | apply ping_attempts_run].
  - left. eauto.
  - right. eauto.
Qed.

(** A worker that answers returns its own address. *)
Lemma ping_worker_own_address ip cfg h ip' cost :
  fst (ping_worker ping_reply ip cfg h) = Ok (Some (ip', cost)) -> ip' = ip.
Proof.
  unfold ping_worker.
  pose proof (ping_attempts_run ping_reply ip cfg
                (Z.to_nat (PingCfg.retry cfg + 1)) h) as Hrun.
  intros Heq. rewrite Heq in Hrun. inversion Hrun; congruence.
Qed.

Lemma workers_silent {B} (f : event -> option B) cfg h0 hosts :
  (forall ip timeout, f (EvPing ip timeout) = None) ->
  (forall d, f (EvSleep d) = None) ->
  omap f (concat (List.map snd
            (List.map (fun ip => ping_worker ping_reply ip cfg h0) hosts))) = [].
Proof.
  intros Hp Hs. apply omap_concat_nil. rewrite List.map_map.
  apply List.Forall_forall. intros t Ht. apply in_map_iff in Ht as (ip & <- & _).
  eapply omap_none_on; [|apply ping_worker_events].
  intros ev [[timeout ->]|[d ->]]; auto.
Qed.

(** The scan of a network, unfolded up to the result loop. *)
Lemma ping_scan_network_run cidr cfg log_dir timezone h hosts :
  expand_network cidr = Ok hosts ->
  let log_file := get_network_log path_join log_dir cidr in
  let header := EvWrite log_file (LgPingScan cidr) in
  let futures :=
    List.map (fun ip => ping_worker ping_reply ip cfg (h ++ [header])) hosts in
  let workers := concat (List.map snd futures) in
  let n := len hosts in
  scan cidr cfg log_dir timezone h
  = match for_each (as_completed (List.map fst futures))
            (collect_one log_file timezone n) (0, [])
            (h ++ header :: workers) with
    | (Ok (_, alive), t) =>
        (Ok alive,
         header :: workers
         ++ t ++ [EvWrite log_file (LgEndPing cidr); EvPrint PrNewline])
    | (Raise e, t) => (Raise e, header :: workers ++ t)
    end.
Proof.
  intros Hhosts log_file header futures workers n.
  unfold ping_scan_network. rewrite Hhosts.
  rewrite (run_bind_ok _ _ h hosts []) by reflexivity. rewrite app_nil_r.
  fold log_file. fold header.
  rewrite (run_bind_ok _ _ h tt [header]) by reflexivity.
  rewrite (run_bind_ok _ _ (h ++ [header]) (h ++ [header]) []) by reflexivity.
  rewrite app_nil_r. cbn zeta. fold futures. fold workers.
  rewrite (run_bind_ok _ _ (h ++ [header]) tt workers) by apply emit_all_run.
  rewrite <- app_assoc. cbn [app]. fold n.
  change (fun fu '(done, alive) => _) with (collect_one log_file timezone n).
  unfold mbind at 1. unfold M_bind, bind at 1.
  destruct (for_each _ (collect_one log_file timezone n) (0, [])
              (h ++ header :: workers)) as [[[d alive]|e] t]; [|reflexivity].
  cbn. reflexivity.
Qed.

(** The two ways a scan ends: every result collected, or the exception of
    the first collected result that carries one. *)
Lemma ping_scan_network_cases cidr cfg log_dir timezone h hosts :
  expand_network cidr = Ok hosts ->
  let log_file := get_network_log path_join log_dir cidr in
  let header := EvWrite log_file (LgPingScan cidr) in
  let futures :=
    List.map (fun ip => ping_worker ping_reply ip cfg (h ++ [header])) hosts in
  let workers := concat (List.map snd futures) in
  let n := len hosts in
  (exists rs,
      as_completed (List.map fst futures) = List.map Ok rs
      /\ scan cidr cfg log_dir timezone h
         = (Ok (alive_of rs),
            header :: workers
            ++ collected log_file timezone n (h ++ header :: workers) 0 rs
            ++ [EvWrite log_file (LgEndPing cidr); EvPrint PrNewline]))
  \/ (exists rs e later,
        as_completed (List.map fst futures) = List.map Ok rs ++ Raise e :: later
        /\ scan cidr cfg log_dir timezone h
           = (Raise e,
              header :: workers
              ++ collected log_file timezone n (h ++ header :: workers) 0 rs
              ++ [EvProgress (len rs + 1) n])).
Proof.
  intros Hhosts log_file header futures workers n.
  pose proof (ping_scan_network_run cidr cfg log_dir timezone h hosts Hhosts)
    as Hstart. cbn zeta in Hstart.
  fold log_file header futures workers n in Hstart.
  destruct (results_split (as_completed (List.map fst futures)))
    as [(rs & Hrs)|(rs & e & later & Hrs)].
  - left. exists rs. split; [exact Hrs|].
    rewrite Hstart, Hrs, collect_loop_ok. reflexivity.
  - right. exists rs, e, later. split; [exact Hrs|].
    rewrite Hstart, Hrs.
    rewrite for_each_app, collect_loop_ok, for_each_cons, collect_one_raise.
    unfold len. now rewrite Z.add_0_l.
Qed.

Lemma progress_of_collected log_file timezone n rs : forall h done,
  progress_of (collected log_file timezone n h done rs)
  = List.map (fun i => (i, n)) (Py.range (done + 1) (done + len rs + 1)).
Proof.
  induction rs as [|r rs IH]; intros h done.
  - rewrite range_nil by (unfold len; cbn; lia). reflexivity.
  - rewrite len_cons. pose proof (len_nonneg rs).
    rewrite range_cons by lia. cbn [NetProbeSpec.collected List.map].
    unfold progress_of in *. rewrite omap_app, IH.
    replace (done + 1 + len rs + 1) with (done + (1 + len rs) + 1) by lia.
    now destruct r as [[ip cost]|].
Qed.

Lemma ping_lines_collected log_file timezone n rs : forall h done,
  ping_lines (collected log_file timezone n h done rs)
  = List.map (pair log_file) (alive_of rs).
Proof.
  induction rs as [|r rs IH]; intros h done; [reflexivity|].
  cbn [NetProbeSpec.collected]. unfold ping_lines in *. rewrite omap_app, IH.
  now destruct r as [[ip cost]|].
Qed.


Lemma scan_invalid cidr cfg log_dir timezone h e :
  expand_network cidr = Raise e ->
  scan cidr cfg log_dir timezone h = (Raise e, []).
Proof.
  intros He. unfold ping_scan_network. rewrite He. reflexivity.
Qed.

(** The log lines of a completed scan are those of the addresses it
    returns, in the file of the network. *)
Lemma scan_ping_lines cidr cfg log_dir timezone h alive t :
  scan cidr cfg log_dir timezone h = (Ok alive, t) ->
  ping_lines t = List.map (pair (get_network_log path_join log_dir cidr)) alive.
Proof.
  intros Hrun. destruct (expand_network cidr) as [hosts|e] eqn:Hhosts;
    [|rewrite (scan_invalid _ _ _ _ _ _ Hhosts) in Hrun; discriminate].
  destruct (ping_scan_network_cases cidr cfg log_dir timezone h hosts Hhosts)
    as [(rs & _ & Heq)|(rs & e & later & _ & Heq)];
    rewrite Heq in Hrun; [|discriminate].
  injection Hrun as <- <-.
  change (?x :: ?l ++ ?r) with ([x] ++ l ++ r).
  unfold ping_lines. rewrite !omap_app.
  rewrite workers_silent by reflexivity.
  fold (ping_lines (collected (get_network_log path_join log_dir cidr) timezone
          (len hosts)
          (h ++ EvWrite (get_network_log path_join log_dir cidr) (LgPingScan cidr)
             :: concat (List.map snd (List.map
                  (fun ip => ping_worker ping_reply ip cfg
                     (h ++ [EvWrite (get_network_log path_join log_dir cidr)
                              (LgPingScan cidr)])) hosts))) 0 rs)).
  rewrite ping_lines_collected. cbn. now rewrite app_nil_r.
Qed.

(** The answers of the workers, in the order of the addresses. *)
Lemma alive_of_in_order cfg h0 hosts : forall rs,
  List.map (fun ip => fst (ping_worker ping_reply ip cfg h0)) hosts
  = List.map Ok rs ->
  alive_of rs = List.filter (answered ping_reply cfg h0) hosts.
Proof.
  induction hosts as [|ip hosts IH]; intros [|r rs] Heq; try discriminate.
  - reflexivity.
  - cbn [List.map] in Heq. injection Heq as Hr Heq.
    unfold alive_of in *. cbn [omap list_omap List.filter].
    unfold answered at 1. rewrite Hr. destruct r as [[ip' cost]|]; cbn.
    + apply ping_worker_own_address in Hr as ->. f_equal. now apply IH.
    + now apply IH.
Qed.

Hypothesis as_completed_all : forall fs, Permutation (as_completed fs) fs.

Lemma as_completed_len fs : len (as_completed fs) = len fs.
Proof. unfold len. now rewrite (Permutation_length (as_completed_all fs)). Qed.

(** X8: a scan reports its progress as [1/n, 2/n, ...] where [n] is the
    number of addresses of the network, one report for each result it
    collects: up to [n/n] when it completes, and never beyond.  Every
    report is one [show_progress] can print. *)
Theorem pool_reports_count_up cidr cfg log_dir timezone h hosts r t
    (Hhosts : expand_network cidr = Ok hosts)
    (Hrun : scan cidr cfg log_dir timezone h = (r, t)) :
  exists k,
    progress_of t = reports k (len hosts)
    /\ 0 <= k <= len hosts
    /\ (forall alive, r = Ok alive -> k = len hosts)
    /\ (forall current total,
          In (current, total) (progress_of t) ->
          1 <= current <= total
          /\ exists out, show_progress current total = Ok out).
Proof.
  assert (Hgoal : exists k,
    progress_of t = reports k (len hosts)
    /\ 0 <= k <= len hosts
    /\ (forall alive, r = Ok alive -> k = len hosts)).
  { pose proof (as_completed_len
      (List.map fst (List.map (fun ip => ping_worker ping_reply ip cfg
         (h ++ [EvWrite (get_network_log path_join log_dir cidr)
                  (LgPingScan cidr)])) hosts))) as Hlen.
    rewrite !len_map in Hlen.
    destruct (ping_scan_network_cases cidr cfg log_dir timezone h hosts Hhosts)
      as [(rs & Hrs & Heq)|(rs & e & later & Hrs & Heq)];
      rewrite Heq in Hrun; injection Hrun as <- <-;
      rewrite Hrs in Hlen;
      change (?x :: ?l ++ ?r) with ([x] ++ l ++ r);
      unfold progress_of; rewrite !omap_app;
      rewrite workers_silent by reflexivity;
      match goal with
      | |- context [omap ?f (collected ?a ?b ?c ?d ?e ?g)] =>
          change (omap f (collected a b c d e g))
            with (progress_of (collected a b c d e g))
      end;
      rewrite progress_of_collected; cbn [omap list_omap app].
    - rewrite len_map in Hlen. exists (len rs). rewrite app_nil_r.
      pose proof (len_nonneg rs). repeat split; lia.
    - rewrite len_app, len_map, len_cons in Hlen.
      pose proof (len_nonneg rs). pose proof (len_nonneg later).
      exists (len rs + 1). rewrite reports_snoc by lia.
      repeat split; try lia; try discriminate. }
  destruct Hgoal as (k & Hp & Hk & Hok). exists k.
  repeat split; try assumption; try lia.
  - rewrite Hp in H. unfold reports in H. apply in_map_iff in H as (i & Hi & Hin).
    injection Hi as <- <-. apply range_In in Hin. lia.
  - rewrite Hp in H. unfold reports in H. apply in_map_iff in H as (i & Hi & Hin).
    injection Hi as <- <-. apply range_In in Hin. lia.
  - rewrite Hp in H. unfold reports in H. apply in_map_iff in H as (i & Hi & Hin).
    injection Hi as <- <-. apply range_In in Hin.
    unfold show_progress, truediv, floordiv.
    replace (len hosts =? 0) with false by (symmetry; apply Z.eqb_neq; lia).
    eauto.
Qed.

(** X9: the addresses a completed scan returns do not depend on the order
    in which the pool hands the results back, up to their order: they are
    the addresses of the network whose worker came back with an answer,
    each once, and each has its line in the log file of the network, in
    the order of the returned list. *)
Theorem pool_result_whatever_the_completion_order
    cidr cfg log_dir timezone h alive t
    (Hrun : scan cidr cfg log_dir timezone h = (Ok alive, t)) :
  let log_file := get_network_log path_join log_dir cidr in
  exists hosts,
    expand_network cidr = Ok hosts
    /\ Permutation alive
         (List.filter
            (answered ping_reply cfg (h ++ [EvWrite log_file (LgPingScan cidr)]))
            hosts)
    /\ NoDup alive
    /\ ping_lines t = List.map (pair log_file) alive.
Proof.
  intros log_file.
  pose proof (scan_ping_lines _ _ _ _ _ _ _ Hrun) as Hlines.
  destruct (expand_network cidr) as [hosts|e] eqn:Hhosts;
    [|rewrite (scan_invalid _ _ _ _ _ _ Hhosts) in Hrun; discriminate].
  exists hosts. split; [reflexivity|].
  assert (Hperm : Permutation alive
    (List.filter
       (answered ping_reply cfg (h ++ [EvWrite log_file (LgPingScan cidr)]))
       hosts)).
  { destruct (ping_scan_network_cases cidr cfg log_dir timezone h hosts Hhosts)
      as [(rs & Hrs & Heq)|(rs & e & later & _ & Heq)];
      rewrite Heq in Hrun; [|discriminate].
    injection Hrun as <- _.
    pose proof (as_completed_all
      (List.map fst (List.map (fun ip => ping_worker ping_reply ip cfg
         (h ++ [EvWrite log_file (LgPingScan cidr)])) hosts))) as Hp.
    fold log_file in Hrs. rewrite Hrs in Hp. symmetry in Hp.
    apply Permutation_map_inv in Hp as (rs' & Hfs & Hp).
    rewrite List.map_map in Hfs. apply alive_of_in_order in Hfs as <-.
    unfold alive_of. now rewrite Hp. }
  split; [exact Hperm|]. split; [|exact Hlines].
  rewrite Hperm. apply NoDup_ListNoDup, List.NoDup_filter, NoDup_ListNoDup.
  now apply (expand_network_NoDup cidr).
Qed.

End PoolMore.

Lemma last_first_all fs : Permutation (last_first fs) fs.
Proof. symmetry. apply Permutation_rev. Qed.

Lemma pool_reports_count_up_witness :
  exists k,
    progress_of (snd example_scan) = reports k (len ["10.0.0.1"; "10.0.0.2"])
    /\ 0 <= k <= len ["10.0.0.1"; "10.0.0.2"]
    /\ (forall alive,
          fst example_scan = Ok alive -> k = len ["10.0.0.1"; "10.0.0.2"])
    /\ (forall current total,
          In (current, total) (progress_of (snd example_scan)) ->
          1 <= current <= total
          /\ exists out, show_progress current total = Ok out).
Proof.
  apply (pool_reports_count_up only_second_answers frozen_clock last_first
           slash_join last_first_all "10.0.0.0/30"
           (ping_once_cfg ["10.0.0.0/30"] 1) "./logs" "UTC" []).
  - vm_compute. reflexivity.
  - vm_compute. reflexivity.
Defined.

Lemma pool_result_whatever_the_completion_order_witness :
  exists hosts,
    expand_network "10.0.0.0/30" = Ok hosts
    /\ Permutation ["10.0.0.2"]
         (List.filter
            (answered only_second_answers (ping_once_cfg ["10.0.0.0/30"] 1)
               ([] ++ [EvWrite (get_network_log slash_join "./logs" "10.0.0.0/30")
                         (LgPingScan "10.0.0.0/30")]))
            hosts)
    /\ NoDup ["10.0.0.2"]
    /\ ping_lines (snd example_scan)
       = List.map (pair (get_network_log slash_join "./logs" "10.0.0.0/30"))
                  ["10.0.0.2"].
Proof.
  apply (pool_result_whatever_the_completion_order only_second_answers
           frozen_clock last_first slash_join last_first_all "10.0.0.0/30"
           (ping_once_cfg ["10.0.0.0/30"] 1) "./logs" "UTC" []
           ["10.0.0.2"] (snd example_scan)).
  vm_compute. reflexivity.
Defined.

(** ** The progress bar *)

(** X10: [show_progress] fails with a [ZeroDivisionError] on a total of
    0.  For [0 <= current <= total] with a positive total it prints a bar
    of exactly 30 cells, [30 * current // total] filled ones followed by
    dashes, full exactly when [current = total], and a percentage between
    0 and 100. *)
Theorem show_progress_bar :
  (forall current, show_progress current 0 = Raise ZeroDivisionError)
  /\ (forall current total,
        0 <= current <= total -> 0 < total ->
        exists filled,
          show_progress current total
          = Ok (str_mul full_block filled ++ str_mul dash (30 - filled),
                (inject_Z current / inject_Z total * 100)%Q)
          /\ filled = 30 * current / total
          /\ 0 <= filled <= 30
          /\ len (str_mul full_block filled ++ str_mul dash (30 - filled)) = 30
          /\ (filled = 30 <-> current = total)
          /\ (0 <= inject_Z current / inject_Z total * 100 <= 100)%Q).
Proof.
  split; [reflexivity|]. intros current total Hc Ht.
  exists (30 * current / total).
  assert (Hf : 0 <= 30 * current / total <= 30)
    by (split; [apply Z.div_pos; lia | apply Z.div_le_upper_bound; lia]).
  split.
  { unfold show_progress, truediv, floordiv.
    replace (total =? 0) with false by (symmetry; apply Z.eqb_neq; lia).
    reflexivity. }
  split; [reflexivity|]. split; [exact Hf|]. split.
  { unfold len, str_mul. rewrite length_app, !repeat_length. lia. }
  split.
  { split.
    - intros H30. assert (30 * total <= 30 * current); [|lia].
      rewrite <- H30 at 1. rewrite Z.mul_comm. apply Z.mul_div_le. lia.
    - intros ->. apply Z.div_mul. lia. }
  destruct total as [|p|p]; try lia.
  unfold Qle, Qdiv, Qmult, Qinv, inject_Z. cbn. lia.
Qed.

Lemma show_progress_bar_witness :
  exists filled,
    show_progress 3 4
    = Ok (str_mul full_block filled ++ str_mul dash (30 - filled),
          (inject_Z 3 / inject_Z 4 * 100)%Q)
    /\ filled = 30 * 3 / 4
    /\ 0 <= filled <= 30
    /\ len (str_mul full_block filled ++ str_mul dash (30 - filled)) = 30
    /\ (filled = 30 <-> 3 = 4)
    /\ (0 <= inject_Z 3 / inject_Z 4 * 100 <= 100)%Q.
Proof. apply (proj2 show_progress_bar 3 4); lia. Defined.

(** ** The TCP phase: targets, amount of work, completion *)

Lemma for_each_Forall_in {A S} (P : event -> Prop) (body : A -> S -> M event S) l :
  (forall x s h, In x l -> Forall P (snd (body x s h))) ->
  forall s h, Forall P (snd (for_each l body s h)).
Proof.
  induction l as [|x l IH]; intros Hbody s h; [constructor|].
  rewrite for_each_cons. pose proof (Hbody x s h (or_introl eq_refl)) as Hx.
  destruct (body x s h) as [[s1|e] t1]; cbn [snd] in *; [|exact Hx].
  assert (IH' := IH (fun y s' h' Hy => Hbody y s' h' (or_intror Hy)) s1 (h ++ t1)).
  destruct (for_each l body s1 (h ++ t1)) as [r t2]. cbn [snd] in *.
  apply Forall_app. split; assumption.
Qed.

Lemma sleeps_app t1 t2 : sleeps (t1 ++ t2) = sleeps t1 + sleeps t2.
Proof. unfold sleeps, len. rewrite List.filter_app, length_app. lia. Qed.

Lemma sleeps_rounds k probe pause :
  is_sleep probe = false -> is_sleep pause = true ->
  sleeps (rounds k [probe; pause]) = Z.of_nat k.
Proof.
  intros Hp Hs. induction k as [|k IH]; [reflexivity|].
  cbn [rounds]. rewrite sleeps_app, IH. unfold sleeps, len. simpl.
  rewrite Hp, Hs. simpl. lia.
Qed.

(** A retrying prober that returns has made between one attempt and its
    budget of attempts, and as many pauses as attempts. *)
Lemma retry_run_returned {A} probe pause (mk : Q -> A) fails hits faults
    budget (r : option A) t :
  is_attempt probe = true -> is_attempt pause = false ->
  is_sleep probe = false -> is_sleep pause = true ->
  (0 < budget)%nat ->
  retry_run probe pause mk fails hits faults budget (Ok r) t ->
  1 <= attempts t <= Z.of_nat budget /\ sleeps t = attempts t.
Proof.
  intros Hp Hs Hp' Hs' Hb Hrun. inversion Hrun; subst.
  - rewrite attempts_rounds, sleeps_rounds by assumption. lia.
  - rewrite attempts_rounds, sleeps_rounds by assumption. lia.
Qed.

Section TcpMore.
Variable connect_reply : list event -> string -> Z -> Q -> connect_outcome.

Local Abbreviation tcp_answer := (NetProbeSpec.tcp_answer connect_reply).

Lemma tcp_with_retry_on_targets cfg ip port h alive_ips ports :
  In ip alive_ips -> In port ports ->
  Forall (on_targets alive_ips ports)
         (snd (tcp_with_retry connect_reply ip port cfg h)).
Proof.
  intros Hip Hport. unfold tcp_with_retry.
  eapply retry_run_Forall; [| | apply tcp_attempts_run]; cbn; auto.
Qed.

Lemma tcp_probe_pair_on_targets cfg ip port stats h alive_ips ports :
  In ip alive_ips -> In port ports ->
  Forall (on_targets alive_ips ports)
         (snd (tcp_probe_pair connect_reply cfg ip port stats h)).
Proof.
  intros Hip Hport.
  pose proof (tcp_with_retry_on_targets cfg ip port h alive_ips ports Hip Hport)
    as Hr.
  destruct (Dict.store stats !! port) as [s|] eqn:Hs.
  - rewrite (tcp_probe_pair_run connect_reply cfg ip port stats h s Hs).
    destruct (tcp_with_retry connect_reply ip port cfg h) as [[[c|]|e] t];
      cbn [snd] in *; try exact Hr.
    apply Forall_app. split; [exact Hr|]. repeat constructor; assumption.
  - rewrite tcp_probe_pair_absent by exact Hs. constructor.
Qed.

Lemma tcp_phase_on_targets alive_ips ports cfg stats h :
  Forall (on_targets alive_ips ports)
         (snd (tcp_phase connect_reply alive_ips ports cfg stats h)).
Proof.
  unfold tcp_phase. apply for_each_Forall_in. intros ip s1 h1 Hip.
  apply for_each_Forall_in. intros port s2 h2 Hport.
  now apply tcp_probe_pair_on_targets.
Qed.


Lemma tcp_with_retry_returned cfg ip port h r t :
  0 <= TcpCfg.retry cfg ->
  tcp_with_retry connect_reply ip port cfg h = (Ok r, t) ->
  1 <= attempts t <= TcpCfg.retry cfg + 1 /\ sleeps t = attempts t.
Proof.
  intros Hretry Hrun.
  pose proof (tcp_attempts_run connect_reply ip port cfg
                (Z.to_nat (TcpCfg.retry cfg + 1)) h) as Hr.
  unfold tcp_with_retry in Hrun. rewrite Hrun in Hr. cbn [fst snd] in Hr.
  apply retry_run_returned in Hr; try reflexivity; lia.
Qed.

Lemma tcp_probe_pair_work cfg ip port stats h stats' t :
  0 <= TcpCfg.retry cfg ->
  tcp_probe_pair connect_reply cfg ip port stats h = (Ok stats', t) ->
  1 <= attempts t <= TcpCfg.retry cfg + 1 /\ sleeps t = attempts t.
Proof.
  intros Hretry Hrun.
  destruct (Dict.store stats !! port) as [s|] eqn:Hs;
    [|rewrite tcp_probe_pair_absent in Hrun by exact Hs; discriminate].
  rewrite (tcp_probe_pair_run connect_reply cfg ip port stats h s Hs) in Hrun.
  destruct (tcp_with_retry connect_reply ip port cfg h) as [[[c|]|e] t0] eqn:Hr;
    [| |discriminate]; injection Hrun as <- <-;
    apply (tcp_with_retry_returned _ _ _ _ _ _ Hretry) in Hr.
  - rewrite attempts_app, sleeps_app.
    change (attempts [EvPrint (PrTcpOk ip port c)]) with 0.
    change (sleeps [EvPrint (PrTcpOk ip port c)]) with 0. lia.
  - exact Hr.
Qed.

Lemma ports_loop_work cfg ip ports : forall stats h stats' t,
  0 <= TcpCfg.retry cfg ->
  for_each ports (tcp_probe_pair connect_reply cfg ip) stats h = (Ok stats', t) ->
  len ports <= attempts t <= len ports * (TcpCfg.retry cfg + 1)
  /\ sleeps t = attempts t.
Proof.
  induction ports as [|port ports IH]; intros stats h stats' t Hretry Hrun.
  - injection Hrun as <- <-. unfold attempts, sleeps, len.
    cbn [List.filter length]. lia.
  - rewrite for_each_cons in Hrun.
    destruct (tcp_probe_pair connect_reply cfg ip port stats h)
      as [[s1|e] t1] eqn:H1; [|discriminate].
    destruct (for_each ports _ s1 (h ++ t1)) as [r t2] eqn:H2.
    injection Hrun as -> <-.
    apply tcp_probe_pair_work in H1; [|assumption].
    apply IH in H2; [|assumption].
    rewrite attempts_app, sleeps_app, len_cons. lia.
Qed.

(** X12: with a retry count [r >= 0], a completed TCP phase over [a]
    addresses and [p] listed ports has made at least [a * p] and at most
    [a * p * (r + 1)] connection attempts, and has paused once after each
    of them. *)
Theorem tcp_phase_work_bounds alive_ips ports cfg stats h stats' t
    (Hretry : 0 <= TcpCfg.retry cfg)
    (Hrun : tcp_phase connect_reply alive_ips ports cfg stats h = (Ok stats', t)) :
  len alive_ips * len ports <= attempts t
  /\ attempts t <= len alive_ips * len ports * (TcpCfg.retry cfg + 1)
  /\ sleeps t = attempts t.
Proof.
  unfold tcp_phase in Hrun. revert stats h stats' t Hrun.
  induction alive_ips as [|ip ips IH]; intros stats h stats' t Hrun.
  - injection Hrun as <- <-. unfold attempts, sleeps, len.
    cbn [List.filter length]. lia.
  - rewrite for_each_cons in Hrun.
    destruct (for_each ports _ stats h) as [[s1|e] t1] eqn:H1; [|discriminate].
    destruct (for_each ips _ s1 (h ++ t1)) as [r t2] eqn:H2.
    injection Hrun as -> <-.
    apply ports_loop_work in H1; [|assumption].
    apply IH in H2.
    rewrite attempts_app, sleeps_app, len_cons. nia.
Qed.

(** An exception that leaves a prober was raised by the world. *)
Lemma tcp_with_retry_raise cfg ip port h e t :
  tcp_with_retry connect_reply ip port cfg h = (Raise e, t) ->
  exists h', tcp_faults (connect_reply h' ip port (TcpCfg.timeout cfg)) e.
Proof.
  intros Hrun.
  pose proof (tcp_attempts_run connect_reply ip port cfg
                (Z.to_nat (TcpCfg.retry cfg + 1)) h) as Hr.
  unfold tcp_with_retry in Hrun. rewrite Hrun in Hr. cbn [fst snd] in Hr.
  inversion Hr; subst. unfold NetProbeSpec.tcp_answer in *. eauto.
Qed.

Lemma tcp_probe_pair_keeps cfg ip port stats h stats' t (P : Z -> Prop) :
  (forall p, P p -> is_Some (Dict.store stats !! p)) ->
  tcp_probe_pair connect_reply cfg ip port stats h = (Ok stats', t) ->
  forall p, P p -> is_Some (Dict.store stats' !! p).
Proof.
  intros Hcov Hrun p Hp. apply tcp_probe_pair_counts in Hrun as [Hl _].
  rewrite Hl. destruct (Hcov p Hp) as [s ->]. cbn. eauto.
Qed.

Lemma ports_loop_raise cfg ip ports (P : Z -> Prop) : forall stats h,
  (forall p, In p ports -> P p) ->
  (forall p, P p -> is_Some (Dict.store stats !! p)) ->
  match for_each ports (tcp_probe_pair connect_reply cfg ip) stats h with
  | (Ok stats', _) => forall p, P p -> is_Some (Dict.store stats' !! p)
  | (Raise e, _) =>
      exists h' port,
        In port ports
        /\ tcp_faults (connect_reply h' ip port (TcpCfg.timeout cfg)) e
  end.
Proof.
  induction ports as [|port ports IH]; intros stats h Hin Hcov; [exact Hcov|].
  rewrite for_each_cons.
  destruct (Hcov port (Hin port (or_introl eq_refl))) as [s Hs].
  pose proof (tcp_probe_pair_keeps cfg ip port stats h) as Hkeep.
  rewrite (tcp_probe_pair_run connect_reply cfg ip port stats h s Hs) in *.
  destruct (tcp_with_retry connect_reply ip port cfg h) as [[[c|]|e] t0] eqn:Hr.
  - specialize (IH (Dict.setitem port (bump 1 1 s) stats)
                   (h ++ t0 ++ [EvPrint (PrTcpOk ip port c)])
                   (fun p Hp => Hin p (or_intror Hp))
                   (Hkeep _ _ P Hcov eq_refl)).
    destruct (for_each ports _ _ _) as [[s2|e] t2]; [exact IH|].
    destruct IH as (h' & q & Hq & Hf). exists h', q. split; [now right|exact Hf].
  - specialize (IH (Dict.setitem port (bump 1 0 s) stats) (h ++ t0)
                   (fun p Hp => Hin p (or_intror Hp))
                   (Hkeep _ _ P Hcov eq_refl)).
    destruct (for_each ports _ _ _) as [[s2|e] t2]; [exact IH|].
    destruct IH as (h' & q & Hq & Hf). exists h', q. split; [now right|exact Hf].
  - apply tcp_with_retry_raise in Hr as [h' Hf]. exists h', port.
    split; [now left|exact Hf].
Qed.

Lemma tcp_phase_raise cfg ports alive_ips : forall stats h,
  (forall p, In p ports -> is_Some (Dict.store stats !! p)) ->
  match tcp_phase connect_reply alive_ips ports cfg stats h with
  | (Ok stats', _) => forall p, In p ports -> is_Some (Dict.store stats' !! p)
  | (Raise e, _) =>
      exists h' ip port,
        In ip alive_ips /\ In port ports
        /\ tcp_faults (connect_reply h' ip port (TcpCfg.timeout cfg)) e
  end.
Proof.
  unfold tcp_phase.
  induction alive_ips as [|ip ips IH]; intros stats h Hcov; [exact Hcov|].
  rewrite for_each_cons.
  pose proof (ports_loop_raise cfg ip ports (fun p => In p ports) stats h
                (fun p Hp => Hp) Hcov) as H1.
  destruct (for_each ports _ stats h) as [[s1|e] t1].
  - specialize (IH s1 (h ++ t1) H1).
    destruct (for_each ips _ s1 (h ++ t1)) as [[s2|e] t2]; [exact IH|].
    destruct IH as (h' & ip' & q & Hip & Hq & Hf). exists h', ip', q.
    repeat split; [now right|assumption..].
  - destruct H1 as (h' & q & Hq & Hf). exists h', ip, q.
    repeat split; [now left|assumption..].
Qed.

Lemma zeroed_covers ports p : In p ports -> is_Some (Dict.store (zeroed ports) !! p).
Proof.
  intros Hp. unfold zeroed. rewrite comprehension_lookup.
  rewrite decide_True by (now apply list_elem_of_In). eauto.
Qed.


End TcpMore.


Lemma tcp_phase_work_bounds_witness :
  len ["10.0.0.1"; "10.0.0.2"] * len [80; 443] <= attempts (snd example_tcp_phase)
  /\ attempts (snd example_tcp_phase)
     <= len ["10.0.0.1"; "10.0.0.2"] * len [80; 443]
        * (TcpCfg.retry (tcp_list [80; 443] 1) + 1)
  /\ sleeps (snd example_tcp_phase) = attempts (snd example_tcp_phase).
Proof.
  apply (tcp_phase_work_bounds second_try ["10.0.0.1"; "10.0.0.2"] [80; 443]
           (tcp_list [80; 443] 1) (zeroed [80; 443]) []
           (stats_of example_tcp_phase)).
  - cbn. lia.
  - vm_compute. reflexivity.
Defined.


(** ** The phases of [main] together *)

Lemma connects_app t1 t2 : connects (t1 ++ t2) = connects t1 ++ connects t2.
Proof. apply omap_app. Qed.

Lemma ping_lines_app t1 t2 : ping_lines (t1 ++ t2) = ping_lines t1 ++ ping_lines t2.
Proof. apply omap_app. Qed.

Lemma for_each_silent {A S B} (f : event -> option B)
    (body : A -> S -> M event S) l :
  (forall x s h, omap f (snd (body x s h)) = []) ->
  forall s h, omap f (snd (for_each l body s h)) = [].
Proof.
  intros Hbody. induction l as [|x l IH]; intros s h; [reflexivity|].
  rewrite for_each_cons. specialize (Hbody x s h).
  destruct (body x s h) as [[s1|e] t1]; cbn [snd] in *; [|exact Hbody].
  specialize (IH s1 (h ++ t1)).
  destruct (for_each l body s1 (h ++ t1)) as [r t2]. cbn [snd] in *.
  now rewrite omap_app, Hbody, IH.
Qed.

Lemma precheck_connects networks ports rate_limit max_hosts estimate h :
  connects (snd (precheck_networks networks ports rate_limit max_hosts estimate h))
  = [].
Proof.
  unfold precheck_networks.
  change (fun cidr total_hosts => _) with (check_one max_hosts).
  destruct (check_loop_run max_hosts networks 0 h) as [Ht _].
  destruct (for_each networks (check_one max_hosts) 0 h) as [[tot|e] t] eqn:Hrun;
    cbn [snd] in Ht; subst t.
  - rewrite (run_bind_ok _ _ _ _ _ Hrun). now destruct estimate.
  - now rewrite (run_bind_raise _ _ _ _ _ Hrun).
Qed.

Section MainMore.
Variable ping_reply : list event -> string -> Q -> ping_outcome.
Variable connect_reply : list event -> string -> Z -> Q -> connect_outcome.
Variable now_str : string -> list event -> string.
Variable as_completed :
  list (result (option (string * Q))) -> list (result (option (string * Q))).
Variable path_join : string -> string -> string.

Local Abbreviation collected := (NetProbeSpec.collected now_str).
Local Abbreviation scan := (ping_scan_network ping_reply now_str as_completed path_join).
Local Abbreviation scan_one :=
  (NetProbeMore.scan_one ping_reply now_str as_completed path_join).
Local Abbreviation ping_phase :=
  (NetProbe.ping_phase ping_reply now_str as_completed path_join).
Local Abbreviation main :=
  (NetProbe.main ping_reply connect_reply now_str as_completed path_join).

Lemma collected_connects log_file timezone n rs : forall h done,
  connects (collected log_file timezone n h done rs) = [].
Proof.
  induction rs as [|r rs IH]; intros h done; [reflexivity|].
  cbn [NetProbeSpec.collected]. rewrite connects_app, IH.
  now destruct r as [[ip cost]|].
Qed.

Lemma scan_connects cidr cfg log_dir timezone h :
  connects (snd (scan cidr cfg log_dir timezone h)) = [].
Proof.
  destruct (expand_network cidr) as [hosts|e] eqn:Hhosts;
    [|now rewrite (scan_invalid _ _ _ _ _ _ _ _ _ _ Hhosts)].
  destruct (ping_scan_network_cases ping_reply now_str as_completed path_join
              cidr cfg log_dir timezone h hosts Hhosts)
    as [(rs & _ & Heq)|(rs & e & later & _ & Heq)]; rewrite Heq; cbn [snd];
    change (?x :: ?l ++ ?r) with ([x] ++ l ++ r);
    rewrite !connects_app, collected_connects;
    unfold connects; now rewrite workers_silent by reflexivity.
Qed.

Lemma scan_one_run ping_cfg log_dir timezone cidr alive_ips h :
  scan_one ping_cfg log_dir timezone cidr alive_ips h
  = match scan cidr ping_cfg log_dir timezone (h ++ [EvPrint (PrPingStart cidr)]) with
    | (Ok alive, t) => (Ok (alive_ips ++ alive), EvPrint (PrPingStart cidr) :: t)
    | (Raise e, t) => (Raise e, EvPrint (PrPingStart cidr) :: t)
    end.
Proof.
  unfold NetProbeMore.scan_one.
  rewrite (run_bind_ok _ _ h tt [EvPrint (PrPingStart cidr)]) by reflexivity.
  unfold mbind at 1. unfold M_bind, bind at 1.
  destruct (scan cidr ping_cfg log_dir timezone _) as [[alive|e] t];
    [|reflexivity].
  cbn. now rewrite app_nil_r.
Qed.

Lemma ping_phase_connects ping_cfg log_dir timezone h :
  connects (snd (ping_phase ping_cfg log_dir timezone h)) = [].
Proof.
  unfold NetProbe.ping_phase.
  change (fun cidr alive_ips => _) with (scan_one ping_cfg log_dir timezone).
  apply for_each_silent. intros cidr alive_ips h1. rewrite scan_one_run.
  pose proof (scan_connects cidr ping_cfg log_dir timezone
                (h1 ++ [EvPrint (PrPingStart cidr)])) as Hs.
  destruct (scan cidr ping_cfg log_dir timezone _) as [[alive|e] t];
    cbn [snd] in *; exact Hs.
Qed.

(** The addresses the ping phase returns are those of its log lines. *)
Lemma ping_phase_ping_lines ping_cfg log_dir timezone h alive_ips t :
  ping_phase ping_cfg log_dir timezone h = (Ok alive_ips, t) ->
  alive_ips = List.map snd (ping_lines t).
Proof.
  unfold NetProbe.ping_phase.
  change (fun cidr alive_ips => _) with (scan_one ping_cfg log_dir timezone).
  assert (Hgen : forall networks acc h alive_ips t,
    for_each networks (scan_one ping_cfg log_dir timezone) acc h
    = (Ok alive_ips, t) ->
    alive_ips = acc ++ List.map snd (ping_lines t)).
  { clear. induction networks as [|cidr networks IH];
      intros acc h alive_ips t Hrun.
    - injection Hrun as <- <-. cbn. now rewrite app_nil_r.
    - rewrite for_each_cons, scan_one_run in Hrun.
      destruct (scan cidr ping_cfg log_dir timezone _) as [[alive|e] t1] eqn:Hs;
        [|discriminate].
      destruct (for_each networks _ _ _) as [r t2] eqn:H2.
      injection Hrun as -> <-. apply IH in H2 as ->.
      apply scan_ping_lines in Hs.
      change (ping_lines (EvPrint (PrPingStart cidr) :: t1 ++ t2))
        with (ping_lines (t1 ++ t2)).
      rewrite ping_lines_app, Hs, List.map_app, List.map_map. cbn [snd].
      rewrite List.map_id. now rewrite app_assoc. }
  intros Hrun. now apply Hgen in Hrun.
Qed.

Lemma summary_block_connects file ts n (items : list (Z * stat)) :
  connects (EvWrite file (LgSummary ts) :: EvWrite file (LgAliveHosts n)
            :: List.map (port_line file) items) = [].
Proof.
  cbn [connects omap list_omap connect_of].
  induction items as [|item items IH]; [reflexivity|exact IH].
Qed.

(** X14: [main] never connects to an address it has not logged as
    answering a ping, nor to a port outside the port list, and it connects
    to nothing at all when the TCP scan is not enabled -- whatever the
    world answers and however the run ends. *)
Theorem main_connects_only_to_logged_hosts cfg h host port :
  In (host, port) (connects (snd (main cfg h))) ->
  In host (List.map snd (ping_lines (snd (main cfg h))))
  /\ exists ports tcp_cfg,
       build_port_list (tcp_scan cfg) = Ok (ports, tcp_cfg)
       /\ In port ports
       /\ TcpCfg.enable tcp_cfg = true
       /\ TcpCfg.enable (tcp_scan cfg) = true.
Proof.
  unfold NetProbe.main.
  destruct (build_port_list (tcp_scan cfg)) as [[ports tcp_cfg]|e] eqn:Hbuild;
    [|intros []].
  rewrite (run_bind_ok _ _ h (ports, tcp_cfg) []) by reflexivity.
  rewrite app_nil_r. cbn beta iota zeta.
  set (log_dir := default "./logs" (NetProbe.log_dir (target cfg))).
  set (timezone := default "Asia/Bangkok" (NetProbe.timezone (target cfg))).
  fold (zeroed ports).
  pose proof (precheck_connects (PingCfg.networks (ping_scan cfg)) ports
    (TcpCfg.rate_limit tcp_cfg)
    (default 1024 (max_hosts (default {| max_hosts := None; estimate_time := None |}
                                (NetProbe.scan cfg))))
    (default true (estimate_time
       (default {| max_hosts := None; estimate_time := None |} (NetProbe.scan cfg))))
    h) as Hc1.
  destruct (precheck_networks _ _ _ _ _ h) as [[[]|e] t1] eqn:Hpre;
    cbn [snd] in Hc1;
    [|rewrite (run_bind_raise _ _ _ _ _ Hpre); cbn [snd app]; rewrite Hc1;
      intros []].
  rewrite (run_bind_ok _ _ h tt t1 Hpre).
  pose proof (ping_phase_connects (ping_scan cfg) log_dir timezone (h ++ t1))
    as Hc2.
  destruct (ping_phase (ping_scan cfg) log_dir timezone (h ++ t1))
    as [[alive_ips|e] t2] eqn:Hping; cbn [snd] in Hc2;
    [|rewrite (run_bind_raise _ _ _ _ _ Hping); cbn [snd app];
      rewrite connects_app, Hc1, Hc2; intros []].
  rewrite (run_bind_ok _ _ (h ++ t1) alive_ips t2 Hping).
  rewrite (run_bind_ok _ _ ((h ++ t1) ++ t2) tt [EvPrint (PrAlive (len alive_ips))])
    by reflexivity.
  apply ping_phase_ping_lines in Hping.
  set (h3 := ((h ++ t1) ++ t2) ++ [EvPrint (PrAlive (len alive_ips))]).
  assert (Henable : TcpCfg.enable tcp_cfg = TcpCfg.enable (tcp_scan cfg)).
  { clear -Hbuild. unfold build_port_list in Hbuild.
    repeat match type of Hbuild with
           | context [if ?b then _ else _] => destruct b
           | context [match ?x with _ => _ end] => destruct x
           end; try discriminate; now injection Hbuild as <- <-. }
  destruct (TcpCfg.enable tcp_cfg) eqn:Hen.
  - pose proof (tcp_phase_on_targets connect_reply alive_ips ports tcp_cfg
                  (zeroed ports) (h3 ++ [EvPrint PrTcpStart])) as Ht3.
    assert (Hstart :
      (emit (EvPrint PrTcpStart);;
       tcp_phase connect_reply alive_ips ports tcp_cfg (zeroed ports)) h3
      = (fst (tcp_phase connect_reply alive_ips ports tcp_cfg (zeroed ports)
                (h3 ++ [EvPrint PrTcpStart])),
         EvPrint PrTcpStart
         :: snd (tcp_phase connect_reply alive_ips ports tcp_cfg (zeroed ports)
                   (h3 ++ [EvPrint PrTcpStart])))).
    { rewrite (run_bind_ok _ _ h3 tt [EvPrint PrTcpStart]) by reflexivity.
      now destruct (tcp_phase _ _ _ _ _ _). }
    destruct (tcp_phase connect_reply alive_ips ports tcp_cfg (zeroed ports)
                (h3 ++ [EvPrint PrTcpStart])) as [r3 t3].
    cbn [fst snd] in *.
    assert (Hin3 : In (host, port) (connects t3) ->
                   In host alive_ips /\ In port ports).
    { clear -Ht3. unfold connects. intros Hin.
      apply list_elem_of_In, list_elem_of_omap in Hin as (ev & Hev & Hco).
      apply list_elem_of_In in Hev. rewrite List.Forall_forall in Ht3.
      specialize (Ht3 ev Hev). destruct ev; try discriminate.
      cbn in Hco. injection Hco as -> ->. exact Ht3. }
    assert (Hlines : forall rest,
      In host alive_ips ->
      In host (List.map snd (ping_lines
                 (t1 ++ t2 ++ [EvPrint (PrAlive (len alive_ips))] ++ rest)))).
    { intros rest Hh. rewrite !ping_lines_app, !List.map_app, <- Hping.
      apply in_or_app. right. apply in_or_app. now left. }
    destruct r3 as [stats'|e].
    + rewrite (run_bind_ok _ _ h3 stats' _ Hstart).
      rewrite (run_bind_ok _ _ _ tt _ (summarize_run _ _ _ _ _ _ _)).
      cbn [emit]. unfold emit. cbn [snd].
      rewrite !connects_app, Hc1, Hc2. cbn [app].
      change (EvPrint PrTcpStart :: t3) with ([EvPrint PrTcpStart] ++ t3).
      rewrite !connects_app, summary_block_connects.
      cbn [connects omap list_omap connect_of app].
      rewrite app_nil_r. intros Hin. destruct (Hin3 Hin) as [Hh Hp].
      split; [|exists ports, tcp_cfg; now rewrite <- Henable].
      repeat rewrite <- app_assoc. apply Hlines, Hh.
    + rewrite (run_bind_raise _ _ h3 e _ Hstart). cbn [snd].
      rewrite !connects_app, Hc1, Hc2. cbn [app].
      change (EvPrint PrTcpStart :: t3) with ([EvPrint PrTcpStart] ++ t3).
      rewrite !connects_app. cbn [connects omap list_omap connect_of app].
      intros Hin. destruct (Hin3 Hin) as [Hh Hp].
      split; [|exists ports, tcp_cfg; now rewrite <- Henable].
      repeat rewrite <- app_assoc. apply Hlines, Hh.
  - rewrite (run_bind_ok _ _ h3 (zeroed ports) []) by reflexivity.
    rewrite (run_bind_ok _ _ _ tt _ (summarize_run _ _ _ _ _ _ _)).
    cbn [emit]. unfold emit. cbn [snd].
    rewrite !connects_app, Hc1, Hc2, summary_block_connects. cbn. intros [].
Qed.

End MainMore.

Lemma main_connects_only_to_logged_hosts_witness :
  In ("10.0.0.2", 22) (connects (snd example_main))
  /\ In "10.0.0.2" (List.map snd (ping_lines (snd example_main)))
  /\ exists ports tcp_cfg,
       build_port_list (tcp_scan (small_scan ["10.0.0.0/30"] None true))
       = Ok (ports, tcp_cfg)
       /\ In 22 ports
       /\ TcpCfg.enable tcp_cfg = true
       /\ TcpCfg.enable (tcp_scan (small_scan ["10.0.0.0/30"] None true)) = true.
Proof.
  assert (Hin : In ("10.0.0.2", 22) (connects (snd example_main)))
    by (vm_compute; left; reflexivity).
  split; [exact Hin|].
  apply (main_connects_only_to_logged_hosts only_second_answers refuses
           frozen_clock in_order slash_join
           (small_scan ["10.0.0.0/30"] None true) [] "10.0.0.2" 22 Hin).
Defined.

(** ** The summary block after the TCP phase *)

Lemma setitem_keys_present {V} k (v : V) d :
  k ∈ Dict.keys d -> Dict.keys (Dict.setitem k v d) = Dict.keys d.
Proof. intros Hk. unfold Dict.setitem. cbn. now rewrite decide_True. Qed.

Lemma setitem_keys_cover {V} k (v : V) d :
  keys_cover d -> keys_cover (Dict.setitem k v d).
Proof.
  intros Hd p. rewrite lookup_setitem. unfold Dict.setitem. cbn [Dict.keys].
  destruct (decide (k = p)) as [->|Hne].
  - intros _. destruct (decide (p ∈ Dict.keys d)); [assumption|].
    apply elem_of_app. right. now apply list_elem_of_singleton.
  - intros Hp. specialize (Hd p Hp).
    destruct (decide (k ∈ Dict.keys d)); [assumption|].
    apply elem_of_app. now left.
Qed.

Lemma setitem_keys_absent {V} k (v : V) d :
  k ∉ Dict.keys d -> Dict.keys (Dict.setitem k v d) = Dict.keys d ++ [k].
Proof. intros Hk. unfold Dict.setitem. cbn. now rewrite decide_False. Qed.

(** The key order of [{k: f(k) for k in ks}]. *)
Lemma comprehension_key_order {V} (f : Z -> V) ks :
  Dict.keys (Dict.comprehension f ks) = first_listed ks.
Proof.
  unfold Dict.comprehension.
  assert (H : forall d,
    Dict.keys (fold_left (fun d k => Dict.setitem k (f k) d) ks d)
    = Dict.keys d ++ base.filter (fun q => q ∉ Dict.keys d) (first_listed ks)).
  { induction ks as [|k ks IH]; intros d; cbn [fold_left first_listed].
    - now rewrite filter_nil, app_nil_r.
    - rewrite IH.
      destruct (decide (k ∈ Dict.keys d)) as [Hk|Hk].
      + rewrite setitem_keys_present by assumption.
        rewrite filter_cons_False by tauto. f_equal.
        rewrite list_filter_filter_l; [reflexivity|]. intros q Hq ->. tauto.
      + rewrite setitem_keys_absent by assumption.
        rewrite filter_cons_True by assumption. rewrite <- app_assoc. cbn [app].
        do 2 f_equal. rewrite list_filter_filter. apply list_filter_iff.
        intros q. rewrite elem_of_app, list_elem_of_singleton. tauto. }
  rewrite H. cbn [Dict.keys Dict.empty app]. clear H.
  induction (first_listed ks) as [|q l IH]; [reflexivity|].
  rewrite filter_cons_True by apply not_elem_of_nil. f_equal. exact IH.
Qed.

Lemma comprehension_keys_cover {V} (f : Z -> V) ks :
  keys_cover (Dict.comprehension f ks).
Proof.
  intros k. rewrite comprehension_lookup, comprehension_keys.
  destruct (decide (k ∈ ks)); [auto|]. intros [v Hv]. discriminate.
Qed.

Lemma first_listed_elem p ports : p ∈ first_listed ports <-> p ∈ ports.
Proof.
  rewrite <- (comprehension_key_order (fun _ => tt)).
  apply comprehension_keys.
Qed.

Lemma first_listed_NoDup ports : NoDup (first_listed ports).
Proof.
  induction ports as [|p ports IH]; cbn [first_listed]; constructor.
  - rewrite list_elem_of_filter. tauto.
  - now apply NoDup_filter.
Qed.

Section SummaryMore.
Variable connect_reply : list event -> string -> Z -> Q -> connect_outcome.
Variable now_str : string -> list event -> string.
Variable path_join : string -> string -> string.

Lemma tcp_probe_pair_keys cfg ip port stats h stats' t :
  keys_cover stats ->
  tcp_probe_pair connect_reply cfg ip port stats h = (Ok stats', t) ->
  Dict.keys stats' = Dict.keys stats /\ keys_cover stats'.
Proof.
  intros Hd Hrun.
  destruct (Dict.store stats !! port) as [s|] eqn:Hs;
    [|rewrite tcp_probe_pair_absent in Hrun by exact Hs; discriminate].
  assert (Hk : port ∈ Dict.keys stats) by (apply Hd; rewrite Hs; eauto).
  rewrite (tcp_probe_pair_run connect_reply cfg ip port stats h s Hs) in Hrun.
  destruct (tcp_with_retry connect_reply ip port cfg h) as [[[c|]|e] t0];
    [| |discriminate]; injection Hrun as <- <-;
    (split; [now apply setitem_keys_present|now apply setitem_keys_cover]).
Qed.

Lemma ports_loop_keys cfg ip ports : forall stats h stats' t,
  keys_cover stats ->
  for_each ports (tcp_probe_pair connect_reply cfg ip) stats h = (Ok stats', t) ->
  Dict.keys stats' = Dict.keys stats /\ keys_cover stats'.
Proof.
  induction ports as [|port ports IH]; intros stats h stats' t Hd Hrun.
  - injection Hrun as <- <-. auto.
  - rewrite for_each_cons in Hrun.
    destruct (tcp_probe_pair connect_reply cfg ip port stats h)
      as [[s1|e] t1] eqn:H1; [|discriminate].
    destruct (for_each ports _ s1 (h ++ t1)) as [r t2] eqn:H2.
    injection Hrun as -> <-.
    apply tcp_probe_pair_keys in H1 as [Hk1 Hd1]; [|assumption].
    apply IH in H2 as [Hk2 Hd2]; [|assumption].
    split; [congruence|assumption].
Qed.

Lemma tcp_phase_keys cfg ports alive_ips : forall stats h stats' t,
  keys_cover stats ->
  tcp_phase connect_reply alive_ips ports cfg stats h = (Ok stats', t) ->
  Dict.keys stats' = Dict.keys stats /\ keys_cover stats'.
Proof.
  unfold tcp_phase.
  induction alive_ips as [|ip ips IH]; intros stats h stats' t Hd Hrun.
  - injection Hrun as <- <-. auto.
  - rewrite for_each_cons in Hrun.
    destruct (for_each ports _ stats h) as [[s1|e] t1] eqn:H1; [|discriminate].
    destruct (for_each ips _ s1 (h ++ t1)) as [r t2] eqn:H2.
    injection Hrun as -> <-.
    apply ports_loop_keys in H1 as [Hk1 Hd1]; [|assumption].
    apply IH in H2 as [Hk2 Hd2]; [|assumption].
    split; [congruence|assumption].
Qed.

Lemma port_rate_bounds s :
  0 <= success s <= total s -> (0 <= port_rate s <= 100)%Q.
Proof.
  intros Hs. unfold port_rate. destruct (Z.eqb_spec (total s) 0) as [H0|H0].
  - split; discriminate.
  - destruct (total s) as [|p|p] eqn:Ht; try lia.
    unfold Qle, Qdiv, Qmult, Qinv, inject_Z. cbn. lia.
Qed.

(** X15: after a completed TCP phase started from the zeroed [port_stats],
    the summary block is the header line, the number of alive hosts, and
    one line for each distinct configured port, in the order in which the
    ports are first listed.  The line of a port gives the number of
    successes printed for it over the number of alive hosts times the
    number of times the port is listed, and a rate between 0 and 100. *)
Theorem summary_lists_each_port_once
    alive_ips ports cfg h stats' t log_dir timezone h'
    (Hrun : tcp_phase connect_reply alive_ips ports cfg (zeroed ports) h
            = (Ok stats', t)) :
  let summary := path_join log_dir "summary.log" in
  summarize now_str path_join log_dir timezone alive_ips stats' h'
  = (Ok tt,
     EvWrite summary (LgSummary (now_str timezone h'))
     :: EvWrite summary (LgAliveHosts (len alive_ips))
     :: List.map (fun p => port_line summary (p, final_stat alive_ips ports t p))
                 (first_listed ports))
  /\ NoDup (first_listed ports)
  /\ (forall p, p ∈ first_listed ports <-> p ∈ ports)
  /\ (forall p, (0 <= port_rate (final_stat alive_ips ports t p) <= 100)%Q).
Proof.
  intros summary. split; [|split; [apply first_listed_NoDup|split]].
  - rewrite summarize_run. fold summary. do 3 f_equal.
    pose proof (tcp_phase_keys cfg ports alive_ips (zeroed ports) h stats' t
                  (comprehension_keys_cover _ ports) Hrun) as [Hk _].
    unfold zeroed in Hk at 1. rewrite comprehension_key_order in Hk.
    apply tcp_phase_counts in Hrun as [Hl _].
    unfold Dict.items. rewrite Hk.
    assert (Hsub : forall l, (forall p, p ∈ l -> p ∈ ports) ->
      omap (fun k => (fun v => (k, v)) <$> Dict.store stats' !! k) l
      = List.map (fun p => (p, final_stat alive_ips ports t p)) l).
    { induction l as [|k l IH]; intros Hin; [reflexivity|].
      cbn [omap list_omap List.map]. rewrite Hl. unfold zeroed at 1.
      rewrite comprehension_lookup, decide_True by (apply Hin; now left).
      cbn [fmap option_fmap option_map]. f_equal.
      apply IH. intros p Hp. apply Hin. now right. }
    rewrite Hsub by (intros p Hp; now apply first_listed_elem).
    now rewrite List.map_map.
  - intros p. apply first_listed_elem.
  - intros p. apply port_rate_bounds. unfold final_stat. cbn [total success].
    apply tcp_phase_counts in Hrun as [_ Ho]. specialize (Ho p).
    pose proof (oks_nonneg p t). lia.
Qed.

End SummaryMore.

Lemma summary_lists_each_port_once_witness :
  summarize frozen_clock slash_join "./logs" "UTC" ["10.0.0.1"; "10.0.0.2"]
    (stats_of example_tcp_phase) []
  = (Ok tt,
     EvWrite (slash_join "./logs" "summary.log") (LgSummary (frozen_clock "UTC" []))
     :: EvWrite (slash_join "./logs" "summary.log")
          (LgAliveHosts (len ["10.0.0.1"; "10.0.0.2"]))
     :: List.map
          (fun p => port_line (slash_join "./logs" "summary.log")
                      (p, final_stat ["10.0.0.1"; "10.0.0.2"] [80; 443]
                            (snd example_tcp_phase) p))
          (first_listed [80; 443]))
  /\ NoDup (first_listed [80; 443])
  /\ (forall p, p ∈ first_listed [80; 443] <-> p ∈ [80; 443])
  /\ (forall p,
        (0 <= port_rate (final_stat ["10.0.0.1"; "10.0.0.2"] [80; 443]%Z
                           (snd example_tcp_phase) p) <= 100)%Q).
Proof.
  apply (summary_lists_each_port_once second_try frozen_clock slash_join
           ["10.0.0.1"; "10.0.0.2"] [80; 443] (tcp_list [80; 443] 1) []
           (stats_of example_tcp_phase) (snd example_tcp_phase) "./logs" "UTC" []).
  vm_compute. reflexivity.
Defined.

(** ** The pings of a scan *)

Lemma ping_count_app ip t1 t2 :
  ping_count ip (t1 ++ t2) = ping_count ip t1 + ping_count ip t2.
Proof. unfold ping_count, len. rewrite List.filter_app, length_app. lia. Qed.

Lemma ping_count_none ip t :
  Forall (fun ev => pings_to ip ev = false) t -> ping_count ip t = 0.
Proof.
  intros H. unfold ping_count, len.
  induction H as [|ev t Hev Ht IH]; [reflexivity|].
  cbn [List.filter]. now rewrite Hev.
Qed.

Lemma ping_count_rounds ip timeout d k :
  ping_count ip (rounds k [EvPing ip timeout; EvSleep d]) = Z.of_nat k.
Proof.
  induction k as [|k IH]; [reflexivity|].
  cbn [rounds]. rewrite ping_count_app, IH. unfold ping_count, len.
  cbn [List.filter pings_to]. rewrite String.eqb_refl. cbn [length app]. lia.
Qed.

Section PingsMore.
Variable ping_reply : list event -> string -> Q -> ping_outcome.
Variable now_str : string -> list event -> string.
Variable as_completed :
  list (result (option (string * Q))) -> list (result (option (string * Q))).
Variable path_join : string -> string -> string.

Local Abbreviation collected := (NetProbeSpec.collected now_str).
Local Abbreviation scan := (ping_scan_network ping_reply now_str as_completed path_join).

(** A worker pings its own address, between once and [retry + 1] times. *)
Lemma ping_worker_count cfg h ip :
  0 <= PingCfg.retry cfg ->
  1 <= ping_count ip (snd (ping_worker ping_reply ip cfg h)) <= PingCfg.retry cfg + 1.
Proof.
  intros Hretry. unfold ping_worker.
  pose proof (ping_attempts_run ping_reply ip cfg
                (Z.to_nat (PingCfg.retry cfg + 1)) h) as Hrun.
  inversion Hrun as [Hall Hr Ht | k c Hk Hf Hh Hr Ht | k e Hk Hf Hh Hr Ht].
  - rewrite ping_count_rounds. lia.
  - change (EvPing ip (PingCfg.timeout cfg) :: EvSleep (PingCfg.rate_limit cfg)
            :: rounds k [EvPing ip (PingCfg.timeout cfg);
                         EvSleep (PingCfg.rate_limit cfg)])
      with (rounds (S k) [EvPing ip (PingCfg.timeout cfg);
                          EvSleep (PingCfg.rate_limit cfg)]).
    rewrite ping_count_rounds. lia.
  - rewrite ping_count_app, ping_count_rounds. unfold ping_count, len.
    cbn [List.filter pings_to]. rewrite String.eqb_refl. cbn [length]. lia.
Qed.

Lemma ping_worker_other cfg h ip ip' :
  ip' <> ip -> ping_count ip (snd (ping_worker ping_reply ip' cfg h)) = 0.
Proof.
  intros Hne. apply ping_count_none.
  eapply Forall_impl; [apply ping_worker_events|].
  intros ev [[timeout ->]|[d ->]]; cbn; [|reflexivity].
  now apply String.eqb_neq.
Qed.

Lemma workers_count cfg h0 ip hosts :
  0 <= PingCfg.retry cfg -> NoDup hosts ->
  let workers :=
    concat (List.map snd
              (List.map (fun ip => ping_worker ping_reply ip cfg h0) hosts)) in
  (In ip hosts -> 1 <= ping_count ip workers <= PingCfg.retry cfg + 1)
  /\ (~ In ip hosts -> ping_count ip workers = 0).
Proof.
  intros Hretry Hnd. cbn zeta.
  induction Hnd as [|ip' hosts Hnot Hnd [IHin IHout]]; cbn [List.map concat].
  - split; [intros []|reflexivity].
  - rewrite ping_count_app. split.
    + intros [->|Hin].
      * rewrite IHout by (now rewrite <- list_elem_of_In).
        pose proof (ping_worker_count cfg h0 ip Hretry). lia.
      * rewrite ping_worker_other; [now apply IHin|].
        intros ->. apply Hnot. now apply list_elem_of_In.
    + intros Hout. rewrite ping_worker_other, IHout; [reflexivity| |].
      * intros Hin. apply Hout. now right.
      * intros ->. apply Hout. now left.
Qed.

Lemma collected_ping_count ip log_file timezone n rs : forall h done,
  ping_count ip (collected log_file timezone n h done rs) = 0.
Proof.
  induction rs as [|r rs IH]; intros h done; [reflexivity|].
  cbn [NetProbeSpec.collected]. rewrite ping_count_app, IH.
  now destruct r as [[ip' cost]|].
Qed.


End PingsMore.


(** ** The log file of a network *)

Lemma has_char_split x c s :
  x <> c -> has_char x s = true ->
  Exists (fun w => has_char x w = true) (Py.split_char c s).
Proof.
  intros Hxc. induction s as [|a s IH]; cbn [has_char Py.split_char];
    [discriminate|].
  destruct (decide (a = c)) as [->|Hac].
  - destruct (decide (c = x)); [congruence|]. intros H.
    apply Exists_cons_tl. now apply IH.
  - destruct (decide (a = x)) as [->|Hax].
    + intros _. destruct (Py.split_char c s) as [|w ws];
        apply Exists_cons_hd; cbn [has_char]; now rewrite decide_True.
    + intros H. specialize (IH H).
      destruct (Py.split_char c s) as [|w ws]; [now apply Exists_nil in IH|].
      apply Exists_cons in IH as [Hw|Hws].
      * apply Exists_cons_hd. cbn [has_char]. now rewrite decide_False.
      * now apply Exists_cons_tl.
Qed.

Lemma digits_no_underscore s : forall acc n,
  Py.int_from_digits acc s = Some n -> has_char "_" s = false.
Proof.
  induction s as [|a s IH]; intros acc n; cbn [Py.int_from_digits has_char];
    [reflexivity|].
  destruct (Py.digit_val a) as [d|] eqn:Hd; [|discriminate].
  cbn. intros H. destruct (decide (a = "_"%char)) as [->|_];
    [vm_compute in Hd; discriminate|]. now apply IH in H.
Qed.

Lemma digit_string_no_underscore s n :
  Py.int_of_digit_string s = Some n -> has_char "_" s = false.
Proof.
  unfold Py.int_of_digit_string. destruct s; [discriminate|].
  apply digits_no_underscore.
Qed.

Lemma octet_no_underscore s n : parse_octet s = Some n -> has_char "_" s = false.
Proof.
  unfold parse_octet. destruct (Py.int_of_digit_string s) as [m|] eqn:Hm;
    [|discriminate]. intros _. now apply digit_string_no_underscore in Hm.
Qed.

Lemma address_no_underscore s x :
  ip_int_from_string s = Some x -> has_char "_" s = false.
Proof.
  intros Hs. destruct (has_char "_" s) eqn:Hu; [exfalso|reflexivity].
  apply (has_char_split "_" "." s) in Hu; [|discriminate].
  unfold ip_int_from_string in Hs. destruct s as [|a0 s0]; [discriminate|].
  destruct (Py.split_char "." (String a0 s0)) as [|a [|b [|c [|d [|? ?]]]]];
    try discriminate.
  destruct (parse_octet a) as [na|] eqn:Ha; [|discriminate].
  destruct (parse_octet b) as [nb|] eqn:Hb; [|discriminate].
  destruct (parse_octet c) as [nc|] eqn:Hc; [|discriminate].
  destruct (parse_octet d) as [nd|] eqn:Hd; [|discriminate].
  apply octet_no_underscore in Ha, Hb, Hc, Hd.
  repeat (apply Exists_cons in Hu as [Hu|Hu]; [congruence|]).
  now apply Exists_nil in Hu.
Qed.

Lemma netmask_no_underscore m p : make_netmask m = Some p -> has_char "_" m = false.
Proof.
  unfold make_netmask, prefix_from_prefix_string, prefix_from_ip_string.
  destruct (Py.int_of_digit_string m) as [n|] eqn:Hn.
  - intros _. now apply digit_string_no_underscore in Hn.
  - cbn. destruct (ip_int_from_string m) as [x|] eqn:Hx; [|discriminate].
    intros _. now apply address_no_underscore in Hx.
Qed.

(** A valid network is written without an underscore. *)
Lemma network_no_underscore cidr net :
  ip_network cidr = Some net -> has_char "_" cidr = false.
Proof.
  unfold ip_network. destruct (split_addr_prefix cidr) as [[a p]|] eqn:Hs;
    [|discriminate]. intros _.
  destruct (has_char "_" cidr) eqn:Hu; [exfalso|reflexivity].
  apply (has_char_split "_" "/" cidr) in Hu; [|discriminate].
  unfold split_addr_prefix in Hs.
  destruct (Py.split_char "/" cidr) as [|s [|m [|? ?]]]; try discriminate.
  - destruct (ip_int_from_string s) as [x|] eqn:Hx; [|discriminate].
    apply address_no_underscore in Hx.
    apply Exists_cons in Hu as [Hu|Hu]; [congruence|].
    now apply Exists_nil in Hu.
  - destruct (ip_int_from_string s) as [x|] eqn:Hx; [|discriminate].
    cbn in Hs. destruct (make_netmask m) as [q|] eqn:Hm; [|discriminate].
    apply address_no_underscore in Hx. apply netmask_no_underscore in Hm.
    repeat (apply Exists_cons in Hu as [Hu|Hu]; [congruence|]).
    now apply Exists_nil in Hu.
Qed.

Lemma replace_char_inj a b s1 : forall s2,
  has_char b s1 = false -> has_char b s2 = false ->
  replace_char a b s1 = replace_char a b s2 -> s1 = s2.
Proof.
  induction s1 as [|c1 s1 IH]; intros [|c2 s2]; cbn [has_char replace_char];
    try discriminate; [reflexivity|].
  destruct (decide (c1 = b)) as [|H1]; [discriminate|].
  destruct (decide (c2 = b)) as [|H2]; [discriminate|].
  intros Hs1 Hs2 Heq. injection Heq as Hc Hrest.
  f_equal; [|now apply IH].
  destruct (decide (c1 = a)) as [->|Hc1], (decide (c2 = a)) as [->|Hc2];
    congruence.
Qed.

Lemma replace_char_removes a b s : a <> b -> has_char a (replace_char a b s) = false.
Proof.
  intros Hab. induction s as [|c s IH]; [reflexivity|].
  cbn [replace_char has_char].
  destruct (decide (c = a)) as [->|Hc].
  - rewrite decide_False by congruence. exact IH.
  - rewrite decide_False by assumption. exact IH.
Qed.

Lemma append_cons a s1 s2 : (String a s1 ++ s2)%string = String a (s1 ++ s2)%string.
Proof. reflexivity. Qed.

Lemma append_length s1 s2 :
  String.length (s1 ++ s2)%string = (String.length s1 + String.length s2)%nat.
Proof.
  induction s1 as [|a s1 IH]; [reflexivity|].
  rewrite append_cons. cbn [String.length Nat.add]. now f_equal.
Qed.

Lemma append_cancel_r t s1 : forall s2,
  (s1 ++ t)%string = (s2 ++ t)%string -> s1 = s2.
Proof.
  induction s1 as [|a s1 IH]; intros [|b s2] H.
  - reflexivity.
  - apply (f_equal String.length) in H.
    rewrite !append_length in H. cbn [String.length] in H. lia.
  - apply (f_equal String.length) in H.
    rewrite !append_length in H. cbn [String.length] in H. lia.
  - rewrite !append_cons in H. injection H as -> H. f_equal. now apply IH.
Qed.

Lemma has_char_append c s1 s2 :
  has_char c (s1 ++ s2)%string = has_char c s1 || has_char c s2.
Proof.
  induction s1 as [|a s1 IH]; [reflexivity|].
  rewrite append_cons. cbn [has_char].
  destruct (decide (a = c)); [reflexivity|exact IH].
Qed.


Lemma slash_join_inj log_dir a b : slash_join log_dir a = slash_join log_dir b -> a = b.
Proof.
  unfold slash_join. intros H. apply String.app_inj in H. now injection H.
Qed.


(** ** A negative retry count *)

Section NegativeRetry.
Variable ping_reply : list event -> string -> Q -> ping_outcome.
Variable connect_reply : list event -> string -> Z -> Q -> connect_outcome.
Variable now_str : string -> list event -> string.
Variable as_completed :
  list (result (option (string * Q))) -> list (result (option (string * Q))).
Variable path_join : string -> string -> string.
Hypothesis as_completed_all : forall fs, Permutation (as_completed fs) fs.

Local Abbreviation collected := (NetProbeSpec.collected now_str).
Local Abbreviation collect_one := (NetProbeSpec.collect_one now_str).
Local Abbreviation scan := (ping_scan_network ping_reply now_str as_completed path_join).

Lemma ping_worker_no_budget ip cfg h :
  PingCfg.retry cfg < 0 -> ping_worker ping_reply ip cfg h = (Ok None, []).
Proof.
  intros Hretry. unfold ping_worker.
  now replace (Z.to_nat (PingCfg.retry cfg + 1)) with O by lia.
Qed.

Lemma tcp_with_retry_no_budget host port cfg h :
  TcpCfg.retry cfg < 0 ->
  tcp_with_retry connect_reply host port cfg h = (Ok None, []).
Proof.
  intros Hretry. unfold tcp_with_retry.
  now replace (Z.to_nat (TcpCfg.retry cfg + 1)) with O by lia.
Qed.

Lemma attempts_collected log_file timezone n rs : forall h done,
  attempts (collected log_file timezone n h done rs) = 0.
Proof.
  induction rs as [|r rs IH]; intros h done; [reflexivity|].
  cbn [NetProbeSpec.collected]. rewrite attempts_app, IH.
  now destruct r as [[ip cost]|].
Qed.

Lemma all_none_alive (rs : list (option (string * Q))) :
  Forall (fun r => r = None) rs -> alive_of rs = [].
Proof.
  induction 1 as [|r rs -> _ IH]; [reflexivity|exact IH].
Qed.

Lemma ports_loop_no_budget cfg ip ports : forall stats h,
  TcpCfg.retry cfg < 0 ->
  (forall p, In p ports -> is_Some (Dict.store stats !! p)) ->
  exists stats',
    for_each ports (tcp_probe_pair connect_reply cfg ip) stats h = (Ok stats', [])
    /\ forall p, is_Some (Dict.store stats !! p) -> is_Some (Dict.store stats' !! p).
Proof.
  induction ports as [|port ports IH]; intros stats h Hretry Hcov.
  - exists stats. split; [reflexivity|auto].
  - destruct (Hcov port (or_introl eq_refl)) as [s Hs].
    rewrite for_each_cons.
    rewrite (tcp_probe_pair_run connect_reply cfg ip port stats h s Hs).
    rewrite tcp_with_retry_no_budget by assumption. rewrite app_nil_r.
    assert (Hkeep : forall p, is_Some (Dict.store stats !! p) ->
      is_Some (Dict.store (Dict.setitem port (bump 1 0 s) stats) !! p)).
    { intros p Hp. rewrite lookup_setitem.
      destruct (decide (port = p)); [eauto|exact Hp]. }
    destruct (IH (Dict.setitem port (bump 1 0 s) stats) h Hretry)
      as (stats' & Hrun & Hcov').
    { intros p Hp. apply Hkeep, Hcov. now right. }
    exists stats'. rewrite Hrun. split; [reflexivity|].
    intros p Hp. apply Hcov', Hkeep, Hp.
Qed.

Lemma tcp_phase_no_budget cfg ports alive_ips : forall stats h,
  TcpCfg.retry cfg < 0 ->
  (forall p, In p ports -> is_Some (Dict.store stats !! p)) ->
  exists stats',
    tcp_phase connect_reply alive_ips ports cfg stats h = (Ok stats', []).
Proof.
  unfold tcp_phase.
  induction alive_ips as [|ip ips IH]; intros stats h Hretry Hcov.
  - exists stats. reflexivity.
  - destruct (ports_loop_no_budget cfg ip ports stats h Hretry Hcov)
      as (s1 & H1 & Hk1).
    rewrite for_each_cons, H1, app_nil_r.
    destruct (IH s1 h Hretry) as (stats' & Hrun).
    { intros p Hp. apply Hk1, Hcov, Hp. }
    exists stats'. now rewrite Hrun.
Qed.


End NegativeRetry.

End NetProbeExtras.

(** ** Further properties of the two monitors *)

Module MonitorExtras.
Import Monitor MonitorSpec MonitorProofs MonitorMore.

Lemma omap_none_all {A B} (f : A -> option B) l :
  Forall (fun x => f x = None) l -> omap f l = [].
Proof.
  induction 1 as [|x l Hx _ IH]; [reflexivity|].
  cbn [omap list_omap]. now rewrite Hx.
Qed.

(** *** The statistics of the summary *)

Lemma min_fold l : forall x,
  let m := fold_left (fun m y => if Qle_bool m y then m else y) l x in
  (m = x \/ In m l) /\ (m <= x)%Q /\ Forall (fun c => (m <= c)%Q) l.
Proof.
  induction l as [|y l IH]; intros x; cbn [fold_left].
  - split; [now left|]. split; [apply Qle_refl|constructor].
  - destruct (Qle_bool x y) eqn:Hxy.
    + apply Qle_bool_iff in Hxy. destruct (IH x) as ([Hm|Hm] & Hle & Hall).
      * split; [now left|]. split; [exact Hle|]. constructor; [|exact Hall].
        eapply Qle_trans; eassumption.
      * split; [right; now right|]. split; [exact Hle|].
        constructor; [|exact Hall]. eapply Qle_trans; eassumption.
    + assert (Hyx : (y <= x)%Q).
      { apply Qlt_le_weak, Qnot_le_lt. intros H. apply Qle_bool_iff in H.
        congruence. }
      destruct (IH y) as ([Hm|Hm] & Hle & Hall).
      * split; [right; left; now symmetry|]. split.
        -- eapply Qle_trans; eassumption.
        -- constructor; [exact Hle|exact Hall].
      * split; [right; now right|]. split.
        -- eapply Qle_trans; eassumption.
        -- constructor; [exact Hle|exact Hall].
Qed.

Lemma max_fold l : forall x,
  let m := fold_left (fun m y => if Qle_bool y m then m else y) l x in
  (m = x \/ In m l) /\ (x <= m)%Q /\ Forall (fun c => (c <= m)%Q) l.
Proof.
  induction l as [|y l IH]; intros x; cbn [fold_left].
  - split; [now left|]. split; [apply Qle_refl|constructor].
  - destruct (Qle_bool y x) eqn:Hyx.
    + apply Qle_bool_iff in Hyx. destruct (IH x) as ([Hm|Hm] & Hle & Hall).
      * split; [now left|]. split; [exact Hle|]. constructor; [|exact Hall].
        eapply Qle_trans; eassumption.
      * split; [right; now right|]. split; [exact Hle|].
        constructor; [|exact Hall]. eapply Qle_trans; eassumption.
    + assert (Hxy : (x <= y)%Q).
      { apply Qlt_le_weak, Qnot_le_lt. intros H. apply Qle_bool_iff in H.
        congruence. }
      destruct (IH y) as ([Hm|Hm] & Hle & Hall).
      * split; [right; left; now symmetry|]. split.
        -- eapply Qle_trans; eassumption.
        -- constructor; [exact Hle|exact Hall].
      * split; [right; now right|]. split.
        -- eapply Qle_trans; eassumption.
        -- constructor; [exact Hle|exact Hall].
Qed.

Lemma sum_fold_bounds (lo hi : Q) l : forall acc,
  Forall (fun c => (lo <= c <= hi)%Q) l ->
  (acc + inject_Z (Z.of_nat (length l)) * lo <= fold_left Qplus l acc
   <= acc + inject_Z (Z.of_nat (length l)) * hi)%Q.
Proof.
  induction l as [|y l IH]; intros acc Hall.
  - cbn [fold_left length]. change (inject_Z (Z.of_nat 0)) with 0%Q. lra.
  - apply Forall_cons in Hall as [Hy Hall]. cbn [fold_left].
    specialize (IH (acc + y)%Q Hall).
    replace (Z.of_nat (length (y :: l))) with (Z.of_nat (length l) + 1)%Z
      by (cbn [length]; lia).
    rewrite inject_Z_plus. change (inject_Z 1) with 1%Q. lra.
Qed.

Lemma avg_bounds (lo hi : Q) y l :
  Forall (fun c => (lo <= c <= hi)%Q) (y :: l) ->
  (lo <= sum (y :: l) / inject_Z (Z.of_nat (length (y :: l))) <= hi)%Q.
Proof.
  intros Hall. pose proof (sum_fold_bounds lo hi (y :: l) 0%Q Hall) as [Hlo Hhi].
  fold (sum (y :: l)) in Hlo, Hhi.
  assert (Hn : (0 < inject_Z (Z.of_nat (length (y :: l))))%Q).
  { change 0%Q with (inject_Z 0). rewrite <- Zlt_Qlt. cbn [length]. lia. }
  split.
  - apply Qle_shift_div_l; [exact Hn|]. lra.
  - apply Qle_shift_div_r; [exact Hn|]. lra.
Qed.


(** *** Passes of the TCP monitor that nothing disturbs *)

Section CalmPasses.
Variable now_str : string -> list event -> string.
Variable path_join : string -> string -> string.

Lemma tcping_calm_pass log_file tz host port interval io s :
  calm io ->
  exists s',
    TcpingMonitor.body now_str log_file tz host port interval io s = (Ok tt, s')
    /\ total_count s' = total_count s + 1
    /\ success_count s' = success_count s + count (option_list (latency io))
    /\ fail_count s' = fail_count s + (1 - count (option_list (latency io)))
    /\ cost_list s' = cost_list s ++ option_list (latency io)
    /\ List.filter (fun ev => if ev is EvSleep _ then true else false) (out s')
       = List.filter (fun ev => if ev is EvSleep _ then true else false) (out s)
         ++ [EvSleep interval].
Proof.
  destruct io as [answer fault]. unfold calm, latency.
  cbn [TcpingMonitor.fault TcpingMonitor.answer]. intros [-> Hanswer].
  destruct answer as [e|elapsed|e]; [contradiction| |].
  - eexists. split; [reflexivity|]. cbn.
    rewrite !List.filter_app. cbn [List.filter]. rewrite !app_nil_r.
    unfold count. cbn [length]. repeat split; lia.
  - eexists. unfold TcpingMonitor.body, TcpingMonitor.tcp_connect_test.
    cbn [TcpingMonitor.fault TcpingMonitor.answer]. rewrite Hanswer.
    split; [reflexivity|]. cbn.
    rewrite !List.filter_app. cbn [List.filter]. rewrite !app_nil_r.
    unfold count. cbn [length]. repeat split; lia.
Qed.

Lemma tcping_calm_loop log_file tz host port interval script : forall s,
  Forall calm script ->
  exists s',
    loop (TcpingMonitor.body now_str log_file tz host port interval) script s
    = (None, s')
    /\ total_count s' = total_count s + count script
    /\ success_count s' = success_count s + count (latencies script)
    /\ fail_count s' = fail_count s + (count script - count (latencies script))
    /\ cost_list s' = cost_list s ++ latencies script
    /\ List.filter (fun ev => if ev is EvSleep _ then true else false) (out s')
       = List.filter (fun ev => if ev is EvSleep _ then true else false) (out s)
         ++ repeat (EvSleep interval) (length script).
Proof.
  induction script as [|io script IH]; intros s Hcalm.
  - exists s. unfold count, latencies. cbn. rewrite !app_nil_r.
    repeat split; lia.
  - apply Forall_cons in Hcalm as [Hio Hcalm].
    destruct (tcping_calm_pass log_file tz host port interval io s Hio)
      as (s1 & Hrun & Ht & Hs & Hf & Hc & Ho).
    destruct (IH s1 Hcalm) as (s' & Hloop & Ht' & Hs' & Hf' & Hc' & Ho').
    exists s'. cbn [loop]. rewrite Hrun. split; [exact Hloop|].
    assert (Hlat : latencies (io :: script)
                   = option_list (latency io) ++ latencies script).
    { unfold latencies. cbn [omap list_omap]. now destruct (latency io). }
    rewrite Hlat. unfold count in *. rewrite length_app. cbn [length repeat].
    rewrite Hc', Hc, Ho', Ho, <- !app_assoc. cbn [app].
    repeat split; lia.
Qed.

(** X20: as long as nothing disturbs its passes -- connections succeed,
    or fail with an [Exception] such as a refusal or a timeout -- the TCP
    monitor never stops by itself.  After [n] such passes [total_count] is
    [n], [success_count] is the number of passes that connected,
    [fail_count] the number of the others, [cost_list] holds the latencies
    of the connections in order, and the monitor has slept [interval]
    after every pass. *)
Theorem tcping_keeps_running
    host log_dir timezone port timeout interval script
    (Hhost : host <> "")
    (Hcalm : Forall calm script) :
  exists s,
    TcpingMonitor.main now_str path_join
      (tcping_config host log_dir timezone port timeout interval) script
    = Running s
    /\ total_count s = count script
    /\ success_count s = count (latencies script)
    /\ fail_count s = count script - count (latencies script)
    /\ cost_list s = latencies script
    /\ List.filter (fun ev => if ev is EvSleep _ then true else false) (out s)
       = repeat (EvSleep (default 2 interval)) (length script).
Proof.
  rewrite tcping_main_enabled by exact Hhost. unfold guarded_loop.
  destruct (tcping_calm_loop (tcping_log path_join host log_dir port)
              (default "Asia/Bangkok" timezone) host (default 80 port)
              (default 2 interval) script
              (open_log now_str (tcping_log path_join host log_dir port)
                        (default "Asia/Bangkok" timezone) started) Hcalm)
    as (s & Hloop & Ht & Hs & Hf & Hc & Ho).
  exists s. unfold tcping_body. rewrite Hloop. split; [reflexivity|].
  cbn in Ht, Hs, Hf, Hc, Ho. repeat split; assumption.
Qed.

End CalmPasses.

Lemma tcping_keeps_running_witness :
  exists s,
    TcpingMonitor.main fixed_clock join_slash
      (tcping_config "example.org" None None None None (Some 3))
      refused_then_connected
    = Running s
    /\ total_count s = count refused_then_connected
    /\ success_count s = count (latencies refused_then_connected)
    /\ fail_count s
       = count refused_then_connected - count (latencies refused_then_connected)
    /\ cost_list s = latencies refused_then_connected
    /\ List.filter (fun ev => if ev is EvSleep _ then true else false) (out s)
       = repeat (EvSleep (default 2 (Some 3))) (length refused_then_connected).
Proof.
  apply (tcping_keeps_running fixed_clock join_slash "example.org" None None
           None None (Some 3) refused_then_connected).
  - discriminate.
  - repeat constructor.
Defined.

(** *** What the ping monitor reads off the output of [ping] *)

Section PingOutput.
Variable float : string -> option Q.
Variable now_str : string -> list event -> string.
Variable path_join : string -> string -> string.

Lemma kept_cons line stdout :
  kept (line :: stdout)
  = if kept_line (PingMonitor.strip line)
    then PingMonitor.strip line :: kept stdout
    else kept stdout.
Proof. reflexivity. Qed.

Lemma read_lines stdout : forall lines rtt failed,
  fold_left (read_line float) stdout (lines, rtt, failed)
  = (lines ++ kept stdout,
     match last_rtt float (kept stdout) with
     | Some v => Some v
     | None => rtt
     end,
     failed || existsb timed_out (kept stdout)).
Proof.
  induction stdout as [|line stdout IH]; intros lines rtt failed.
  - cbn. now rewrite app_nil_r, orb_false_r.
  - cbn [fold_left]. rewrite kept_cons. unfold read_line at 2, kept_line.
    destruct (String.eqb (PingMonitor.strip line) "") eqn:Hempty;
      cbn [negb andb]; [apply IH|].
    destruct (String.prefix "pinging" (PingMonitor.lower (PingMonitor.strip line)))
      eqn:Hping; cbn [negb]; [apply IH|].
    rewrite IH, <- app_assoc. cbn [app existsb]. unfold last_rtt.
    cbn [omap list_omap]. f_equal; [f_equal|].
    + destruct (PingMonitor.parse_rtt float (PingMonitor.strip line)) as [v|];
        [|reflexivity].
      rewrite last_cons. now destruct (list.last _).
    + destruct (timed_out (PingMonitor.strip line)), failed; reflexivity.
Qed.

Lemma read_output_kept stdout :
  PingMonitor.read_output float stdout
  = (kept stdout, last_rtt float (kept stdout), existsb timed_out (kept stdout)).
Proof.
  unfold PingMonitor.read_output.
  change (fun '(lines, rtt, failed) line => _) with (read_line float).
  rewrite read_lines. cbn [app orb]. now destruct (last_rtt float (kept stdout)).
Qed.



End PingOutput.


(** *** The recorded latencies and the counters *)

Section Invariants.
Variable now_str : string -> list event -> string.
Variable float : string -> option Q.
Variable path_join : string -> string -> string.

Lemma guarded_loop_invariant {IO} (body : IO -> St unit) log_file timezone
    (I J : state -> Prop) :
  (forall s s', same_counters s s' -> I s -> I s') ->
  (forall s s', same_counters s s' -> J s -> J s') ->
  (forall io s, I s ->
     match body io s with
     | (Ok _, s') => I s'
     | (Raise _, s') => J s'
     end) ->
  forall script s, I s ->
    match guarded_loop now_str log_file timezone body script s with
    | Running s' => I s'
    | Exited _ s' => J s'
    end.
Proof.
  intros HI HJ Hbody script s Hs. unfold guarded_loop.
  assert (Hloop : forall script s, I s ->
    match loop body script s with
    | (None, s') => I s'
    | (Some _, s') => J s'
    end).
  { clear s Hs script. induction script as [|io script IH]; intros s Hs;
      cbn [loop]; [exact Hs|].
    specialize (Hbody io s Hs). destruct (body io s) as [[u|e] s1];
      [now apply IH|exact Hbody]. }
  assert (Hopen : I (open_log now_str log_file timezone s)).
  { apply (HI s); [|exact Hs]. unfold open_log.
    eapply same_counters_trans; [apply same_counters_do|].
    eapply same_counters_trans; apply same_counters_do. }
  specialize (Hloop script _ Hopen).
  destruct (loop body script _) as [[e|] s1]; [|exact Hloop].
  destruct (on_exception_run now_str log_file timezone e s1)
    as (s2 & Hon & Hc2 & _). rewrite Hon.
  destruct (finally_run now_str log_file timezone s2) as [Hc3 _].
  apply (HJ s1); [|exact Hloop]. eapply same_counters_trans; eassumption.
Qed.

Lemma tcping_body_latencies log_file tz host port interval io s :
  success_count s = count (cost_list s) ->
  match TcpingMonitor.body now_str log_file tz host port interval io s with
  | (Ok _, s') => success_count s' = count (cost_list s')
  | (Raise _, s') =>
      count (cost_list s') <= success_count s' <= count (cost_list s') + 1
  end.
Proof.
  intros Hs. unfold count in *. destruct s as [t su f c o].
  cbn [success_count cost_list total_count] in Hs.
  destruct io as [answer [[pt e]|]]; unfold TcpingMonitor.body;
    cbn [TcpingMonitor.fault TcpingMonitor.answer];
    [destruct pt|];
    (destruct answer as [e'|ms|e']; [| |destruct (is_Exception e') eqn:He]);
    unfold TcpingMonitor.tcp_connect_test; rewrite ?He;
    cbv -[Z.add Z.of_nat length app Z.le]; rewrite ?length_app;
    cbn [length]; lia.
Qed.

Lemma ping_body_latencies log_file tz interval io s :
  success_count s <= count (cost_list s) <= total_count s ->
  match PingMonitor.body float now_str log_file tz interval io s with
  | (_, s') => success_count s' <= count (cost_list s') <= total_count s'
  end.
Proof.
  intros Hs. unfold count in *. destruct s as [t su f c o].
  cbn [success_count cost_list total_count] in Hs.
  destruct io as [stdout fault]. unfold PingMonitor.body.
  cbn [PingMonitor.fault PingMonitor.stdout].
  destruct (PingMonitor.read_output float stdout) as [[lines rtt] failed] eqn:Hr.
  destruct fault as [[pt e]|]; [destruct pt|];
    destruct rtt as [v|]; destruct failed; destruct lines as [|l lines];
    cbv -[Z.add Z.of_nat length app Z.le]; rewrite ?length_app;
    cbn [length]; lia.
Qed.

(** X23: the latencies behind the statistics of the summary.  In the TCP
    monitor [cost_list] has one entry for each pass counted as a success
    while the loop turns, and when the summary is written at most the last
    success may lack its entry.  In the ping monitor every pass counted as
    a success has its entry, but [cost_list] may hold more entries than
    there are successes, never more than [total_count]. *)
Theorem latencies_behind_the_statistics :
  (forall host log_dir timezone port timeout interval script,
      host <> "" ->
      match TcpingMonitor.main now_str path_join
              (tcping_config host log_dir timezone port timeout interval)
              script with
      | Running s => success_count s = count (cost_list s)
      | Exited _ s =>
          count (cost_list s) <= success_count s <= count (cost_list s) + 1
      end)
  /\ (forall target interval script,
        match PingMonitor.main float now_str path_join
                (ping_config target interval) script with
        | Running s | Exited _ s =>
            success_count s <= count (cost_list s) <= total_count s
        end).
Proof.
  split.
  - intros host log_dir timezone port timeout interval script Hhost.
    rewrite tcping_main_enabled by exact Hhost.
    apply (guarded_loop_invariant _ _ _
             (fun s => success_count s = count (cost_list s))
             (fun s => count (cost_list s) <= success_count s
                       <= count (cost_list s) + 1)).
    + intros s s' (_ & Hsu & _ & Hc) H. now rewrite Hsu, Hc.
    + intros s s' (_ & Hsu & _ & Hc) H. now rewrite Hsu, Hc.
    + intros io s H. now apply tcping_body_latencies.
    + reflexivity.
  - intros target interval script. rewrite ping_main_enabled.
    pose proof (guarded_loop_invariant
                  (ping_body float now_str path_join target interval)
                  (ping_log path_join target) (ping_tz target)
                  (fun s => success_count s <= count (cost_list s) <= total_count s)
                  (fun s => success_count s <= count (cost_list s) <= total_count s))
      as Hinv.
    match goal with
    | |- match ?g with _ => _ end =>
        assert (H : match g with
                    | Running s' =>
                        success_count s' <= count (cost_list s') <= total_count s'
                    | Exited _ s' =>
                        success_count s' <= count (cost_list s') <= total_count s'
                    end); [|now destruct g]
    end.
    apply Hinv.
    + intros s s' (Ht & Hsu & _ & Hc) H. now rewrite Ht, Hsu, Hc.
    + intros s s' (Ht & Hsu & _ & Hc) H. now rewrite Ht, Hsu, Hc.
    + intros io s H.
      pose proof (ping_body_latencies (ping_log path_join target) (ping_tz target)
                    (default 1 interval) io s H) as Hb.
      unfold ping_body.
      destruct (PingMonitor.body _ _ _ _ _ io s) as [[u|e] s']; exact Hb.
    + vm_compute. split; discriminate.
Qed.


End Invariants.

Lemma latencies_behind_the_statistics_witness :
  match TcpingMonitor.main fixed_clock join_slash
          (tcping_config "example.org" None None None None None)
          interrupted_while_connecting with
  | Running s => success_count s = count (cost_list s)
  | Exited _ s =>
      count (cost_list s) <= success_count s <= count (cost_list s) + 1
  end.
Proof.
  apply (proj1 (latencies_behind_the_statistics fixed_clock no_float join_slash)).
  discriminate.
Defined.


(** *** Where a monitor writes *)

Lemma extends_refl file s : extends file s s.
Proof. exists []. split; [now rewrite app_nil_r|constructor]. Qed.

Lemma extends_trans file s1 s2 s3 :
  extends file s1 s2 -> extends file s2 s3 -> extends file s1 s3.
Proof.
  intros (t1 & H1 & P1) (t2 & H2 & P2). exists (t1 ++ t2).
  split; [now rewrite H2, H1, app_assoc|]. apply Forall_app. now split.
Qed.

Lemma extends_do file ev s : writes_to file ev -> extends file s (do ev s).
Proof. intros H. exists [ev]. split; [reflexivity|]. now constructor. Qed.

Ltac solve_extends :=
  unfold extends; cbn [out];
  first [ exists []; split; [now rewrite app_nil_r | constructor]
        | eexists; split;
          [rewrite <- ?app_assoc; reflexivity | repeat constructor] ].

Section Discipline.
Variable now_str : string -> list event -> string.
Variable float : string -> option Q.
Variable path_join : string -> string -> string.

Lemma tcping_body_extends log_file tz host port interval io s :
  extends log_file s
    (snd (TcpingMonitor.body now_str log_file tz host port interval io s)).
Proof.
  destruct s as [t su f c o].
  destruct io as [answer [[pt e]|]]; unfold TcpingMonitor.body;
    cbn [TcpingMonitor.fault TcpingMonitor.answer];
    [destruct pt|];
    (destruct answer as [e'|ms|e']; [| |destruct (is_Exception e') eqn:He]);
    unfold TcpingMonitor.tcp_connect_test; rewrite ?He;
    cbv -[app Z.add extends]; solve_extends.
Qed.

Lemma ping_body_extends log_file tz interval io s :
  extends log_file s
    (snd (PingMonitor.body float now_str log_file tz interval io s)).
Proof.
  destruct s as [t su f c o].
  destruct io as [stdout fault]. unfold PingMonitor.body.
  cbn [PingMonitor.fault PingMonitor.stdout].
  destruct (PingMonitor.read_output float stdout) as [[lines rtt] failed] eqn:Hr.
  destruct fault as [[pt e]|]; [destruct pt|];
    destruct rtt as [v|]; destruct failed; destruct lines as [|l lines];
    cbv -[app Z.add extends Py.join]; solve_extends.
Qed.

Lemma loop_extends {IO} (body : IO -> St unit) file :
  (forall io s, extends file s (snd (body io s))) ->
  forall script s, extends file s (snd (loop body script s)).
Proof.
  intros Hbody. induction script as [|io script IH]; intros s; cbn [loop].
  - apply extends_refl.
  - specialize (Hbody io s). destruct (body io s) as [[u|e] s1];
      cbn [snd] in *; [|exact Hbody].
    eapply extends_trans; [exact Hbody|apply IH].
Qed.

Lemma guarded_loop_extends {IO} (body : IO -> St unit) log_file timezone :
  (forall io s, extends log_file s (snd (body io s))) ->
  forall script s,
    extends log_file (open_log now_str log_file timezone s)
      (final (guarded_loop now_str log_file timezone body script s)).
Proof.
  intros Hbody script s. unfold guarded_loop.
  pose proof (loop_extends body log_file Hbody script
                (open_log now_str log_file timezone s)) as Hloop.
  destruct (loop body script _) as [[e|] s1]; cbn [snd] in Hloop;
    [|exact Hloop].
  destruct (on_exception_run now_str log_file timezone e s1)
    as (s2 & Hon & _ & Ho2). rewrite Hon.
  destruct (finally_run now_str log_file timezone s2) as [_ Ho3].
  cbn [final]. eapply extends_trans; [exact Hloop|].
  exists (handler_events now_str log_file timezone e s1
          ++ List.map (EvWrite log_file)
               (summary_lines s2 (now_str timezone (out s2)) timezone)
          ++ [EvPrint LnSaved]).
  split; [now rewrite Ho3, Ho2, <- app_assoc|].
  apply Forall_app. split.
  - unfold handler_events. destruct e; cbn; repeat constructor.
  - apply Forall_app. split; [|repeat constructor].
    apply List.Forall_forall. intros ev Hev.
    apply in_map_iff in Hev as (l & <- & _). reflexivity.
Qed.

(** X25: where a monitor writes.  A monitor that is not enabled prints
    one line and returns without touching any file.  The TCP monitor,
    enabled but without a host, fails with a [ValueError] before it prints
    or writes anything.  Otherwise a run starts with the banner, a blank
    line and the [START] line in the log, and a flush; whatever follows is
    appended after these, and every line the run writes goes to the one
    log file: [tcp_<host>_<port>.log], respectively [ping_<host>.log], in
    the log directory. *)
Theorem monitor_writes_to_its_log_only :
  (forall config script,
      default false
        (TcpingMonitor.enable
           (default {| TcpingMonitor.enable := None; TcpingMonitor.port := None;
                       TcpingMonitor.timeout := None;
                       TcpingMonitor.interval := None |}
                    (TcpingMonitor.tcp config))) = false ->
      TcpingMonitor.main now_str path_join config script
      = Exited (Ok tt) (do (EvPrint LnDisabled) init))
  /\ (forall log_dir timezone tcp script,
        default false (TcpingMonitor.enable tcp) = true ->
        TcpingMonitor.main now_str path_join
          {| TcpingMonitor.target :=
               Some {| TcpingMonitor.host := None;
                       TcpingMonitor.log_dir := log_dir;
                       TcpingMonitor.timezone := timezone |};
             TcpingMonitor.tcp := Some tcp |} script
        = Exited (Raise (ValueError "target.host")) init
        /\ TcpingMonitor.main now_str path_join
             {| TcpingMonitor.target := None; TcpingMonitor.tcp := Some tcp |}
             script
           = Exited (Raise (ValueError "target.host")) init)
  /\ (forall host log_dir timezone port timeout interval script,
        host <> "" ->
        exists rest,
          out (final (TcpingMonitor.main now_str path_join
                        (tcping_config host log_dir timezone port timeout interval)
                        script))
          = prologue now_str (tcping_log path_join host log_dir port)
              (default "Asia/Bangkok" timezone) ++ rest
          /\ Forall (writes_to (tcping_log path_join host log_dir port)) rest)
  /\ (forall config script,
        default false
          (PingMonitor.enable
             (default {| PingMonitor.enable := None; PingMonitor.interval := None |}
                      (PingMonitor.ping config))) = false ->
        PingMonitor.main float now_str path_join config script
        = Exited (Ok tt) (do (EvPrint LnDisabled) init))
  /\ (forall target interval script,
        exists rest,
          out (final (PingMonitor.main float now_str path_join
                        (ping_config target interval) script))
          = prologue now_str (ping_log path_join target) (ping_tz target) ++ rest
          /\ Forall (writes_to (ping_log path_join target)) rest).
Proof.
  split; [|split; [|split; [|split]]].
  - intros config script He. unfold TcpingMonitor.main. now rewrite He.
  - intros log_dir timezone tcp script He. unfold TcpingMonitor.main.
    cbn. rewrite He. split; reflexivity.
  - intros host log_dir timezone port timeout interval script Hhost.
    rewrite tcping_main_enabled by exact Hhost.
    destruct (guarded_loop_extends
                (tcping_body now_str path_join host log_dir timezone port interval)
                (tcping_log path_join host log_dir port)
                (default "Asia/Bangkok" timezone)
                (fun io s => tcping_body_extends _ _ _ _ _ io s) script started)
      as (rest & Hout & Hrest).
    exists rest. split; [exact Hout|exact Hrest].
  - intros config script He. unfold PingMonitor.main. now rewrite He.
  - intros target interval script. rewrite ping_main_enabled.
    destruct (guarded_loop_extends
                (ping_body float now_str path_join target interval)
                (ping_log path_join target) (ping_tz target)
                (fun io s => ping_body_extends _ _ _ io s) script started)
      as (rest & Hout & Hrest).
    exists rest. split; [exact Hout|exact Hrest].
Qed.

End Discipline.

Lemma monitor_writes_to_its_log_only_witness :
  exists rest,
    out (final (TcpingMonitor.main fixed_clock join_slash
                  (tcping_config "example.org" None None None None None)
                  interrupted_while_connecting))
    = prologue fixed_clock (tcping_log join_slash "example.org" None None)
        (default "Asia/Bangkok" None) ++ rest
    /\ Forall (writes_to (tcping_log join_slash "example.org" None None)) rest.
Proof.
  apply (proj1 (proj2 (proj2 (monitor_writes_to_its_log_only
                                fixed_clock no_float join_slash)))).
  discriminate.
Defined.

End MonitorExtras.
